(** * HARP vertical profiles: a shallow embedding of harp-vertical-profiles.c

    The C [double] is the kernel's binary64 float ([PrimFloat.float]): NaN,
    the infinities and both zeros are the values the code really computes
    with, and every closed example evaluates.  Arrays are lists read by index,
    [long] counters are [nat] inside loops and [Z] where the code returns or
    compares them.  The hydrostatic integrators, which call [log] and [exp]
    of the C library, are embedded over the operations of an arithmetic and
    read in binary64, with [log] and [exp] as parameters, and in the real
    numbers, the exact arithmetic one claim speaks of. *)

From Stdlib Require Import ZArith Floats Reals Lra Lia Bool String.
From stdpp Require Import base list gmap.

Set Warnings "-inexact-float".

(* ================================================================== *)
(** * Part I: the embedding                                            *)
(* ================================================================== *)

(** ** Doubles *)

(** Modelled from the spec: [harp_nan] and [harp_isnan] live in harp-utils.c,
    which is not part of the sources at hand; they are the usual quiet NaN and
    the [x != x] test. *)
Definition harp_nan : float := nan.
Definition harp_isnan (x : float) : bool := is_nan x.

(** [a[i]] for a C array of doubles.  Reading outside the array is undefined in
    C; the embedding reads NaN there, and no theorem below depends on it
    without saying so. *)
Definition fget (a : list float) (i : nat) : float := default harp_nan (a !! i).

Notation "a .[ i ]" := (fget a i) (at level 1, left associativity, format "a .[ i ]").

(** [(double) n] for a non-negative [long]. *)
Definition double_of_long (n : Z) : float := of_uint63 (Uint63.of_Z n).

(** Neither NaN nor an infinity. *)
Definition is_finite_double (x : float) : bool := negb (is_nan x) && negb (is_infinity x).

(** Equality of two doubles as values: NaN matches NaN, and [0 == -0]. *)
Definition same_double (x y : float) : bool := (is_nan x && is_nan y) || (x =? y)%float.

(** A zero of either sign. *)
Definition is_zero_double (x : float) : bool := (x =? 0)%float.

(** The same double up to the sign of a zero. *)
Definition alike (x y : float) : Prop :=
  x = y \/ (is_zero_double x = true /\ is_zero_double y = true).

(** The shape of a finite double, and of a zero, in the binary64 specification. *)
Definition finite_sf (x : SpecFloat.spec_float) : Prop :=
  match x with SpecFloat.S754_zero _ | SpecFloat.S754_finite _ _ _ => True | _ => False end.

Definition zero_sf (x : SpecFloat.spec_float) : Prop :=
  match x with SpecFloat.S754_zero _ => True | _ => False end.

(** ** Column integrators (harp-vertical-profiles.c, lines 327-545) *)

Section ColumnIntegrators.
Local Open Scope float_scope.

(** The accumulator of every integrator: [column] and the [empty] flag. *)
Definition column_state : Type := float * bool.

Definition column_result (s : column_state) : float :=
  let '(column, empty) := s in if empty then harp_nan else column.

Definition harp_profile_column_from_partial_column
    (num_levels : Z) (partial_column_profile : list float) : float :=
  column_result
    (fold_left
       (fun (s : column_state) (k : nat) =>
          if negb (harp_isnan partial_column_profile.[k])
          then (fst s + partial_column_profile.[k], false)
          else s)
       (seq 0 (Z.to_nat num_levels)) (0, true)).

Definition harp_profile_tropo_column_from_partial_column_and_altitude
    (num_levels : Z) (partial_column_profile altitude_bounds : list float)
    (tropopause_altitude : float) : float :=
  column_result
    (fold_left
       (fun (s : column_state) (k : nat) =>
          if negb (harp_isnan partial_column_profile.[k]) then
            if altitude_bounds.[k * 2] <? tropopause_altitude then
              if altitude_bounds.[k * 2 + 1] <=? tropopause_altitude
              then (fst s + partial_column_profile.[k], false)
              else (fst s + partial_column_profile.[k]
                            * (tropopause_altitude - altitude_bounds.[k * 2])
                            / (altitude_bounds.[k * 2 + 1] - altitude_bounds.[k * 2]),
                    false)
            else s
          else s)
       (seq 0 (Z.to_nat num_levels)) (0, true)).

Definition harp_profile_strato_column_from_partial_column_and_altitude
    (num_levels : Z) (partial_column_profile altitude_bounds : list float)
    (tropopause_altitude : float) : float :=
  column_result
    (fold_left
       (fun (s : column_state) (k : nat) =>
          if negb (harp_isnan partial_column_profile.[k]) then
            if tropopause_altitude <? altitude_bounds.[k * 2 + 1] then
              if tropopause_altitude <=? altitude_bounds.[k * 2]
              then (fst s + partial_column_profile.[k], false)
              else (fst s + partial_column_profile.[k]
                            * (tropopause_altitude - altitude_bounds.[k * 2])
                            / (altitude_bounds.[k * 2 + 1] - altitude_bounds.[k * 2]),
                    false)
            else s
          else s)
       (seq 0 (Z.to_nat num_levels)) (0, true)).

(** [log] is libm's; the pressure integrators take it as a parameter. *)
Variable log : float -> float.

Definition harp_profile_tropo_column_from_partial_column_and_pressure
    (num_levels : Z) (partial_column_profile pressure_bounds : list float)
    (tropopause_pressure : float) : float :=
  column_result
    (fold_left
       (fun (s : column_state) (k : nat) =>
          if negb (harp_isnan partial_column_profile.[k]) then
            if tropopause_pressure <? pressure_bounds.[k * 2] then
              if tropopause_pressure <=? pressure_bounds.[k * 2 + 1]
              then (fst s + partial_column_profile.[k], false)
              else (fst s + partial_column_profile.[k]
                            * log (tropopause_pressure / pressure_bounds.[k * 2])
                            / log (pressure_bounds.[k * 2 + 1] / pressure_bounds.[k * 2]),
                    false)
            else s
          else s)
       (seq 0 (Z.to_nat num_levels)) (0, true)).

Definition harp_profile_strato_column_from_partial_column_and_pressure
    (num_levels : Z) (partial_column_profile pressure_bounds : list float)
    (tropopause_pressure : float) : float :=
  column_result
    (fold_left
       (fun (s : column_state) (k : nat) =>
          if negb (harp_isnan partial_column_profile.[k]) then
            if pressure_bounds.[k * 2 + 1] <? tropopause_pressure then
              if pressure_bounds.[k * 2] <=? tropopause_pressure
              then (fst s + partial_column_profile.[k], false)
              else (fst s + partial_column_profile.[k]
                            * log (tropopause_pressure / pressure_bounds.[k * 2])
                            / log (pressure_bounds.[k * 2 + 1] / pressure_bounds.[k * 2]),
                    false)
            else s
          else s)
       (seq 0 (Z.to_nat num_levels)) (0, true)).
End ColumnIntegrators.

(** One step of [harp_profile_column_from_partial_column], as a function of
    the entry read. *)
Definition column_step (s : column_state) (x : float) : column_state :=
  if negb (harp_isnan x) then (fst s + x, false)%float else s.

(** What the column integrator is specified to return, in the words of the
    specification: the sum, from zero and in profile order, of the entries
    that are not NaN, and NaN when there is none. *)
Definition sum_of_non_nan (partial_column_profile : list float) : float :=
  if forallb harp_isnan partial_column_profile then harp_nan
  else fold_left PrimFloat.add
         (List.filter (fun x => negb (harp_isnan x)) partial_column_profile) 0%float.

(** ** Tropopause locator (harp-vertical-profiles.c, lines 183-275) *)

Section Tropopause.
Local Open Scope float_scope.

(** [EPSILON] is a macro of harp-internal.h, which is not among the sources
    at hand: the locator takes it as a parameter. *)
Variable EPSILON : float.
Variable num_levels : Z.
Variables altitude_profile pressure_profile temperature_profile : list float.

(** [while (i < num_levels - 1 && pressure_profile[i] > 50000) i++;]
    Each loop below spends one unit of fuel per iteration and stops exactly
    as the C loop does when its guard fails; [tropopause_skip_fuel] and its
    companions show that [num_levels] units are never used up. *)
Fixpoint tropopause_skip (fuel i : nat) : nat :=
  match fuel with
  | O => i
  | S fuel' =>
      if (Z.of_nat i <? num_levels - 1)%Z && (50000 <? pressure_profile.[i])
      then tropopause_skip fuel' (S i)
      else i
  end.

(** The look-ahead loop over [k], from [i + 2], with its two accumulators
    [lapse_sum] and [count]. *)
Fixpoint tropopause_lookahead (fuel i k : nat) (lapse_sum : float) (count : Z) : float * Z :=
  match fuel with
  | O => (lapse_sum, count)
  | S fuel' =>
      if (Z.of_nat k <? num_levels)%Z
         && (altitude_profile.[k] <=? altitude_profile.[i] + 2000)
      then
        let height := altitude_profile.[k] - altitude_profile.[k - 1] in
        if EPSILON <=? height
        then tropopause_lookahead fuel' i (S k)
               (lapse_sum + (temperature_profile.[k - 1] - temperature_profile.[k]) / height)
               (count + 1)%Z
        else tropopause_lookahead fuel' i (S k) lapse_sum count
      else (lapse_sum, count)
  end.

(** [count == 0 || lapse_sum / count <= 0.002] after the look-ahead. *)
Definition tropopause_accept (i : nat) : bool :=
  let '(lapse_sum, count) :=
    tropopause_lookahead (Z.to_nat num_levels) i (i + 2) 0 0%Z in
  (count =? 0)%Z || (lapse_sum / double_of_long count <=? 0.002).

(** The main loop: [-1] for every [return -1] and for falling out of it. *)
Fixpoint tropopause_scan (fuel i : nat) (lapse_below : float) : Z :=
  match fuel with
  | O => (-1)%Z
  | S fuel' =>
      if (Z.of_nat i <? num_levels - 1)%Z && (5000 <? pressure_profile.[i]) then
        let height := altitude_profile.[i + 1] - altitude_profile.[i] in
        if height <? 0 then (-1)%Z
        else
          let lapse_above :=
            if height <? EPSILON then lapse_below
            else (temperature_profile.[i] - temperature_profile.[i + 1]) / height in
          if (0.002 <? lapse_below) && (lapse_above <=? 0.002) && tropopause_accept i
          then Z.of_nat i
          else tropopause_scan fuel' (S i) lapse_above
      else (-1)%Z
  end.

Definition harp_tropopause_index_from_altitude_and_temperature : Z :=
  let i := tropopause_skip (Z.to_nat num_levels) 1 in
  if (num_levels - 1 <=? Z.of_nat i)%Z then (-1)%Z
  else
    let height := altitude_profile.[i] - altitude_profile.[i - 1] in
    if height <? 0 then (-1)%Z
    else
      let lapse_below :=
        if height <? EPSILON then harp_nan
        else (temperature_profile.[i - 1] - temperature_profile.[i]) / height in
      tropopause_scan (Z.to_nat num_levels) i lapse_below.

(** *** The WMO criterion in the words of the specification *)

(** Lapse rate of the layer between levels [j] and [j + 1], in K/m. *)
Definition lapse_rate (j : nat) : float :=
  (temperature_profile.[j] - temperature_profile.[S j])
  / (altitude_profile.[S j] - altitude_profile.[j]).

Fixpoint take_while {A : Type} (p : A -> bool) (l : list A) : list A :=
  match l with
  | [] => []
  | x :: l' => if p x then x :: take_while p l' else []
  end.

(** The levels from [i + 2] on that lie within 2 km above level [i]. *)
Definition levels_within_2km (i : nat) : list nat :=
  take_while (fun k => altitude_profile.[k] <=? altitude_profile.[i] + 2000)
             (seq (i + 2) (Z.to_nat num_levels - (i + 2))).

(** The lapse rates of the layers below those levels, zero-height layers
    (thinner than [EPSILON]) left out. *)
Definition lapse_rates_within_2km (i : nat) : list float :=
  map (fun k => lapse_rate (k - 1))
      (List.filter (fun k => EPSILON <=? altitude_profile.[k] - altitude_profile.[k - 1])
                   (levels_within_2km i)).

(** Their average does not exceed 0.002 K/m (nothing to average counts). *)
Definition average_lapse_ok (i : nat) : bool :=
  let rates := lapse_rates_within_2km i in
  (Z.of_nat (length rates) =? 0)%Z
  || (fold_left PrimFloat.add rates 0 / double_of_long (Z.of_nat (length rates)) <=? 0.002).

(** The pressure window as the code applies it, and as C3 words it. *)
Definition in_pressure_window (i : nat) : bool :=
  (pressure_profile.[i] <=? 50000) && (5000 <? pressure_profile.[i]).

Definition in_claimed_pressure_window (i : nat) : bool :=
  (pressure_profile.[i] <? 50000) && (5000 <=? pressure_profile.[i]).

Definition wmo_tropopause_at (i : nat) : bool :=
  (1 <=? i)%nat && (Z.of_nat i <? num_levels - 1)%Z
  && in_pressure_window i
  && (0.002 <? lapse_rate (i - 1)) && (lapse_rate i <=? 0.002)
  && average_lapse_ok i.

(** The criterion in the words of C3, where they differ from the code's: the
    window is open at 50000 Pa and closed at 5000 Pa, and the subsequent
    levels within 2 km above level [i] are [i + 1], [i + 2], ..., so that the
    layers through them begin with the layer directly above [i]. *)
Definition claimed_lapse_rates_within_2km (i : nat) : list float :=
  map (fun k => lapse_rate (k - 1))
      (List.filter (fun k => EPSILON <=? altitude_profile.[k] - altitude_profile.[k - 1])
         (take_while (fun k => altitude_profile.[k] <=? altitude_profile.[i] + 2000)
                     (seq (i + 1) (Z.to_nat num_levels - (i + 1))))).

Definition claimed_average_lapse_ok (i : nat) : bool :=
  let rates := claimed_lapse_rates_within_2km i in
  (Z.of_nat (length rates) =? 0)%Z
  || (fold_left PrimFloat.add rates 0 / double_of_long (Z.of_nat (length rates)) <=? 0.002).

Definition claimed_tropopause_at (i : nat) : bool :=
  (1 <=? i)%nat && (Z.of_nat i <? num_levels - 1)%Z
  && in_claimed_pressure_window i
  && (0.002 <? lapse_rate (i - 1)) && (lapse_rate i <=? 0.002)
  && claimed_average_lapse_ok i.

(** Every layer is at least [EPSILON] thick. *)
Definition layers_thick : Prop :=
  forall k : nat, (Z.of_nat (S k) < num_levels)%Z ->
    (EPSILON <=? altitude_profile.[S k] - altitude_profile.[k]) = true.

(** Pressure decreases strictly from level to level. *)
Definition pressure_decreasing : Prop :=
  forall k : nat, (Z.of_nat (S k) < num_levels)%Z ->
    (pressure_profile.[S k] <? pressure_profile.[k]) = true.

End Tropopause.

(** *** A standard-atmosphere stub (specification, section 8)

    21 levels from 0 m to 20000 m in steps of 1 km, a lapse rate of 6.5 K/km
    up to 11000 m and an isothermal layer above, pressures falling from
    101325 Pa to 5325 Pa. *)

Definition isa_altitude : list float :=
  map (fun k => (double_of_long (Z.of_nat k) * 1000)%float) (seq 0 21).

Definition isa_pressure : list float :=
  map (fun k => (101325 - 4800 * double_of_long (Z.of_nat k))%float) (seq 0 21).

Definition isa_temperature : list float :=
  map (fun k => if (k <=? 11)%nat
                then (288.15 - 6.5 * double_of_long (Z.of_nat k))%float
                else 216.65%float) (seq 0 21).

(** Seven levels 1 km apart with an inversion above level 1: the layer
    directly above level 1 warms by 10 K, the next one cools by 3 K, and the
    profile is isothermal from level 3 on. *)
Definition inversion_altitude : list float := [0; 1000; 2000; 3000; 4000; 5000; 6000]%float.
Definition inversion_pressure : list float :=
  [60000; 45000; 40000; 35000; 30000; 25000; 20000]%float.
Definition inversion_temperature : list float := [300; 290; 300; 297; 297; 297; 297]%float.

(** Five levels of which levels 1 and 2 are one unit in the last place
    apart, and isothermal from level 1 on. *)
Definition thin_layer_altitude : list float :=
  [0; 1000; 1000.0000000000001; 2000; 3000]%float.
Definition thin_layer_pressure : list float := [60000; 45000; 40000; 35000; 30000]%float.
Definition thin_layer_temperature : list float := [300; 290; 290; 290; 290]%float.

(** A four-level profile whose altitude drops between levels 1 and 2. *)
Definition dip_altitude : list float := [0; 1000; 500; 2000]%float.
Definition dip_pressure : list float := [60000; 40000; 30000; 20000]%float.
Definition dip_temperature : list float := [300; 290; 290; 290]%float.

(** ** Hydrostatic integrators
       (harp-vertical-profiles.c, lines 286-325 and 608-647)

    [harp_profile_gph_from_pressure] and [harp_profile_pressure_from_gph]
    use +, -, *, /, <, the literals 0, 1e3 and -1e-3, and [log] and [exp] of
    the C library.  They are embedded once, over the operations of an
    arithmetic, and read in two arithmetics:
    - [binary64 log exp], the doubles of the program, with the C library's
      [log] and [exp] (not among the sources at hand) as parameters;
    - [exact], the real numbers: the exact real arithmetic that C5 speaks of.
    An operation answers [None] where the arithmetic leaves it undefined: in
    [exact] a quotient by zero and the logarithm of a number that is not
    positive; never in [binary64], where these are an infinity or NaN.  A read
    or a write outside an array is [None] in both. *)

Module Hydrostatic.

Class Arithmetic (A : Type) : Type := {
  num_0 : A;
  num_1e3 : A;
  num_minus_1em3 : A;
  num_add : A -> A -> A;
  num_sub : A -> A -> A;
  num_mul : A -> A -> A;
  num_div : A -> A -> option A;
  num_log : A -> option A;
  num_exp : A -> A;
  num_lt : A -> A -> bool
}.

Definition binary64 (log exp : float -> float) : Arithmetic float :=
  {| num_0 := 0%float;
     num_1e3 := 1e3%float;
     num_minus_1em3 := (- 1e-3)%float;
     num_add := PrimFloat.add;
     num_sub := PrimFloat.sub;
     num_mul := PrimFloat.mul;
     num_div := fun a b => Some (a / b)%float;
     num_log := fun x => Some (log x);
     num_exp := exp;
     num_lt := PrimFloat.ltb |}.

Definition exact : Arithmetic R :=
  {| num_0 := 0%R;
     num_1e3 := 1e3%R;
     num_minus_1em3 := (- 1e-3)%R;
     num_add := Rplus;
     num_sub := Rminus;
     num_mul := Rmult;
     num_div := fun a b => if Req_dec_T b 0 then None else Some (a / b)%R;
     num_log := fun x => if Rlt_dec 0 x then Some (ln x) else None;
     num_exp := Rtrigo_def.exp;
     num_lt := fun a b => if Rlt_dec a b then true else false |}.

Section Integrators.
Context {A : Type} {arithmetic : Arithmetic A}.

Local Infix "+" := num_add.
Local Infix "-" := num_sub.
Local Infix "*" := num_mul.

(** Constants of harp-constants.h, which is not among the sources at hand. *)
Variables CONST_MOLAR_GAS CONST_GRAV_ACCEL_45LAT_WGS84_SPHERE : A.

(** [a[k] = x] *)
Definition store (a : list A) (k : nat) (x : A) : option (list A) :=
  if decide (k < length a)%nat then Some (<[k := x]> a) else None.

(** [for (i = lo; i < lo + count; i++) body] *)
Fixpoint for_loop {St : Type} (body : nat -> St -> option St) (lo count : nat) (s : St)
  : option St :=
  match count with
  | O => Some s
  | S count' => s' ← body lo s; for_loop body (S lo) count' s'
  end.

(** The locals [prev_z], [prev_p], [prev_T], [prev_M] and the output array. *)
Record walk_state : Type := {
  prev_z : A; prev_p : A; prev_T : A; prev_M : A;
  profile : list A
}.

Definition walk_start (out : list A) : walk_state :=
  {| prev_z := num_0; prev_p := num_0; prev_T := num_0; prev_M := num_0; profile := out |}.

Definition gph_from_pressure_body
    (num_levels : nat) (pressure_profile temperature_profile molar_mass_air : list A)
    (surface_pressure surface_height : A) (i : nat) (st : walk_state)
  : option walk_state :=
  first ← pressure_profile !! 0%nat;
  last ← pressure_profile !! (num_levels - 1)%nat;
  (* vertical axis is from TOA to surface -> invert the loop index *)
  let k := if num_lt first last then (num_levels - 1 - i)%nat else i in
  p ← pressure_profile !! k;
  M ← molar_mass_air !! k;
  T ← temperature_profile !! k;
  z ← (if (i =? 0)%nat then
         a ← num_div T M;
         b ← num_div CONST_MOLAR_GAS CONST_GRAV_ACCEL_45LAT_WGS84_SPHERE;
         q ← num_div surface_pressure p;
         l ← num_log q;
         Some (surface_height + num_1e3 * a * b * l)
       else
         a ← num_div (prev_T st + T) (prev_M st + M);
         b ← num_div CONST_MOLAR_GAS CONST_GRAV_ACCEL_45LAT_WGS84_SPHERE;
         q ← num_div (prev_p st) p;
         l ← num_log q;
         Some (prev_z st + num_1e3 * a * b * l));
  out ← store (profile st) k z;
  Some {| prev_z := z; prev_p := p; prev_T := T; prev_M := M; profile := out |}.

Definition harp_profile_gph_from_pressure
    (num_levels : nat) (pressure_profile temperature_profile molar_mass_air : list A)
    (surface_pressure surface_height : A) (gph_profile : list A) : option (list A) :=
  st ← for_loop
         (gph_from_pressure_body num_levels pressure_profile temperature_profile
            molar_mass_air surface_pressure surface_height)
         0 num_levels (walk_start gph_profile);
  Some (profile st).

Definition pressure_from_gph_body
    (num_levels : nat) (gph_profile temperature_profile molar_mass_air : list A)
    (surface_pressure surface_height : A) (i : nat) (st : walk_state)
  : option walk_state :=
  first ← gph_profile !! 0%nat;
  last ← gph_profile !! (num_levels - 1)%nat;
  (* vertical axis is from TOA to surface -> invert the loop index *)
  let k := if num_lt last first then (num_levels - 1 - i)%nat else i in
  z ← gph_profile !! k;
  M ← molar_mass_air !! k;
  T ← temperature_profile !! k;
  p ← (if (i =? 0)%nat then
         a ← num_div M T;
         b ← num_div CONST_GRAV_ACCEL_45LAT_WGS84_SPHERE CONST_MOLAR_GAS;
         Some (surface_pressure * num_exp (num_minus_1em3 * a * b * (z - surface_height)))
       else
         a ← num_div (prev_M st + M) (prev_T st + T);
         b ← num_div CONST_GRAV_ACCEL_45LAT_WGS84_SPHERE CONST_MOLAR_GAS;
         Some (prev_p st * num_exp (num_minus_1em3 * a * b * (z - prev_z st))));
  out ← store (profile st) k p;
  Some {| prev_z := z; prev_p := p; prev_T := T; prev_M := M; profile := out |}.

Definition harp_profile_pressure_from_gph
    (num_levels : nat) (gph_profile temperature_profile molar_mass_air : list A)
    (surface_pressure surface_height : A) (pressure_profile : list A) : option (list A) :=
  st ← for_loop
         (pressure_from_gph_body num_levels gph_profile temperature_profile
            molar_mass_air surface_pressure surface_height)
         0 num_levels (walk_start pressure_profile);
  Some (profile st).

(** [harp_profile_pressure_from_gph] applied to the output of
    [harp_profile_gph_from_pressure], with the same temperatures, molar
    masses, surface pressure and surface height; [gph_buffer] and
    [pressure_buffer] are the arrays the two calls write to. *)
Definition pressure_gph_round_trip
    (num_levels : nat) (pressure_profile temperature_profile molar_mass_air : list A)
    (surface_pressure surface_height : A) (gph_buffer pressure_buffer : list A)
  : option (list A) :=
  gph ← harp_profile_gph_from_pressure num_levels pressure_profile temperature_profile
          molar_mass_air surface_pressure surface_height gph_buffer;
  harp_profile_pressure_from_gph num_levels gph temperature_profile molar_mass_air
    surface_pressure surface_height pressure_buffer.

End Integrators.
End Hydrostatic.

(** *** The round trip of C5 in binary64 *)

(** [|x' - x| <= 1e-6 * |x|], the relative tolerance of C5. *)
Definition within_relative_tolerance (x x' : float) : bool :=
  (abs (x' - x) <=? 1e-6 * abs x)%float.

(** A result of the C library that is the double [nearest] or one of its two
    neighbours: what a [log] or [exp] with an error below one unit in the last
    place returns where [nearest] is the correctly rounded value. *)
Definition within_one_ulp (nearest result : float) : Prop :=
  result = next_down nearest \/ result = nearest \/ result = next_up nearest.

(** The special values that C99 (Annex F.9.3) fixes for [log] and [exp]. *)
Definition c99_special_values (log exp : float -> float) : Prop :=
  log 1%float = 0%float
  /\ log 0%float = neg_infinity
  /\ exp (- 0)%float = 1%float
  /\ exp infinity = infinity.

(** A profile of two levels, stored surface first, whose surface pressure is
    the pressure of the first level. *)
Definition halving_pressure : list float := [100000; 50000]%float.
Definition halving_temperature : list float := [280; 260]%float.
Definition halving_molar_mass : list float := [29; 29]%float.

(** *** The exact arithmetic of C5 *)

Module Exact.
Section Walk.
Local Open Scope R_scope.

Variables CONST_MOLAR_GAS CONST_GRAV_ACCEL_45LAT_WGS84_SPHERE : R.

(** Strictly monotonic, in either storage order. *)
Definition strictly_monotonic (a : list R) : Prop :=
  (forall k x y, a !! k = Some x -> a !! S k = Some y -> y < x)
  \/ (forall k x y, a !! k = Some x -> a !! S k = Some y -> x < y).

Definition all_positive (a : list R) : Prop :=
  forall k x, a !! k = Some x -> 0 < x.

(** *** The walk from the surface outward, for the round-trip proof *)

(** Level [k] of a profile, 0 outside it. *)
Definition level (a : list R) (k : nat) : R := default 0 (a !! k).

(** The storage order both integrators detect, and the level [walk i] they
    visit at step [i]. *)
Definition toa_first (num_levels : nat) (pressure_profile : list R) : bool :=
  if Rlt_dec (level pressure_profile 0) (level pressure_profile (num_levels - 1))
  then true else false.

Definition walk (num_levels : nat) (pressure_profile : list R) (i : nat) : nat :=
  if toa_first num_levels pressure_profile then (num_levels - 1 - i)%nat else i.

(** The geopotential height the forward integration reaches at step [i]. *)
Fixpoint gph_at (num_levels : nat)
    (pressure_profile temperature_profile molar_mass_air : list R)
    (surface_pressure surface_height : R) (i : nat) : R :=
  let w := walk num_levels pressure_profile in
  let P := level pressure_profile in
  let T := level temperature_profile in
  let M := level molar_mass_air in
  match i with
  | O => surface_height
         + 1e3 * (T (w 0%nat) / M (w 0%nat))
           * (CONST_MOLAR_GAS / CONST_GRAV_ACCEL_45LAT_WGS84_SPHERE)
           * ln (surface_pressure / P (w 0%nat))
  | S j => gph_at num_levels pressure_profile temperature_profile molar_mass_air
             surface_pressure surface_height j
           + 1e3 * ((T (w j) + T (w (S j))) / (M (w j) + M (w (S j))))
             * (CONST_MOLAR_GAS / CONST_GRAV_ACCEL_45LAT_WGS84_SPHERE)
             * ln (P (w j) / P (w (S j)))
  end.

End Walk.
End Exact.

(** ** Variables, and the vertical smoothing operator
       (harp-vertical-profiles.c, lines 893-1103) *)

(** Modelled from the spec: [harp_data_type], [harp_dimension_type] and the
    fields of [harp_variable] that the operator reads are declared in harp.h,
    which is not among the sources at hand (specification, section 3). *)
Inductive harp_data_type : Type :=
  | harp_type_int8 | harp_type_int16 | harp_type_int32
  | harp_type_float | harp_type_double | harp_type_string.

Inductive harp_dimension_type : Type :=
  | harp_dimension_independent | harp_dimension_time | harp_dimension_latitude
  | harp_dimension_longitude | harp_dimension_vertical | harp_dimension_spectral.

#[global] Instance harp_data_type_eq_dec : EqDecision harp_data_type.
Proof. solve_decision. Defined.

#[global] Instance harp_dimension_type_eq_dec : EqDecision harp_dimension_type.
Proof. solve_decision. Defined.

(** The address of a buffer of doubles.  Two variables share a buffer exactly
    when their [data] fields are equal. *)
Definition address : Type := positive.

Record harp_variable : Type := {
  name : string;
  unit_str : string;
  data_type : harp_data_type;
  num_dimensions : Z;
  dimension_type : list harp_dimension_type;
  dimension : list Z;
  num_elements : Z;
  data : address
}.

(** [v->dimension[i]] and [v->dimension_type[i] == t]. *)
Definition dimension_at (v : harp_variable) (i : Z) : Z :=
  default 0%Z (dimension v !! Z.to_nat i).

Definition dimension_type_is (v : harp_variable) (i : Z) (t : harp_dimension_type) : bool :=
  bool_decide (dimension_type v !! Z.to_nat i = Some t).

Definition is_double (v : harp_variable) : bool :=
  bool_decide (data_type v = harp_type_double).

Inductive harp_error : Type :=
  | HARP_ERROR_INVALID_ARGUMENT (message : string)
  | HARP_ERROR_OUT_OF_MEMORY
  | HARP_ERROR_VARIABLE_NOT_FOUND (message : string).

(** What a call can see and change: the buffers of doubles and of 32-bit
    integers, the error state set by [harp_set_error], and whether [malloc]
    grants a request of a given size. *)
Record world : Type := {
  mem : gmap address (list float);
  mem_int32 : gmap address (list Z);
  harp_errno : option harp_error;
  malloc_ok : Z -> bool
}.

Definition harp_set_error (w : world) (e : harp_error) : world :=
  {| mem := mem w; mem_int32 := mem_int32 w; harp_errno := Some e;
     malloc_ok := malloc_ok w |}.

Definition with_mem (w : world) (m : gmap address (list float)) : world :=
  {| mem := m; mem_int32 := mem_int32 w; harp_errno := harp_errno w;
     malloc_ok := malloc_ok w |}.

(** The buffer at an address, [p[i]] and [p[i] = x]. *)
Definition buffer (m : gmap address (list float)) (p : address) : list float :=
  default [] (m !! p).

Definition load (m : gmap address (list float)) (p : address) (i : nat) : float :=
  (buffer m p).[i].

Definition store (m : gmap address (list float)) (p : address) (i : nat) (x : float)
  : gmap address (list float) :=
  alter (fun b => <[i := x]> b) p m.

(** [get_unpadded_vector_length]: the loop [for (i = vector_length - 1; i >= 0; i--)]
    with [i + 1] as the recursion argument. *)
Fixpoint unpadded_scan (vector : list float) (vector_length : Z) (i_plus_1 : nat) : Z :=
  match i_plus_1 with
  | O => vector_length
  | S i => if negb (harp_isnan vector.[i]) then (Z.of_nat i + 1)%Z
           else unpadded_scan vector vector_length i
  end.

Definition get_unpadded_vector_length (vector : list float) (vector_length : Z) : Z :=
  unpadded_scan vector vector_length (Z.to_nat vector_length).

Section SmoothVertical.
Local Open Scope float_scope.

(** The structural validation: [inl e] for every
    [harp_set_error(e); return -1;], in the order of the source. *)
Definition smooth_vertical_validate
    (variable vertical_axis averaging_kernel apriori : option harp_variable)
  : harp_error + (harp_variable * harp_variable) :=
  match variable with
  | None => inl (HARP_ERROR_INVALID_ARGUMENT "variable is NULL")
  | Some variable =>
  match averaging_kernel with
  | None => inl (HARP_ERROR_INVALID_ARGUMENT "avk is NULL")
  | Some averaging_kernel =>
  if negb (is_double variable)
  then inl (HARP_ERROR_INVALID_ARGUMENT "invalid data type for variable")
  else if (num_dimensions variable <? 2)%Z
          || negb (dimension_type_is variable 0 harp_dimension_time)
          || negb (dimension_type_is variable (num_dimensions variable - 1)
                     harp_dimension_vertical)
  then inl (HARP_ERROR_INVALID_ARGUMENT "variable should have dimensions {time,...,vertical}")
  else if negb (is_double averaging_kernel)
  then inl (HARP_ERROR_INVALID_ARGUMENT "invalid data type for averaging kernel")
  else if negb (num_dimensions averaging_kernel =? 3)%Z
          || negb (dimension_type_is averaging_kernel 0 harp_dimension_time)
          || negb (dimension_type_is averaging_kernel 1 harp_dimension_vertical)
          || negb (dimension_type_is averaging_kernel 2 harp_dimension_vertical)
  then inl (HARP_ERROR_INVALID_ARGUMENT
              "averaging kernel should have dimensions {time,vertical,vertical}")
  else if negb (dimension_at averaging_kernel 1 =? dimension_at averaging_kernel 2)%Z
  then inl (HARP_ERROR_INVALID_ARGUMENT "vertical dimensions of averaging kernel do not match")
  else if negb (dimension_at variable 0 =? dimension_at averaging_kernel 0)%Z
          || negb (dimension_at variable (num_dimensions variable - 1)
                   =? dimension_at averaging_kernel 1)%Z
  then inl (HARP_ERROR_INVALID_ARGUMENT "variable and avk have inconsistent dimensions")
  else
  match
    match apriori with
    | None => None
    | Some apriori =>
      if negb (is_double apriori)
      then Some (HARP_ERROR_INVALID_ARGUMENT "invalid data type for apriori")
      else if negb (num_dimensions apriori =? 2)%Z
              || negb (dimension_type_is apriori 0 harp_dimension_time)
              || negb (dimension_type_is apriori 1 harp_dimension_vertical)
      then Some (HARP_ERROR_INVALID_ARGUMENT "apriori should have dimensions {time,vertical}")
      else if negb (dimension_at apriori 0 =? dimension_at averaging_kernel 0)%Z
              || negb (dimension_at apriori 1 =? dimension_at averaging_kernel 1)%Z
      then Some (HARP_ERROR_INVALID_ARGUMENT "apriori and avk have inconsistent dimensions")
      else None
    end
  with
  | Some e => inl e
  | None =>
  match
    match vertical_axis with
    | None => None
    | Some vertical_axis =>
      if negb (is_double vertical_axis)
      then Some (HARP_ERROR_INVALID_ARGUMENT "invalid data type for axis variable")
      else if negb (num_dimensions vertical_axis =? 2)%Z
              || negb (dimension_type_is vertical_axis 0 harp_dimension_time)
              || negb (dimension_type_is vertical_axis 1 harp_dimension_vertical)
      then Some (HARP_ERROR_INVALID_ARGUMENT
                   "axis variable should have dimensions {time,vertical}")
      else if negb (dimension_at vertical_axis 0 =? dimension_at averaging_kernel 0)%Z
              || negb (dimension_at vertical_axis 1 =? dimension_at averaging_kernel 1)%Z
      then Some (HARP_ERROR_INVALID_ARGUMENT
                   "axis variable and avk have inconsistent dimensions")
      else None
    end
  with
  | Some e => inl e
  | None => inr (variable, averaging_kernel)
  end end end end.

(** The number of valid levels of time row [k]. *)
Definition row_num_vertical_elements
    (vertical_axis : option harp_variable) (m : gmap address (list float))
    (max_vertical_elements : Z) (k : nat) : Z :=
  match vertical_axis with
  | None => max_vertical_elements
  | Some vertical_axis =>
      get_unpadded_vector_length
        (drop (k * Z.to_nat max_vertical_elements) (buffer m (data vertical_axis)))
        max_vertical_elements
  end.

(** The temporary [vector]: the profile, minus the a priori when there is one. *)
Definition smooth_vector
    (variable : harp_variable) (apriori : option harp_variable)
    (m : gmap address (list float))
    (max_vertical_elements num_vertical_elements k blockoffset : nat) : list float :=
  let vector :=
    map (fun i => load m (data variable) (blockoffset + i)) (seq 0 num_vertical_elements) in
  match apriori with
  | None => vector
  | Some apriori =>
      map (fun i => vector.[i] - load m (data apriori) (k * max_vertical_elements + i))
          (seq 0 num_vertical_elements)
  end.

(** The body of the loop over [i] for a level whose [vector[i]] is not NaN. *)
Definition smooth_level
    (variable averaging_kernel : harp_variable) (apriori : option harp_variable)
    (max_vertical_elements num_vertical_elements k blockoffset : nat) (vector : list float)
    (m : gmap address (list float)) (i : nat) : gmap address (list float) :=
  let avk_offset := ((k * max_vertical_elements + i) * max_vertical_elements)%nat in
  let m := store m (data variable) (blockoffset + i) 0 in
  let '(m, num_valid) :=
    fold_left
      (fun (s : gmap address (list float) * Z) (j : nat) =>
         if negb (harp_isnan vector.[j])
         then (store (fst s) (data variable) (blockoffset + i)
                 (load (fst s) (data variable) (blockoffset + i)
                  + load (fst s) (data averaging_kernel) (avk_offset + j) * vector.[j]),
               (snd s + 1)%Z)
         else s)
      (seq 0 num_vertical_elements) (m, 0%Z) in
  match apriori with
  | Some apriori =>
      (* add the apriori again *)
      store m (data variable) (blockoffset + i)
        (load m (data variable) (blockoffset + i)
         + load m (data apriori) (k * max_vertical_elements + i))
  | None =>
      if (num_valid =? 0)%Z then store m (data variable) (blockoffset + i) harp_nan else m
  end.

(** The body of the loop over [l]: one block of one time row. *)
Definition smooth_block
    (variable averaging_kernel : harp_variable) (apriori : option harp_variable)
    (max_vertical_elements num_vertical_elements num_blocks k : nat)
    (m : gmap address (list float)) (l : nat) : gmap address (list float) :=
  let blockoffset := ((k * num_blocks + l) * max_vertical_elements)%nat in
  let vector :=
    smooth_vector variable apriori m max_vertical_elements num_vertical_elements k blockoffset in
  fold_left
    (fun m i =>
       if negb (harp_isnan vector.[i])
       then smooth_level variable averaging_kernel apriori max_vertical_elements
              num_vertical_elements k blockoffset vector m i
       else m)
    (seq 0 num_vertical_elements) m.

(** The body of the loop over [k]: one time row. *)
Definition smooth_row
    (variable : harp_variable) (vertical_axis : option harp_variable)
    (averaging_kernel : harp_variable) (apriori : option harp_variable)
    (max_vertical_elements num_blocks : Z)
    (m : gmap address (list float)) (k : nat) : gmap address (list float) :=
  let num_vertical_elements :=
    row_num_vertical_elements vertical_axis m max_vertical_elements k in
  fold_left
    (smooth_block variable averaging_kernel apriori (Z.to_nat max_vertical_elements)
       (Z.to_nat num_vertical_elements) (Z.to_nat num_blocks) k)
    (seq 0 (Z.to_nat num_blocks)) m.

(** [harp_variable_smooth_vertical].  A pointer argument is [None] when it is
    NULL.  The two divisions that give [num_blocks] are C's; a zero divisor
    (an empty time or vertical dimension) is undefined behaviour in C, and
    the theorems that promise a result exclude it. *)
Definition harp_variable_smooth_vertical
    (variable vertical_axis averaging_kernel apriori : option harp_variable) (w : world)
  : Z * world :=
  match smooth_vertical_validate variable vertical_axis averaging_kernel apriori with
  | inl e => ((-1)%Z, harp_set_error w e)
  | inr (variable, averaging_kernel) =>
      let max_vertical_elements := dimension_at averaging_kernel 1 in
      (* allocate memory for the temporary vertical profile vector *)
      if negb (malloc_ok w (max_vertical_elements * 8)%Z)
      then ((-1)%Z, harp_set_error w HARP_ERROR_OUT_OF_MEMORY)
      else
        (* calculate the number of blocks in this datetime slice of the variable *)
        let num_blocks :=
          ((num_elements variable ÷ dimension_at variable 0) ÷ max_vertical_elements)%Z in
        (0%Z,
         with_mem w
           (fold_left
              (smooth_row variable vertical_axis averaging_kernel apriori
                 max_vertical_elements num_blocks)
              (seq 0 (Z.to_nat (dimension_at variable 0))) (mem w)))
  end.

End SmoothVertical.

(** *** Invariants of the smoothing loops

    Memories that agree with [m0] outside the variable's buffer and at one
    cell [c0] of it. *)
Definition agrees_at (variable : harp_variable) (m0 : gmap address (list float))
    (c0 : nat) (m : gmap address (list float)) : Prop :=
  (forall q, q <> data variable -> m !! q = m0 !! q)
  /\ load m (data variable) c0 = load m0 (data variable) c0.

(** The other buffers and the length of the variable's buffer are those of
    [m0], and every element of the variable is the one of [m0] up to the sign
    of a zero. *)
Definition unchanged_alike (variable : harp_variable) (m0 m : gmap address (list float))
  : Prop :=
  (forall q, q <> data variable -> m !! q = m0 !! q)
  /\ length (buffer m (data variable)) = length (buffer m0 (data variable))
  /\ forall c, alike (load m (data variable) c) (load m0 (data variable) c).

(** *** A small instance: one time row, two levels

    The variable lives at address 1, the averaging kernel (the 2x2 identity)
    at address 2, an all-zero a priori at address 3 and a vertical axis at
    address 4. *)

Definition example_profile_variable (name : string) (p : address) : harp_variable :=
  {| name := name; unit_str := ""; data_type := harp_type_double;
     num_dimensions := 2;
     dimension_type := [harp_dimension_time; harp_dimension_vertical];
     dimension := [1%Z; 2%Z]; num_elements := 2; data := p |}.

Definition example_variable : harp_variable := example_profile_variable "O3" 1%positive.
Definition example_apriori : harp_variable := example_profile_variable "O3_apriori" 3%positive.
Definition example_axis : harp_variable := example_profile_variable "altitude" 4%positive.

Definition example_avk : harp_variable :=
  {| name := "O3_avk"; unit_str := ""; data_type := harp_type_double;
     num_dimensions := 3;
     dimension_type := [harp_dimension_time; harp_dimension_vertical; harp_dimension_vertical];
     dimension := [1%Z; 2%Z; 2%Z]; num_elements := 4; data := 2%positive |}.

Definition example_world (profile axis : list float) : world :=
  {| mem := <[1%positive := profile]>
              (<[2%positive := [1; 0; 0; 1]%float]>
                 (<[3%positive := [0; 0]%float]> {[ 4%positive := axis ]}));
     mem_int32 := ∅;
     harp_errno := None;
     malloc_ok := fun _ => true |}.

(** ** Products, collocation results and the dataset orchestrators
       (harp-vertical-profiles.c, lines 1349-1541 and 1998-2150) *)

(** Modelled from the spec: [harp_product], [harp_dataset] and
    [harp_collocation_result] are declared in harp.h, which is not among the
    sources at hand (specification, section 3); only the fields the
    orchestrators read are kept, and [num_variables] is the length of
    [product_variable]. *)
Record harp_product : Type := {
  product_dimension : harp_dimension_type -> Z;
  product_variable : list harp_variable
}.

Definition num_variables (product : harp_product) : Z :=
  Z.of_nat (length (product_variable product)).

Record harp_dataset : Type := {
  num_products : Z;
  source_product : list string
}.

Record harp_collocation_result : Type := {
  num_pairs : Z;
  pair : list (Z * string * Z);
  dataset_b : harp_dataset
}.

(** A call of a function that returns 0 or -1 and may deliver a value:
    [None] is a non-zero return.  Every call threads the world. *)
Definition call (A : Type) : Type := world -> option A * world.

(** [if (c != 0) { on_failure; } else k] *)
Definition attempt {A B : Type} (c : call A) (w : world)
    (on_failure : world -> B) (k : A -> world -> B) : B :=
  match c w with
  | (None, w') => on_failure w'
  | (Some x, w') => k x w'
  end.

(** Modelled from the spec: the look-up of a variable by name in a product
    (harp-product.c, not among the sources at hand; specification, section 6).
    A failed look-up sets the error state. *)
Definition harp_product_has_variable (product : harp_product) (nm : string) : bool :=
  existsb (fun v => String.eqb (name v) nm) (product_variable product).

Definition harp_product_get_variable_by_name (product : harp_product) (nm : string)
  : call harp_variable :=
  fun w =>
    match List.find (fun v => String.eqb (name v) nm) (product_variable product) with
    | Some v => (Some v, w)
    | None => (None, harp_set_error w (HARP_ERROR_VARIABLE_NOT_FOUND nm))
    end.

(** A look-up whose return value the code ignores: the pointer keeps its old
    value when the look-up fails. *)
Definition lookup_into (old : option harp_variable) (product : harp_product) (nm : string)
    (w : world) : option harp_variable * world :=
  match harp_product_get_variable_by_name product nm w with
  | (Some v, w') => (Some v, w')
  | (None, w') => (old, w')
  end.

Definition MAX_NAME_LENGTH : nat := 128.

(** [snprintf(buffer, MAX_NAME_LENGTH, "%s<suffix>", base)] *)
Definition snprintf_name (base suffix : string) : string :=
  String.substring 0 (MAX_NAME_LENGTH - 1) (base ++ suffix).

(** [strstr(haystack, needle) != NULL] *)
Fixpoint strstr_found (haystack needle : string) : bool :=
  String.prefix needle haystack
  || match haystack with
     | EmptyString => false
     | String _ rest => strstr_found rest needle
     end.

(** [v->unit] of a pointer that the code does not check ([None] would be a
    NULL dereference in C). *)
Definition unit_of (v : option harp_variable) : string :=
  match v with Some v => unit_str v | None => EmptyString end.

(** Modelled from the spec: the collaborators (specification, section 6),
    none of them among the sources at hand.  A collaborator that may change a product, a variable or
    a collocation result returns the new value.  [HARP_NUM_DIM_TYPES] is the
    macro of harp.h that bounds the number of dimensions of a column; its
    value is not in the sources at hand, so it is a parameter like them. *)
Class Collaborators : Type := {
  HARP_NUM_DIM_TYPES : Z;
  harp_collocation_result_shallow_copy :
    harp_collocation_result -> call harp_collocation_result;
  harp_collocation_result_shallow_delete : harp_collocation_result -> world -> world;
  harp_collocation_result_filter_for_collocation_indices :
    harp_collocation_result -> Z -> address -> call harp_collocation_result;
  harp_collocation_result_get_filtered_product_b :
    harp_collocation_result -> string -> call (option harp_product);
  harp_product_is_empty : harp_product -> bool;
  harp_product_add_derived_variable :
    harp_product -> string -> harp_data_type -> string -> Z -> list harp_dimension_type ->
    call harp_product;
  harp_product_remove_variable : harp_product -> harp_variable -> call harp_product;
  harp_product_append : harp_product -> harp_product -> call harp_product;
  harp_product_delete : option harp_product -> world -> world;
  harp_product_filter_by_index : harp_product -> string -> Z -> address -> call harp_product;
  harp_product_regrid_with_axis_variable :
    harp_product -> option harp_variable -> option harp_variable -> call harp_product;
  harp_product_new : call harp_product;
  harp_product_get_derived_variable :
    harp_product -> string -> harp_data_type -> string -> Z -> list harp_dimension_type ->
    call harp_variable;
  harp_product_get_derived_bounds_for_grid : harp_product -> harp_variable -> call harp_variable;
  harp_product_add_variable : harp_product -> harp_variable -> call harp_product;
  harp_variable_new :
    string -> harp_data_type -> Z -> list harp_dimension_type -> list Z -> call harp_variable;
  harp_variable_set_unit : harp_variable -> string -> call harp_variable;
  harp_variable_delete : harp_variable -> world -> world
}.

Section Orchestrators.
Context `{Collaborators}.

(** What is left of an orchestrator's run when it returns -1 from inside the
    loop over the products of dataset B, or the loop's locals when it ends:
    [merged_product] and the dangling [variable] pointer. *)
Definition loop_outcome : Type :=
  world + (option harp_product * option harp_variable * world).

(** The three clean-up calls of every failure inside the loop. *)
Definition loop_failure (filtered : harp_collocation_result)
    (collocated_product merged_product : option harp_product) (w : world) : world :=
  harp_collocation_result_shallow_delete filtered
    (harp_product_delete merged_product (harp_product_delete collocated_product w)).

(** The loop [for (i = 0; i < dataset_b->num_products; i++)], whose header,
    call of [harp_collocation_result_get_filtered_product_b] and skip of a
    missing or empty product are the same text in both orchestrators;
    [derive_and_merge] is the rest of the body. *)
Definition dataset_iteration (filtered : harp_collocation_result)
    (derive_and_merge :
       option harp_product -> option harp_variable -> harp_product -> world -> loop_outcome)
    (merged_product : option harp_product) (variable : option harp_variable)
    (i : nat) (w : world) : loop_outcome :=
  attempt
    (harp_collocation_result_get_filtered_product_b filtered
       (default EmptyString (source_product (dataset_b filtered) !! i)))
    w
    (fun w =>
       inl (harp_collocation_result_shallow_delete filtered
              (harp_product_delete merged_product w)))
    (fun collocated_product w =>
       match collocated_product with
       | None => inr (merged_product, variable, w)
       | Some collocated_product =>
           if harp_product_is_empty collocated_product
           then inr (merged_product, variable, w)
           else derive_and_merge merged_product variable collocated_product w
       end).

Fixpoint dataset_loop (filtered : harp_collocation_result)
    (derive_and_merge :
       option harp_product -> option harp_variable -> harp_product -> world -> loop_outcome)
    (merged_product : option harp_product) (variable : option harp_variable)
    (i count : nat) (w : world) : loop_outcome :=
  match count with
  | O => inr (merged_product, variable, w)
  | S count' =>
      match dataset_iteration filtered derive_and_merge merged_product variable i w with
      | inl w' => inl w'
      | inr (merged_product', variable', w') =>
          dataset_loop filtered derive_and_merge merged_product' variable' (S i) count' w'
      end
  end.

(** The loop [for (j = collocated_product->num_variables - 1; j >= 0; j--)]
    that strips the collocated product, with [j + 1] as recursion argument. *)
Fixpoint strip_variables (keep : string -> bool) (j_plus_1 : nat)
    (collocated_product : harp_product) (w : world) : harp_product * bool * world :=
  match j_plus_1 with
  | O => (collocated_product, true, w)
  | S j =>
      match product_variable collocated_product !! j with
      | None => strip_variables keep j collocated_product w
      | Some v =>
          if keep (name v) then strip_variables keep j collocated_product w
          else
            match harp_product_remove_variable collocated_product v w with
            | (None, w') => (collocated_product, false, w')
            | (Some collocated_product', w') => strip_variables keep j collocated_product' w'
            end
      end
  end.

(** [if (merged_product == NULL) merged_product = collocated_product; else append]. *)
Definition merge_collocated (filtered : harp_collocation_result)
    (merged_product : option harp_product) (variable : option harp_variable)
    (collocated_product : harp_product) (w : world) : loop_outcome :=
  match merged_product with
  | None => inr (Some collocated_product, variable, w)
  | Some merged =>
      attempt (harp_product_append merged collocated_product) w
        (fun w => inl (loop_failure filtered (Some collocated_product) merged_product w))
        (fun merged w =>
           inr (Some merged, variable, harp_product_delete (Some collocated_product) w))
  end.

(** *** [harp_product_smooth_vertical_with_collocated_dataset] *)

(** The loop over [j] that derives the kernel, and if possible the a priori,
    of every variable to smooth. *)
Fixpoint derive_kernels (product : harp_product) (smooth_variables : list string)
    (js : list nat) (variable : option harp_variable) (collocated_product : harp_product)
    (w : world) : harp_product * option harp_variable * bool * world :=
  match js with
  | [] => (collocated_product, variable, true, w)
  | j :: js' =>
      let nm := default EmptyString (smooth_variables !! j) in
      let avk_name := snprintf_name nm "_avk" in
      let apriori_name := snprintf_name nm "_apriori" in
      let '(variable, w) := lookup_into variable product nm w in
      (* avk *)
      match harp_product_add_derived_variable collocated_product avk_name harp_type_double
              EmptyString 3
              [harp_dimension_time; harp_dimension_vertical; harp_dimension_vertical] w with
      | (None, w) => (collocated_product, variable, false, w)
      | (Some collocated_product, w) =>
          (* apriori profile: it is Ok if the apriori cannot be derived *)
          match harp_product_add_derived_variable collocated_product apriori_name
                  harp_type_double (unit_of variable) 2
                  [harp_dimension_time; harp_dimension_vertical] w with
          | (None, w) =>
              derive_kernels product smooth_variables js' variable collocated_product w
          | (Some collocated_product, w) =>
              derive_kernels product smooth_variables js' variable collocated_product w
          end
      end
  end.

Definition smooth_derive_and_merge (filtered : harp_collocation_result)
    (product : harp_product) (num_smooth_variables : Z) (smooth_variables : list string)
    (vertical_axis vertical_unit vertical_bounds_name : string)
    (merged_product : option harp_product) (variable : option harp_variable)
    (collocated_product : harp_product) (w : world) : loop_outcome :=
  (* vertical grid *)
  attempt
    (harp_product_add_derived_variable collocated_product vertical_axis harp_type_double
       vertical_unit 2 [harp_dimension_time; harp_dimension_vertical])
    w
    (fun w => inl (loop_failure filtered (Some collocated_product) merged_product w))
    (fun collocated_product w =>
  (* vertical grid bounds *)
  attempt
    (harp_product_add_derived_variable collocated_product vertical_bounds_name
       harp_type_double vertical_unit 3
       [harp_dimension_time; harp_dimension_vertical; harp_dimension_independent])
    w
    (fun w => inl (loop_failure filtered (Some collocated_product) merged_product w))
    (fun collocated_product w =>
  match derive_kernels product smooth_variables (seq 0 (Z.to_nat num_smooth_variables))
          variable collocated_product w with
  | (collocated_product, variable, false, w) =>
      inl (loop_failure filtered (Some collocated_product) merged_product w)
  | (collocated_product, variable, true, w) =>
      (* strip collocated product to the variables that we need *)
      match strip_variables
              (fun nm =>
                 String.eqb nm "collocation_index" || String.eqb nm vertical_axis
                 || String.eqb nm vertical_bounds_name || strstr_found nm "_avk"
                 || strstr_found nm "_apriori")
              (Z.to_nat (num_variables collocated_product)) collocated_product w with
      | (collocated_product, false, w) =>
          inl (loop_failure filtered (Some collocated_product) merged_product w)
      | (collocated_product, true, w) =>
          merge_collocated filtered merged_product variable collocated_product w
      end
  end)).

(** The final loop [for (i = 0; i < num_smooth_variables; i++)]: [None] when
    a smoothing fails. *)
Fixpoint smooth_variables_loop (product merged_product : harp_product)
    (smooth_variables : list string) (vertical_grid : option harp_variable)
    (js : list nat) (variable avk : option harp_variable) (w : world) : bool * world :=
  match js with
  | [] => (true, w)
  | i :: js' =>
      let nm := default EmptyString (smooth_variables !! i) in
      let avk_name := snprintf_name nm "_avk" in
      let apriori_name := snprintf_name nm "_apriori" in
      let '(variable, w) := lookup_into variable product nm w in
      let '(avk, w) := lookup_into avk merged_product avk_name w in
      let '(apriori, w) :=
        if harp_product_has_variable merged_product apriori_name
        then lookup_into None merged_product apriori_name w
        else (None, w) in
      let '(status, w) := harp_variable_smooth_vertical variable vertical_grid avk apriori w in
      if (status =? 0)%Z
      then smooth_variables_loop product merged_product smooth_variables vertical_grid
             js' variable avk w
      else (false, w)
  end.

Definition harp_product_smooth_vertical_with_collocated_dataset
    (product : harp_product) (num_smooth_variables : Z) (smooth_variables : list string)
    (vertical_axis vertical_unit : string) (collocation_result : harp_collocation_result)
    (w : world) : Z * harp_product * world :=
  if (product_dimension product harp_dimension_vertical =? 0)%Z
  then ((-1)%Z, product,
        harp_set_error w (HARP_ERROR_INVALID_ARGUMENT "product has no vertical dimension"))
  else
  (* raise warnings for any variables that were not present *)
  match List.find
          (fun i => negb (harp_product_has_variable product
                            (default EmptyString (smooth_variables !! i))))
          (seq 0 (Z.to_nat num_smooth_variables)) with
  | Some i =>
      ((-1)%Z, product,
       harp_set_error w
         (HARP_ERROR_INVALID_ARGUMENT
            ("product has no variable named '"
             ++ default EmptyString (smooth_variables !! i) ++ "'")))
  | None =>
  (* Get the source product's collocation index variable *)
  attempt (harp_product_get_variable_by_name product "collocation_index") w
    (fun w => ((-1)%Z, product, w))
    (fun collocation_index w =>
  (* copy the collocation result for filtering *)
  attempt (harp_collocation_result_shallow_copy collocation_result) w
    (fun w => ((-1)%Z, product, w))
    (fun filtered w =>
  (* Reduce the collocation result to only pairs that include the source product *)
  attempt
    (harp_collocation_result_filter_for_collocation_indices filtered
       (num_elements collocation_index) (data collocation_index))
    w
    (fun w => ((-1)%Z, product, harp_collocation_result_shallow_delete filtered w))
    (fun filtered w =>
  if negb (num_pairs filtered =? num_elements collocation_index)%Z
  then ((-1)%Z, product,
        harp_collocation_result_shallow_delete filtered
          (harp_set_error w
             (HARP_ERROR_INVALID_ARGUMENT "product and collocation result are inconsistent")))
  else
  let vertical_bounds_name := snprintf_name vertical_axis "_bounds" in
  match dataset_loop filtered
          (smooth_derive_and_merge filtered product num_smooth_variables smooth_variables
             vertical_axis vertical_unit vertical_bounds_name)
          None None 0 (Z.to_nat (num_products (dataset_b filtered))) w with
  | inl w => ((-1)%Z, product, w)
  | inr (None, _, w) =>
      ((-1)%Z, product,
       harp_set_error (harp_collocation_result_shallow_delete filtered w)
         (HARP_ERROR_INVALID_ARGUMENT
            "collocated dataset does not contain any matching pairs"))
  | inr (Some merged_product, variable, w) =>
  (* sort/filter the merged product so the samples are in the same order as in 'product' *)
  attempt
    (harp_product_filter_by_index merged_product "collocation_index"
       (num_elements collocation_index) (data collocation_index))
    w
    (fun w =>
       ((-1)%Z, product,
        harp_collocation_result_shallow_delete filtered
          (harp_product_delete (Some merged_product) w)))
    (fun merged_product w =>
  let '(vertical_grid, w) := lookup_into None merged_product vertical_axis w in
  let '(vertical_bounds, w) := lookup_into None merged_product vertical_bounds_name w in
  attempt (harp_product_regrid_with_axis_variable product vertical_grid vertical_bounds) w
    (fun w =>
       ((-1)%Z, product,
        harp_collocation_result_shallow_delete filtered
          (harp_product_delete (Some merged_product) w)))
    (fun product w =>
  match smooth_variables_loop product merged_product smooth_variables vertical_grid
          (seq 0 (Z.to_nat num_smooth_variables)) variable None w with
  | (false, w) =>
      ((-1)%Z, product,
       harp_collocation_result_shallow_delete filtered
         (harp_product_delete (Some merged_product) w))
  | (true, w) =>
      (* cleanup *)
      (0%Z, product,
       harp_collocation_result_shallow_delete filtered
         (harp_product_delete (Some merged_product) w))
  end))
  end)))
  end.

(** *** [harp_product_get_smoothed_column] (lines 1565-1750) *)

(** A pointer that the code dereferences without a check.  NULL there is
    undefined in C; the embedding reads a variable without dimensions. *)
Definition null_variable : harp_variable :=
  {| name := EmptyString; unit_str := EmptyString; data_type := harp_type_int8;
     num_dimensions := 0; dimension_type := []; dimension := []; num_elements := 0;
     data := 1%positive |}.

Definition deref (v : option harp_variable) : harp_variable := default null_variable v.

(** The checks before any collaborator is called: [Some e] for every
    [harp_set_error(e); return -1;]. *)
Definition smoothed_column_validate (product : harp_product)
    (vertical_grid column_avk : harp_variable) (apriori : option harp_variable)
  : option harp_error :=
  if (product_dimension product harp_dimension_vertical =? 0)%Z
  then Some (HARP_ERROR_INVALID_ARGUMENT "product has no vertical dimension")
  else if (num_dimensions vertical_grid <? 1)%Z
          || negb (dimension_type_is vertical_grid (num_dimensions vertical_grid - 1)
                     harp_dimension_vertical)
  then Some (HARP_ERROR_INVALID_ARGUMENT "vertical grid has invalid dimensions")
  else if negb (is_double vertical_grid)
  then Some (HARP_ERROR_INVALID_ARGUMENT "invalid data type for vertical grid")
  else if (num_dimensions column_avk <? 1)%Z
          || negb (dimension_type_is column_avk (num_dimensions column_avk - 1)
                     harp_dimension_vertical)
  then Some (HARP_ERROR_INVALID_ARGUMENT "column avk has invalid dimensions")
  else if negb (dimension_at column_avk (num_dimensions column_avk - 1)
                =? dimension_at vertical_grid (num_dimensions vertical_grid - 1))%Z
  then Some (HARP_ERROR_INVALID_ARGUMENT
               "column avk and vertical grid have inconsistent dimensions")
  else if negb (is_double column_avk)
  then Some (HARP_ERROR_INVALID_ARGUMENT "invalid data type for column avk")
  else
    match apriori with
    | None => None
    | Some apriori =>
        if negb (is_double apriori)
        then Some (HARP_ERROR_INVALID_ARGUMENT "invalid data type for apriori")
        else if negb (num_dimensions apriori =? num_dimensions column_avk)%Z
        then Some (HARP_ERROR_INVALID_ARGUMENT
                     "apriori profile and column avk have inconsistent dimensions")
        else if existsb
                  (fun i =>
                     negb (bool_decide (dimension_type apriori !! i
                                        = dimension_type column_avk !! i))
                     || negb (dimension_at apriori (Z.of_nat i)
                              =? dimension_at column_avk (Z.of_nat i))%Z)
                  (seq 0 (Z.to_nat (num_dimensions apriori)))
        then Some (HARP_ERROR_INVALID_ARGUMENT
                     "apriori profile and column avk have inconsistent dimensions")
        else None
    end.

(** The body of the loop over [i]: one element of the column. *)
Definition smoothed_column_element
    (partcol_variable column_avk : harp_variable) (apriori : option harp_variable)
    (column_variable : harp_variable) (num_vertical_elements : nat)
    (m : gmap address (list float)) (i : nat) : gmap address (list float) :=
  let column := data column_variable in
  let m := store m column i 0 in
  let '(m, is_valid) :=
    fold_left
      (fun (s : gmap address (list float) * bool) (j : nat) =>
         let idx := (i * num_vertical_elements + j)%nat in
         let s :=
           if negb (harp_isnan (load (fst s) (data partcol_variable) idx)) then
             (* multiply partial column profile with column averaging kernel *)
             let m1 :=
               store (fst s) column i
                 (load (fst s) column i
                  + load (fst s) (data partcol_variable) idx
                    * load (fst s) (data column_avk) idx)%float in
             (* subtract the apriori *)
             let m2 :=
               match apriori with
               | Some apriori =>
                   if negb (harp_isnan (load m1 (data apriori) idx))
                   then store m1 column i
                          (load m1 column i
                           - load m1 (data column_avk) idx * load m1 (data apriori) idx)%float
                   else m1
               | None => m1
               end in
             (m2, true)
           else s in
         (* add the apriori *)
         match apriori with
         | Some apriori =>
             if negb (harp_isnan (load (fst s) (data apriori) idx))
             then (store (fst s) column i
                     (load (fst s) column i + load (fst s) (data apriori) idx)%float,
                   true)
             else s
         | None => s
         end)
      (seq 0 num_vertical_elements) (m, false) in
  if is_valid then m else store m column i harp_nan.

Definition harp_product_get_smoothed_column (product : harp_product) (nm unit_name : string)
    (vertical_grid vertical_bounds column_avk apriori : option harp_variable)
  : call harp_variable :=
  fun w =>
  let grid := deref vertical_grid in
  let avk := deref column_avk in
  match smoothed_column_validate product grid avk apriori with
  | Some e => (None, harp_set_error w e)
  | None =>
  let num_vertical_elements := dimension_at grid (num_dimensions grid - 1) in
  attempt harp_product_new w (fun w => (None, w)) (fun regrid_product w =>
  (* retrieve partial column profile from source product *)
  attempt
    (harp_product_get_derived_variable product nm harp_type_double unit_name
       (num_dimensions avk) (dimension_type avk))
    w
    (fun w => (None, harp_product_delete (Some regrid_product) w))
    (fun partcol_variable w =>
  attempt (harp_product_add_variable regrid_product partcol_variable) w
    (fun w =>
       (None, harp_product_delete (Some regrid_product)
                (harp_variable_delete partcol_variable w)))
    (fun regrid_product w =>
  (* Add axis variables for the source grid to the temporary product *)
  attempt
    (fun w =>
       match harp_product_get_derived_variable product (name grid) (data_type grid)
               (unit_str grid) 1 [harp_dimension_vertical] w with
       | (Some source_grid, w) => (Some source_grid, w)
       | (None, w) =>
           (* Failed to derive time independent. Try time dependent. *)
           harp_product_get_derived_variable product (name grid) (data_type grid)
             (unit_str grid) 2 [harp_dimension_time; harp_dimension_vertical] w
       end)
    w
    (fun w => (None, harp_product_delete (Some regrid_product) w))
    (fun source_grid w =>
  attempt (harp_product_add_variable regrid_product source_grid) w
    (fun w =>
       (None, harp_product_delete (Some regrid_product) (harp_variable_delete source_grid w)))
    (fun regrid_product w =>
  attempt (harp_product_get_derived_bounds_for_grid product source_grid) w
    (fun w => (None, harp_product_delete (Some regrid_product) w))
    (fun source_bounds w =>
  attempt (harp_product_add_variable regrid_product source_bounds) w
    (fun w =>
       (None, harp_product_delete (Some regrid_product)
                (harp_variable_delete source_bounds w)))
    (fun regrid_product w =>
  attempt
    (harp_product_regrid_with_axis_variable regrid_product vertical_grid vertical_bounds) w
    (fun w => (None, harp_product_delete (Some regrid_product) w))
    (fun regrid_product w =>
  (* the pointer [partcol_variable] is to the variable that the regridded product now
     holds under that name *)
  let partcol_variable :=
    default partcol_variable
      (List.find (fun v => String.eqb (name v) (name partcol_variable))
         (product_variable regrid_product)) in
  attempt
    (harp_variable_new nm harp_type_double (num_dimensions avk - 1) (dimension_type avk)
       (dimension avk))
    w
    (fun w => (None, harp_product_delete (Some regrid_product) w))
    (fun column_variable w =>
  attempt (harp_variable_set_unit column_variable unit_name) w
    (fun w =>
       (None, harp_product_delete (Some regrid_product)
                (harp_variable_delete column_variable w)))
    (fun column_variable w =>
  let m :=
    fold_left
      (smoothed_column_element partcol_variable avk apriori column_variable
         (Z.to_nat num_vertical_elements))
      (seq 0 (Z.to_nat (num_elements column_variable))) (mem w) in
  (Some column_variable, harp_product_delete (Some regrid_product) (with_mem w m))))))))))))
  end.

(** *** [harp_product_get_smoothed_column_using_collocated_dataset] *)

Definition column_derive_and_merge (filtered : harp_collocation_result)
    (unit_name : string) (num_dimensions : Z) (dimension_type : list harp_dimension_type)
    (vertical_axis vertical_unit vertical_bounds_name column_avk_name apriori_name : string)
    (merged_product : option harp_product) (variable : option harp_variable)
    (collocated_product : harp_product) (w : world) : loop_outcome :=
  (* vertical grid *)
  attempt
    (harp_product_add_derived_variable collocated_product vertical_axis harp_type_double
       vertical_unit 2 [harp_dimension_time; harp_dimension_vertical])
    w
    (fun w => inl (loop_failure filtered (Some collocated_product) merged_product w))
    (fun collocated_product w =>
  (* vertical grid bounds *)
  attempt
    (harp_product_add_derived_variable collocated_product vertical_bounds_name
       harp_type_double vertical_unit 3
       [harp_dimension_time; harp_dimension_vertical; harp_dimension_independent])
    w
    (fun w => inl (loop_failure filtered (Some collocated_product) merged_product w))
    (fun collocated_product w =>
  let local_dimension_type :=
    take (Z.to_nat num_dimensions) dimension_type ++ [harp_dimension_vertical] in
  (* column avk *)
  attempt
    (harp_product_add_derived_variable collocated_product column_avk_name harp_type_double
       EmptyString (num_dimensions + 1) local_dimension_type)
    w
    (fun w => inl (loop_failure filtered (Some collocated_product) merged_product w))
    (fun collocated_product w =>
  (* apriori profile: it is Ok if the apriori cannot be derived *)
  let '(collocated_product, w) :=
    match harp_product_add_derived_variable collocated_product apriori_name harp_type_double
            unit_name (num_dimensions + 1) local_dimension_type w with
    | (None, w) => (collocated_product, w)
    | (Some collocated_product, w) => (collocated_product, w)
    end in
  (* strip collocated product to just the variables that we need *)
  match strip_variables
          (fun nm =>
             String.eqb nm "collocation_index" || String.eqb nm vertical_axis
             || String.eqb nm vertical_bounds_name || String.eqb nm column_avk_name
             || String.eqb nm apriori_name)
          (Z.to_nat (num_variables collocated_product)) collocated_product w with
  | (collocated_product, false, w) =>
      inl (loop_failure filtered (Some collocated_product) merged_product w)
  | (collocated_product, true, w) =>
      merge_collocated filtered merged_product variable collocated_product w
  end))).

(** The result: the return value, the source product, the variable stored
    through the [variable] pointer, and the world. *)
Definition harp_product_get_smoothed_column_using_collocated_dataset
    (product : harp_product) (nm unit_name : string) (num_dimensions : Z)
    (dimension_type : list harp_dimension_type) (vertical_axis vertical_unit : string)
    (collocation_result : harp_collocation_result) (w : world)
  : Z * harp_product * option harp_variable * world :=
  if (num_dimensions =? 0)%Z
     || negb (bool_decide (dimension_type !! 0%nat = Some harp_dimension_time))
  then ((-1)%Z, product, None,
        harp_set_error w
          (HARP_ERROR_INVALID_ARGUMENT
             "first dimension of requested smoothed vertical column should be the time dimension"))
  else if (HARP_NUM_DIM_TYPES <=? num_dimensions)%Z
  then ((-1)%Z, product, None,
        harp_set_error w (HARP_ERROR_INVALID_ARGUMENT "number of dimensions too large"))
  else if (product_dimension product harp_dimension_vertical =? 0)%Z
  then ((-1)%Z, product, None,
        harp_set_error w (HARP_ERROR_INVALID_ARGUMENT "product has no vertical dimension"))
  else
  (* Get the source product's collocation index variable *)
  attempt (harp_product_get_variable_by_name product "collocation_index") w
    (fun w => ((-1)%Z, product, None, w))
    (fun collocation_index w =>
  (* copy the collocation result for filtering *)
  attempt (harp_collocation_result_shallow_copy collocation_result) w
    (fun w => ((-1)%Z, product, None, w))
    (fun filtered w =>
  (* Reduce the collocation result to only pairs that include the source product *)
  attempt
    (harp_collocation_result_filter_for_collocation_indices filtered
       (num_elements collocation_index) (data collocation_index))
    w
    (fun w => ((-1)%Z, product, None, harp_collocation_result_shallow_delete filtered w))
    (fun filtered w =>
  if negb (num_pairs filtered =? num_elements collocation_index)%Z
  then ((-1)%Z, product, None,
        harp_collocation_result_shallow_delete filtered
          (harp_set_error w
             (HARP_ERROR_INVALID_ARGUMENT "product and collocation result are inconsistent")))
  else
  let vertical_bounds_name := snprintf_name vertical_axis "_bounds" in
  let column_avk_name := snprintf_name nm "_avk" in
  let apriori_name := snprintf_name nm "_apriori" in
  match dataset_loop filtered
          (column_derive_and_merge filtered unit_name num_dimensions dimension_type
             vertical_axis vertical_unit vertical_bounds_name column_avk_name apriori_name)
          None None 0 (Z.to_nat (num_products (dataset_b filtered))) w with
  | inl w => ((-1)%Z, product, None, w)
  | inr (None, _, w) =>
      ((-1)%Z, product, None,
       harp_set_error (harp_collocation_result_shallow_delete filtered w)
         (HARP_ERROR_INVALID_ARGUMENT
            "collocated dataset does not contain any matching pairs"))
  | inr (Some merged_product, _, w) =>
  (* sort/filter the merged product so the samples are in the same order as in 'product' *)
  attempt
    (harp_product_filter_by_index merged_product "collocation_index"
       (num_elements collocation_index) (data collocation_index))
    w
    (fun w =>
       ((-1)%Z, product, None,
        harp_collocation_result_shallow_delete filtered
          (harp_product_delete (Some merged_product) w)))
    (fun merged_product w =>
  let '(vertical_grid, w) := lookup_into None merged_product vertical_axis w in
  let '(vertical_bounds, w) := lookup_into None merged_product vertical_bounds_name w in
  let '(column_avk, w) := lookup_into None merged_product column_avk_name w in
  let '(apriori, w) :=
    if harp_product_has_variable merged_product apriori_name
    then lookup_into None merged_product apriori_name w
    else (None, w) in
  attempt
    (harp_product_get_smoothed_column product nm unit_name vertical_grid vertical_bounds
       column_avk apriori)
    w
    (fun w =>
       ((-1)%Z, product, None,
        harp_collocation_result_shallow_delete filtered
          (harp_product_delete (Some merged_product) w)))
    (fun column w =>
       (* cleanup *)
       (0%Z, product, Some column,
        harp_collocation_result_shallow_delete filtered
          (harp_product_delete (Some merged_product) w))))
  end))).

(** The buffers of the source product's variables are the same in two worlds. *)
Definition same_product_buffers (product : harp_product) (w w' : world) : Prop :=
  forall v, In v (product_variable product) ->
    mem w' !! data v = mem w !! data v
    /\ mem_int32 w' !! data v = mem_int32 w !! data v.

(** A product of dataset B that the loop skips: missing (NULL) or empty. *)
Definition skipped (collocated_product : option harp_product) : Prop :=
  match collocated_product with
  | None => True
  | Some collocated_product => harp_product_is_empty collocated_product = true
  end.

End Orchestrators.

(** *** The setting of C8, and a small instance *)

Section OrchestratorSettings.
Context `{Collaborators}.

(** The collaborators that run before the merged product is examined leave
    the buffers of the source product alone: they take the product as a
    [const] pointer or not at all. *)
Definition readers_preserve (product : harp_product) : Prop :=
  (forall cr w,
     same_product_buffers product w (snd (harp_collocation_result_shallow_copy cr w)))
  /\ (forall cr n a w,
        same_product_buffers product w
          (snd (harp_collocation_result_filter_for_collocation_indices cr n a w)))
  /\ (forall cr nm w,
        same_product_buffers product w
          (snd (harp_collocation_result_get_filtered_product_b cr nm w)))
  /\ (forall cr w,
        same_product_buffers product w (harp_collocation_result_shallow_delete cr w)).

(** Every product of dataset B is delivered missing or empty. *)
Definition every_product_b_skipped (filtered : harp_collocation_result) : Prop :=
  forall (i : nat) (w : world),
    (i < Z.to_nat (num_products (dataset_b filtered)))%nat ->
    exists collocated_product,
      fst (harp_collocation_result_get_filtered_product_b filtered
             (default EmptyString (source_product (dataset_b filtered) !! i)) w)
      = Some collocated_product
      /\ skipped collocated_product.

End OrchestratorSettings.

(** A product without variables, which the instance below reports as empty. *)
Definition empty_product : harp_product :=
  {| product_dimension := fun _ => 0%Z; product_variable := [] |}.

(** Collaborators of a dataset B in which the product "b2" is delivered but
    empty and every other product is missing. *)
Definition gappy_dataset_collaborators : Collaborators :=
  {| HARP_NUM_DIM_TYPES := 5;
     harp_collocation_result_shallow_copy := fun cr w => (Some cr, w);
     harp_collocation_result_shallow_delete := fun _ w => w;
     harp_collocation_result_filter_for_collocation_indices := fun cr _ _ w => (Some cr, w);
     harp_collocation_result_get_filtered_product_b :=
       fun _ source w =>
         (Some (if String.eqb source "b2" then Some empty_product else None), w);
     harp_product_is_empty := fun product => (num_variables product =? 0)%Z;
     harp_product_add_derived_variable := fun _ _ _ _ _ _ w => (None, w);
     harp_product_remove_variable := fun _ _ w => (None, w);
     harp_product_append := fun _ _ w => (None, w);
     harp_product_delete := fun _ w => w;
     harp_product_filter_by_index := fun _ _ _ _ w => (None, w);
     harp_product_regrid_with_axis_variable := fun _ _ _ w => (None, w);
     harp_product_new := fun w => (None, w);
     harp_product_get_derived_variable := fun _ _ _ _ _ _ w => (None, w);
     harp_product_get_derived_bounds_for_grid := fun _ _ w => (None, w);
     harp_product_add_variable := fun _ _ w => (None, w);
     harp_variable_new := fun _ _ _ _ _ w => (None, w);
     harp_variable_set_unit := fun _ _ w => (None, w);
     harp_variable_delete := fun _ w => w |}.

Definition example_collocation_index : harp_variable :=
  {| name := "collocation_index"; unit_str := ""; data_type := harp_type_int32;
     num_dimensions := 1; dimension_type := [harp_dimension_time];
     dimension := [1%Z]; num_elements := 1; data := 5%positive |}.

Definition example_product : harp_product :=
  {| product_dimension :=
       fun t => match t with
                | harp_dimension_time => 1%Z
                | harp_dimension_vertical => 2%Z
                | _ => 0%Z
                end;
     product_variable := [example_variable; example_collocation_index] |}.

Definition example_collocation_result : harp_collocation_result :=
  {| num_pairs := 1;
     pair := [(7%Z, "b1"%string, 0%Z)];
     dataset_b :=
       {| num_products := 3;
          source_product := ["b1"%string; "b2"%string; "b3"%string] |} |}.

(** ** Column averaging kernels (harp-vertical-profiles.c, lines 655-722)

    The output array is a list updated by index.  A write outside the array
    is undefined in C and does nothing here; the input kernel and the output
    kernel are two arrays. *)

Section ColumnKernels.
Local Open Scope float_scope.

Definition harp_profile_column_avk_from_partial_column_avk
    (num_levels : Z) (column_density_avk_2d column_density_avk_1d : list float)
  : list float :=
  let n := Z.to_nat num_levels in
  fold_left
    (fun column_density_avk_1d j =>
       let column_density_avk_1d :=
         <[j := column_density_avk_2d.[j]]> column_density_avk_1d in
       fold_left
         (fun column_density_avk_1d i =>
            <[j := column_density_avk_1d.[j] + column_density_avk_2d.[i * n + j]]>
              column_density_avk_1d)
         (seq 1 (n - 1)) column_density_avk_1d)
    (seq 0 n) column_density_avk_1d.

Definition harp_profile_tropospheric_column_avk_from_column_avk
    (num_levels : Z) (column_density_avk altitude_bounds : list float)
    (tropopause_altitude : float) (tropospheric_column_density_avk : list float)
  : list float :=
  fold_left
    (fun tropospheric_column_density_avk i =>
       if altitude_bounds.[2 * i] <? tropopause_altitude
       then <[i := column_density_avk.[i]]> tropospheric_column_density_avk
       else <[i := 0]> tropospheric_column_density_avk)
    (seq 0 (Z.to_nat num_levels)) tropospheric_column_density_avk.

Definition harp_profile_stratospheric_column_avk_from_column_avk
    (num_levels : Z) (column_density_avk altitude_bounds : list float)
    (tropopause_altitude : float) (stratospheric_column_density_avk : list float)
  : list float :=
  fold_left
    (fun stratospheric_column_density_avk i =>
       if altitude_bounds.[2 * i + 1] <=? tropopause_altitude
       then <[i := 0]> stratospheric_column_density_avk
       else <[i := column_density_avk.[i]]> stratospheric_column_density_avk)
    (seq 0 (Z.to_nat num_levels)) stratospheric_column_density_avk.

End ColumnKernels.

(** *** Closed forms of the two smoothing loops

    What the loops of [harp_product_get_smoothed_column] and of
    [harp_variable_smooth_vertical] leave in one cell, computed from the
    memory [m] they start from. *)

Section ClosedForms.
Local Open Scope float_scope.

(** One step of the loop over [j] of [harp_product_get_smoothed_column], on
    the accumulated column and the flag [is_valid]. *)
Definition smoothed_column_step
    (partcol_variable column_avk : harp_variable) (apriori : option harp_variable)
    (num_vertical_elements : nat) (m : gmap address (list float)) (i : nat)
    (s : float * bool) (j : nat) : float * bool :=
  let idx := (i * num_vertical_elements + j)%nat in
  let s :=
    if negb (harp_isnan (load m (data partcol_variable) idx)) then
      let column := fst s + load m (data partcol_variable) idx * load m (data column_avk) idx in
      (match apriori with
       | Some apriori =>
           if negb (harp_isnan (load m (data apriori) idx))
           then column - load m (data column_avk) idx * load m (data apriori) idx
           else column
       | None => column
       end, true)
    else s in
  match apriori with
  | Some apriori =>
      if negb (harp_isnan (load m (data apriori) idx))
      then (fst s + load m (data apriori) idx, true)
      else s
  | None => s
  end.

Definition smoothed_column_value
    (partcol_variable column_avk : harp_variable) (apriori : option harp_variable)
    (num_vertical_elements : nat) (m : gmap address (list float)) (i : nat) : float :=
  let '(column, is_valid) :=
    fold_left (smoothed_column_step partcol_variable column_avk apriori
                 num_vertical_elements m i)
      (seq 0 num_vertical_elements) (0, false) in
  if is_valid then column else harp_nan.

(** [vector[i]] of block [l] of time row [k]. *)
Definition subtracted_profile (variable : harp_variable) (apriori : option harp_variable)
    (m : gmap address (list float)) (max_vertical_elements num_blocks k l i : nat) : float :=
  let cell := ((k * num_blocks + l) * max_vertical_elements + i)%nat in
  match apriori with
  | None => load m (data variable) cell
  | Some apriori =>
      load m (data variable) cell - load m (data apriori) (k * max_vertical_elements + i)
  end.

(** The smoothed value of level [i] of that block: row [i] of the kernel
    applied to the levels that are not NaN, plus the a priori. *)
Definition smoothed_value (variable averaging_kernel : harp_variable)
    (apriori : option harp_variable) (m : gmap address (list float))
    (max_vertical_elements num_blocks num_vertical_elements k l i : nat) : float :=
  let vector := subtracted_profile variable apriori m max_vertical_elements num_blocks k l in
  let sum :=
    fold_left
      (fun acc j =>
         if negb (harp_isnan (vector j))
         then acc + load m (data averaging_kernel)
                      ((k * max_vertical_elements + i) * max_vertical_elements + j)
                    * vector j
         else acc)
      (seq 0 num_vertical_elements) 0 in
  let num_valid :=
    fold_left (fun n j => if negb (harp_isnan (vector j)) then (n + 1)%Z else n)
      (seq 0 num_vertical_elements) 0%Z in
  match apriori with
  | Some apriori => sum + load m (data apriori) (k * max_vertical_elements + i)
  | None => if (num_valid =? 0)%Z then harp_nan else sum
  end.

(** What [harp_variable_smooth_vertical] leaves at level [i] of block [l] of
    time row [k]. *)
Definition smoothed_cell (variable : harp_variable) (vertical_axis : option harp_variable)
    (averaging_kernel : harp_variable) (apriori : option harp_variable)
    (m : gmap address (list float)) (max_vertical_elements num_blocks : Z) (k l i : nat)
  : float :=
  let mve := Z.to_nat max_vertical_elements in
  let nb := Z.to_nat num_blocks in
  let nve := Z.to_nat (row_num_vertical_elements vertical_axis m max_vertical_elements k) in
  if (i <? nve)%nat && negb (harp_isnan (subtracted_profile variable apriori m mve nb k l i))
  then smoothed_value variable averaging_kernel apriori m mve nb nve k l i
  else load m (data variable) ((k * nb + l) * mve + i).

End ClosedForms.

(** *** The setting of the stripping loop

    Within a product the names of the variables are distinct, and
    [harp_product_remove_variable] takes the one variable out of the list and
    leaves the others in their order (harp-product.c, not among the sources
    at hand). *)

Section StrippingSettings.
Context `{Collaborators}.

Definition distinct_names (product : harp_product) : Prop :=
  NoDup (name <$> product_variable product).

Definition removal_takes_one_out : Prop :=
  forall (product : harp_product) (v : harp_variable) (w : world),
    distinct_names product -> v ∈ product_variable product ->
    exists product' w' before after,
      harp_product_remove_variable product v w = (Some product', w')
      /\ product_variable product = before ++ v :: after
      /\ product_variable product' = before ++ after.

End StrippingSettings.

(** Collaborators whose [harp_product_remove_variable] drops the variable of
    that name; the others deliver nothing. *)
Definition stripping_collaborators : Collaborators :=
  {| HARP_NUM_DIM_TYPES := 5;
     harp_collocation_result_shallow_copy := fun cr w => (Some cr, w);
     harp_collocation_result_shallow_delete := fun _ w => w;
     harp_collocation_result_filter_for_collocation_indices := fun cr _ _ w => (Some cr, w);
     harp_collocation_result_get_filtered_product_b := fun _ _ w => (Some None, w);
     harp_product_is_empty := fun _ => true;
     harp_product_add_derived_variable := fun _ _ _ _ _ _ w => (None, w);
     harp_product_remove_variable :=
       fun product v w =>
         (Some {| product_dimension := product_dimension product;
                  product_variable :=
                    List.filter (fun x => negb (String.eqb (name x) (name v)))
                      (product_variable product) |}, w);
     harp_product_append := fun _ _ w => (None, w);
     harp_product_delete := fun _ w => w;
     harp_product_filter_by_index := fun _ _ _ _ w => (None, w);
     harp_product_regrid_with_axis_variable := fun _ _ _ w => (None, w);
     harp_product_new := fun w => (None, w);
     harp_product_get_derived_variable := fun _ _ _ _ _ _ w => (None, w);
     harp_product_get_derived_bounds_for_grid := fun _ _ w => (None, w);
     harp_product_add_variable := fun _ _ w => (None, w);
     harp_variable_new := fun _ _ _ _ _ w => (None, w);
     harp_variable_set_unit := fun _ _ w => (None, w);
     harp_variable_delete := fun _ w => w |}.

(** ** The orchestrators over one collocated product
       (harp-vertical-profiles.c, lines 1134-1304 and 1768-1928)

    A NULL unit is passed to a collaborator as the empty string. *)

Section ProductOrchestrators.
Context `{Collaborators}.

(** The pair of calls that derives a variable from the collocated product
    and hands it to the temporary product: [None] when either fails, the
    clean-up done. *)
Definition derive_into (collocated_product temp_product : harp_product) (nm : string)
    (data_type : harp_data_type) (unit_name : string) (num_dimensions : Z)
    (dimension_type : list harp_dimension_type) : call harp_product :=
  fun w =>
    attempt
      (harp_product_get_derived_variable collocated_product nm data_type unit_name
         num_dimensions dimension_type)
      w
      (fun w => (None, harp_product_delete (Some temp_product) w))
      (fun temp_variable w =>
         attempt (harp_product_add_variable temp_product temp_variable) w
           (fun w =>
              (None, harp_product_delete (Some temp_product)
                       (harp_variable_delete temp_variable w)))
           (fun temp_product w => (Some temp_product, w))).

(** The same for a variable that may be missing: only a failure to add it is
    a failure. *)
Definition derive_into_if_possible (collocated_product temp_product : harp_product)
    (nm : string) (data_type : harp_data_type) (unit_name : string) (num_dimensions : Z)
    (dimension_type : list harp_dimension_type) : call harp_product :=
  fun w =>
    match harp_product_get_derived_variable collocated_product nm data_type unit_name
            num_dimensions dimension_type w with
    | (None, w) => (Some temp_product, w)
    | (Some temp_variable, w) =>
        attempt (harp_product_add_variable temp_product temp_variable) w
          (fun w =>
             (None, harp_product_delete (Some temp_product)
                      (harp_variable_delete temp_variable w)))
          (fun temp_product w => (Some temp_product, w))
    end.

(** The loop over [i] that derives the kernel, and if possible the a priori,
    of every variable to smooth. *)
Fixpoint derive_kernels_into (product collocated_product : harp_product)
    (smooth_variables : list string) (js : list nat) (variable : option harp_variable)
    (temp_product : harp_product) (w : world)
  : option (harp_product * option harp_variable) * world :=
  match js with
  | [] => (Some (temp_product, variable), w)
  | i :: js' =>
      let nm := default EmptyString (smooth_variables !! i) in
      let avk_name := snprintf_name nm "_avk" in
      let apriori_name := snprintf_name nm "_apriori" in
      let '(variable, w) := lookup_into variable product nm w in
      (* avk *)
      attempt
        (derive_into collocated_product temp_product avk_name harp_type_double EmptyString 3
           [harp_dimension_time; harp_dimension_vertical; harp_dimension_vertical])
        w
        (fun w => (None, w))
        (fun temp_product w =>
      (* apriori profile *)
      attempt
        (derive_into_if_possible collocated_product temp_product apriori_name harp_type_double
           (unit_of variable) 2 [harp_dimension_time; harp_dimension_vertical])
        w
        (fun w => (None, w))
        (fun temp_product w =>
           derive_kernels_into product collocated_product smooth_variables js' variable
             temp_product w))
  end.

Definition harp_product_smooth_vertical_with_collocated_product
    (product : harp_product) (num_smooth_variables : Z) (smooth_variables : list string)
    (vertical_axis vertical_unit : string) (collocated_product : harp_product) (w : world)
  : Z * harp_product * world :=
  if (product_dimension product harp_dimension_vertical =? 0)%Z
  then ((-1)%Z, product,
        harp_set_error w (HARP_ERROR_INVALID_ARGUMENT "product has no vertical dimension"))
  else
  (* raise warnings for any variables that were not present *)
  match List.find
          (fun i => negb (harp_product_has_variable product
                            (default EmptyString (smooth_variables !! i))))
          (seq 0 (Z.to_nat num_smooth_variables)) with
  | Some i =>
      ((-1)%Z, product,
       harp_set_error w
         (HARP_ERROR_INVALID_ARGUMENT
            ("product has no variable named '"
             ++ default EmptyString (smooth_variables !! i) ++ "'")))
  | None =>
  let vertical_bounds_name := snprintf_name vertical_axis "_bounds" in
  attempt harp_product_new w (fun w => ((-1)%Z, product, w)) (fun temp_product w =>
  attempt
    (derive_into collocated_product temp_product "collocation_index" harp_type_int32
       EmptyString 1 [harp_dimension_time])
    w (fun w => ((-1)%Z, product, w)) (fun temp_product w =>
  (* vertical grid *)
  attempt
    (derive_into collocated_product temp_product vertical_axis harp_type_double vertical_unit
       2 [harp_dimension_time; harp_dimension_vertical])
    w (fun w => ((-1)%Z, product, w)) (fun temp_product w =>
  (* vertical grid bounds *)
  attempt
    (derive_into collocated_product temp_product vertical_bounds_name harp_type_double
       vertical_unit 3
       [harp_dimension_time; harp_dimension_vertical; harp_dimension_independent])
    w (fun w => ((-1)%Z, product, w)) (fun temp_product w =>
  attempt
    (derive_kernels_into product collocated_product smooth_variables
       (seq 0 (Z.to_nat num_smooth_variables)) None temp_product)
    w (fun w => ((-1)%Z, product, w)) (fun '(temp_product, variable) w =>
  (* Get the source product's collocation index variable *)
  attempt (harp_product_get_variable_by_name product "collocation_index") w
    (fun w => ((-1)%Z, product, w))
    (fun collocation_index w =>
  (* sort/filter the reduced collocated product so the samples are in the same order as
     in 'product' *)
  attempt
    (harp_product_filter_by_index temp_product "collocation_index"
       (num_elements collocation_index) (data collocation_index))
    w
    (fun w => ((-1)%Z, product, harp_product_delete (Some temp_product) w))
    (fun temp_product w =>
  let '(vertical_grid, w) := lookup_into None temp_product vertical_axis w in
  let '(vertical_bounds, w) := lookup_into None temp_product vertical_bounds_name w in
  attempt (harp_product_regrid_with_axis_variable product vertical_grid vertical_bounds) w
    (fun w => ((-1)%Z, product, harp_product_delete (Some temp_product) w))
    (fun product w =>
  match smooth_variables_loop product temp_product smooth_variables vertical_grid
          (seq 0 (Z.to_nat num_smooth_variables)) variable None w with
  | (false, w) => ((-1)%Z, product, harp_product_delete (Some temp_product) w)
  | (true, w) => (0%Z, product, harp_product_delete (Some temp_product) w)
  end))))))))
  end.

(** The result: the return value, the variable stored through the [variable]
    pointer, and the world. *)
Definition harp_product_get_smoothed_column_using_collocated_product
    (product : harp_product) (nm unit_name : string) (num_dimensions : Z)
    (dimension_type : list harp_dimension_type) (vertical_axis vertical_unit : string)
    (collocated_product : harp_product) (w : world)
  : Z * option harp_variable * world :=
  if (num_dimensions =? 0)%Z
     || negb (bool_decide (dimension_type !! 0%nat = Some harp_dimension_time))
  then ((-1)%Z, None,
        harp_set_error w
          (HARP_ERROR_INVALID_ARGUMENT
             "first dimension of requested smoothed vertical column should be the time dimension"))
  else if (HARP_NUM_DIM_TYPES <=? num_dimensions)%Z
  then ((-1)%Z, None,
        harp_set_error w (HARP_ERROR_INVALID_ARGUMENT "number of dimensions too large"))
  else if (product_dimension product harp_dimension_vertical =? 0)%Z
  then ((-1)%Z, None,
        harp_set_error w (HARP_ERROR_INVALID_ARGUMENT "product has no vertical dimension"))
  else
  let vertical_bounds_name := snprintf_name vertical_axis "_bounds" in
  let column_avk_name := snprintf_name nm "_avk" in
  let apriori_name := snprintf_name nm "_apriori" in
  attempt harp_product_new w (fun w => ((-1)%Z, None, w)) (fun temp_product w =>
  attempt
    (derive_into collocated_product temp_product "collocation_index" harp_type_int32
       EmptyString 1 [harp_dimension_time])
    w (fun w => ((-1)%Z, None, w)) (fun temp_product w =>
  (* vertical grid *)
  attempt
    (derive_into collocated_product temp_product vertical_axis harp_type_double vertical_unit
       2 [harp_dimension_time; harp_dimension_vertical])
    w (fun w => ((-1)%Z, None, w)) (fun temp_product w =>
  (* vertical grid bounds *)
  attempt
    (derive_into collocated_product temp_product vertical_bounds_name harp_type_double
       vertical_unit 3
       [harp_dimension_time; harp_dimension_vertical; harp_dimension_independent])
    w (fun w => ((-1)%Z, None, w)) (fun temp_product w =>
  let local_dimension_type :=
    take (Z.to_nat num_dimensions) dimension_type ++ [harp_dimension_vertical] in
  (* column avk *)
  attempt
    (derive_into collocated_product temp_product column_avk_name harp_type_double EmptyString
       (num_dimensions + 1) local_dimension_type)
    w (fun w => ((-1)%Z, None, w)) (fun temp_product w =>
  (* apriori profile *)
  attempt
    (derive_into_if_possible collocated_product temp_product apriori_name harp_type_double
       unit_name (num_dimensions + 1) local_dimension_type)
    w (fun w => ((-1)%Z, None, w)) (fun temp_product w =>
  (* Get the source product's collocation index variable *)
  attempt (harp_product_get_variable_by_name product "collocation_index") w
    (fun w => ((-1)%Z, None, w))
    (fun collocation_index w =>
  (* sort/filter the reduced collocated product so the samples are in the same order as
     in 'product' *)
  attempt
    (harp_product_filter_by_index temp_product "collocation_index"
       (num_elements collocation_index) (data collocation_index))
    w
    (fun w => ((-1)%Z, None, harp_product_delete (Some temp_product) w))
    (fun temp_product w =>
  let '(vertical_grid, w) := lookup_into None temp_product vertical_axis w in
  let '(vertical_bounds, w) := lookup_into None temp_product vertical_bounds_name w in
  let '(column_avk, w) := lookup_into None temp_product column_avk_name w in
  let '(apriori, w) :=
    if harp_product_has_variable temp_product apriori_name
    then lookup_into None temp_product apriori_name w
    else (None, w) in
  attempt
    (harp_product_get_smoothed_column product nm unit_name vertical_grid vertical_bounds
       column_avk apriori)
    w
    (fun w => ((-1)%Z, None, harp_product_delete (Some temp_product) w))
    (fun column w => (0%Z, Some column, harp_product_delete (Some temp_product) w)))))))))).

(** *** Counting the products that are alive

    [live] counts the products that [harp_product_new] made and
    [harp_product_delete] has not yet taken back; no other call makes or
    frees a product. *)
Definition counts_products (live : world -> Z) : Prop :=
  (forall w e, live (harp_set_error w e) = live w)
  /\ (forall w m, live (with_mem w m) = live w)
  /\ (forall w, live (snd (harp_product_new w))
                = match fst (harp_product_new w) with
                  | Some _ => (live w + 1)%Z
                  | None => live w
                  end)
  /\ (forall product w, live (harp_product_delete (Some product) w) = (live w - 1)%Z)
  /\ (forall product nm data_type unit_name num_dimensions dimension_type w,
        live (snd (harp_product_get_derived_variable product nm data_type unit_name
                     num_dimensions dimension_type w)) = live w)
  /\ (forall product v w, live (snd (harp_product_get_derived_bounds_for_grid product v w))
                          = live w)
  /\ (forall product v w, live (snd (harp_product_add_variable product v w)) = live w)
  /\ (forall v w, live (harp_variable_delete v w) = live w)
  /\ (forall product nm n a w, live (snd (harp_product_filter_by_index product nm n a w))
                               = live w)
  /\ (forall product grid bounds w,
        live (snd (harp_product_regrid_with_axis_variable product grid bounds w)) = live w)
  /\ (forall nm data_type num_dimensions dimension_type dimension w,
        live (snd (harp_variable_new nm data_type num_dimensions dimension_type dimension w))
        = live w)
  /\ (forall v unit_name w, live (snd (harp_variable_set_unit v unit_name w)) = live w).

End ProductOrchestrators.

(** Collaborators that count the live products in the 32-bit buffer at
    address 9 and deliver a temporary product with the variables asked for. *)
Definition live_products (w : world) : Z :=
  default 0%Z (default [] (mem_int32 w !! 9%positive) !! 0%nat).

Definition with_live_products (w : world) (n : Z) : world :=
  {| mem := mem w; mem_int32 := <[9%positive := [n]]> (mem_int32 w);
     harp_errno := harp_errno w; malloc_ok := malloc_ok w |}.

Definition counting_collaborators : Collaborators :=
  {| HARP_NUM_DIM_TYPES := 5;
     harp_collocation_result_shallow_copy := fun cr w => (Some cr, w);
     harp_collocation_result_shallow_delete := fun _ w => w;
     harp_collocation_result_filter_for_collocation_indices := fun cr _ _ w => (Some cr, w);
     harp_collocation_result_get_filtered_product_b := fun _ _ w => (Some None, w);
     harp_product_is_empty := fun _ => true;
     harp_product_add_derived_variable := fun _ _ _ _ _ _ w => (None, w);
     harp_product_remove_variable := fun _ _ w => (None, w);
     harp_product_append := fun _ _ w => (None, w);
     harp_product_delete :=
       fun product w =>
         match product with
         | Some _ => with_live_products w (live_products w - 1)
         | None => w
         end;
     harp_product_filter_by_index := fun product _ _ _ w => (Some product, w);
     harp_product_regrid_with_axis_variable := fun product _ _ w => (Some product, w);
     harp_product_new :=
       fun w =>
         (Some {| product_dimension := fun _ => 0%Z; product_variable := [] |},
          with_live_products w (live_products w + 1));
     harp_product_get_derived_variable :=
       fun _ nm data_type unit_name num_dimensions dimension_type w =>
         (Some {| name := nm; unit_str := unit_name; data_type := data_type;
                  num_dimensions := num_dimensions; dimension_type := dimension_type;
                  dimension := []; num_elements := 0; data := 8%positive |}, w);
     harp_product_get_derived_bounds_for_grid := fun _ v w => (Some v, w);
     harp_product_add_variable :=
       fun product v w =>
         (Some {| product_dimension := product_dimension product;
                  product_variable := product_variable product ++ [v] |}, w);
     harp_variable_new := fun _ _ _ _ _ w => (None, w);
     harp_variable_set_unit := fun v _ w => (Some v, w);
     harp_variable_delete := fun _ w => w |}.

(** A source product without the variable [collocation_index]. *)
Definition example_product_without_index : harp_product :=
  {| product_dimension :=
       fun t => match t with
                | harp_dimension_time => 1%Z
                | harp_dimension_vertical => 2%Z
                | _ => 0%Z
                end;
     product_variable := [example_variable] |}.

(** Making a product, deriving a variable and adding it to a product never
    fail. *)
Definition derivations_succeed `{Collaborators} : Prop :=
  (forall w, fst (harp_product_new w) <> None)
  /\ (forall product nm data_type unit_name num_dimensions dimension_type w,
        fst (harp_product_get_derived_variable product nm data_type unit_name
               num_dimensions dimension_type w) <> None)
  /\ (forall product v w, fst (harp_product_add_variable product v w) <> None).

(** ** Conversions of averaging kernels (harp-vertical-profiles.c, lines 732-893)

    Each conversion makes two passes over the output kernel, a list updated
    by index; the input kernel is another array, and a write outside the
    output array, undefined in C, does nothing here.  [fabs] is [abs]. *)

Section KernelConversions.
Local Open Scope float_scope.

(** [EPSILON] of harp-internal.h, as for the tropopause locator. *)
Variable EPSILON : float.

Definition harp_density_avk_from_partial_column_avk_and_altitude_bounds
    (num_levels : Z) (partial_column_avk altitude_bounds density_avk : list float)
  : list float :=
  let n := Z.to_nat num_levels in
  let density_avk :=
    fold_left
      (fun density_avk i =>
         let height := abs (altitude_bounds.[i * 2 + 1] - altitude_bounds.[i * 2]) in
         if height <? EPSILON
         then fold_left (fun density_avk j => <[(i * n + j)%nat := 0]> density_avk)
                (seq 0 n) density_avk
         else fold_left
                (fun density_avk j =>
                   <[(i * n + j)%nat := partial_column_avk.[i * n + j] / height]> density_avk)
                (seq 0 n) density_avk)
      (seq 0 n) density_avk in
  fold_left
    (fun density_avk j =>
       let height := abs (altitude_bounds.[j * 2 + 1] - altitude_bounds.[j * 2]) in
       fold_left
         (fun density_avk i => <[(i * n + j)%nat := density_avk.[i * n + j] * height]> density_avk)
         (seq 0 n) density_avk)
    (seq 0 n) density_avk.

Definition harp_partial_column_avk_from_density_avk_and_altitude_bounds
    (num_levels : Z) (density_avk altitude_bounds partial_column_avk : list float)
  : list float :=
  let n := Z.to_nat num_levels in
  let partial_column_avk :=
    fold_left
      (fun partial_column_avk i =>
         let height := abs (altitude_bounds.[i * 2 + 1] - altitude_bounds.[i * 2]) in
         fold_left
           (fun partial_column_avk j =>
              <[(i * n + j)%nat := density_avk.[i * n + j] * height]> partial_column_avk)
           (seq 0 n) partial_column_avk)
      (seq 0 n) partial_column_avk in
  fold_left
    (fun partial_column_avk j =>
       let height := abs (altitude_bounds.[j * 2 + 1] - altitude_bounds.[j * 2]) in
       if height <? EPSILON
       then fold_left (fun partial_column_avk i => <[(i * n + j)%nat := 0]> partial_column_avk)
              (seq 0 n) partial_column_avk
       else fold_left
              (fun partial_column_avk i =>
                 <[(i * n + j)%nat := partial_column_avk.[i * n + j] / height]> partial_column_avk)
              (seq 0 n) partial_column_avk)
    (seq 0 n) partial_column_avk.

Definition harp_number_density_avk_from_volume_mixing_ratio_avk
    (num_levels : Z) (volume_mixing_ratio_avk number_density_air number_density_avk : list float)
  : list float :=
  let n := Z.to_nat num_levels in
  let number_density_avk :=
    fold_left
      (fun number_density_avk i =>
         let number_density := number_density_air.[i] in
         fold_left
           (fun number_density_avk j =>
              <[(i * n + j)%nat := volume_mixing_ratio_avk.[i * n + j] * number_density]>
                number_density_avk)
           (seq 0 n) number_density_avk)
      (seq 0 n) number_density_avk in
  fold_left
    (fun number_density_avk j =>
       let number_density := number_density_air.[j] in
       if abs number_density <? EPSILON
       then fold_left (fun number_density_avk i => <[(i * n + j)%nat := 0]> number_density_avk)
              (seq 0 n) number_density_avk
       else fold_left
              (fun number_density_avk i =>
                 <[(i * n + j)%nat := number_density_avk.[i * n + j] / number_density]>
                   number_density_avk)
              (seq 0 n) number_density_avk)
    (seq 0 n) number_density_avk.

Definition harp_volume_mixing_ratio_avk_from_number_density_avk
    (num_levels : Z) (number_density_avk number_density_air volume_mixing_ratio_avk : list float)
  : list float :=
  let n := Z.to_nat num_levels in
  let volume_mixing_ratio_avk :=
    fold_left
      (fun volume_mixing_ratio_avk i =>
         let number_density := number_density_air.[i] in
         if abs number_density <? EPSILON
         then fold_left
                (fun volume_mixing_ratio_avk j => <[(i * n + j)%nat := 0]> volume_mixing_ratio_avk)
                (seq 0 n) volume_mixing_ratio_avk
         else fold_left
                (fun volume_mixing_ratio_avk j =>
                   <[(i * n + j)%nat := number_density_avk.[i * n + j] / number_density]>
                     volume_mixing_ratio_avk)
                (seq 0 n) volume_mixing_ratio_avk)
      (seq 0 n) volume_mixing_ratio_avk in
  fold_left
    (fun volume_mixing_ratio_avk j =>
       let number_density := number_density_air.[j] in
       fold_left
         (fun volume_mixing_ratio_avk i =>
            <[(i * n + j)%nat := volume_mixing_ratio_avk.[i * n + j] * number_density]>
              volume_mixing_ratio_avk)
         (seq 0 n) volume_mixing_ratio_avk)
    (seq 0 n) volume_mixing_ratio_avk.

End KernelConversions.

(* ================================================================== *)
(** * Part II: properties                                              *)
(* ================================================================== *)

(** ** Facts about binary64 arithmetic, from the kernel's specification *)

Module Binary64.

Lemma SFeqb_refl_nan x : SFeqb x x = false -> x = S754_nan.
Proof.
  destruct x as [s|s| |s m e]; cbn; try destruct s; try discriminate; auto;
    rewrite ?Z.compare_refl, ?Pos.compare_cont_refl; cbn; discriminate.
Qed.

Lemma is_nan_spec x : is_nan x = true <-> Prim2SF x = S754_nan.
Proof.
  unfold is_nan. rewrite FloatAxioms.eqb_spec. split.
  - intros H. apply SFeqb_refl_nan. now apply negb_true_iff.
  - intros ->. reflexivity.
Qed.

Lemma is_nan_false x : is_nan x = false <-> Prim2SF x <> S754_nan.
Proof.
  rewrite <- is_nan_spec. destruct (is_nan x); split; congruence.
Qed.

Lemma nan_unique x : is_nan x = true -> x = nan.
Proof. intros H%is_nan_spec. apply Prim2SF_inj. now rewrite H. Qed.

Lemma SFcompare_antisym x y :
  SFcompare y x = option_map CompOpp (SFcompare x y).
Proof.
  destruct x as [sx|sx| |sx mx ex], y as [sy|sy| |sy my ey]; cbn;
    try destruct sx; try destruct sy; cbn; try reflexivity;
    rewrite (Z.compare_antisym ex ey);
    destruct (ex ?= ey)%Z; cbn; try reflexivity;
    rewrite (Pos.compare_cont_antisym mx my Eq); cbn; reflexivity.
Qed.

(** [a < b] excludes [b <= a], and [a <= b] excludes [b < a]. *)
Lemma ltb_leb_false a b : (a <? b)%float = true -> (b <=? a)%float = false.
Proof.
  rewrite ltb_spec, leb_spec. unfold SFltb, SFleb.
  rewrite (SFcompare_antisym (Prim2SF a) (Prim2SF b)).
  destruct (SFcompare (Prim2SF a) (Prim2SF b)) as [[]|]; cbn; congruence.
Qed.

Lemma leb_ltb_false a b : (a <=? b)%float = true -> (b <? a)%float = false.
Proof.
  rewrite ltb_spec, leb_spec. unfold SFltb, SFleb.
  rewrite (SFcompare_antisym (Prim2SF a) (Prim2SF b)).
  destruct (SFcompare (Prim2SF a) (Prim2SF b)) as [[]|]; cbn; congruence.
Qed.

Lemma is_finite_double_spec x :
  is_finite_double x = true <-> finite_sf (Prim2SF x).
Proof.
  unfold is_finite_double, is_infinity, is_nan.
  rewrite !FloatAxioms.eqb_spec, abs_spec.
  change (Prim2SF infinity) with (S754_infinity false).
  destruct (Prim2SF x) as [s|s| |s m e]; cbn; try destruct s; cbn;
    rewrite ?Z.compare_refl, ?Pos.compare_cont_refl; cbn; intuition congruence.
Qed.

(** *** Rounding never invents a NaN *)

Lemma iter_pos_inv {A} (P : A -> Prop) (f : A -> A) :
  (forall x, P x -> P (f x)) -> forall n x, P x -> P (SpecFloat.iter_pos f n x).
Proof.
  intros Hf. induction n as [n IH|n IH|]; intros x Hx; cbn; auto.
Qed.

Lemma shr_1_nonneg mrs : (0 <= shr_m mrs)%Z -> (0 <= shr_m (shr_1 mrs))%Z.
Proof.
  destruct mrs as [m r s]; cbn. destruct m as [|[p|p|]|[p|p|]]; cbn; lia.
Qed.

Lemma shr_nonneg mrs e n : (0 <= shr_m mrs)%Z -> (0 <= shr_m (fst (shr mrs e n)))%Z.
Proof.
  intros H. destruct n; cbn; auto.
  apply (iter_pos_inv (fun x => (0 <= shr_m x)%Z)); auto using shr_1_nonneg.
Qed.

Lemma shr_record_of_loc_m m l : shr_m (shr_record_of_loc m l) = m.
Proof. destruct l as [|[]]; reflexivity. Qed.

Lemma round_nearest_even_nonneg m l : (0 <= m)%Z -> (0 <= round_nearest_even m l)%Z.
Proof. destruct l as [|[]]; cbn; try lia. destruct (Z.even m); lia. Qed.

Lemma binary_round_aux_not_nan s m e l :
  (0 <= m)%Z -> binary_round_aux prec emax s m e l <> S754_nan.
Proof.
  intros Hm. unfold binary_round_aux, shr_fexp.
  set (n1 := (fexp prec emax (Zdigits2 m + e) - e)%Z).
  pose proof (shr_nonneg (shr_record_of_loc m l) e n1) as H1.
  rewrite shr_record_of_loc_m in H1. specialize (H1 Hm).
  destruct (shr (shr_record_of_loc m l) e n1) as [mrs' e'] eqn:E1. cbn in H1.
  set (m2 := round_nearest_even (shr_m mrs') (loc_of_shr_record mrs')).
  assert (0 <= m2)%Z as H2 by (apply round_nearest_even_nonneg; exact H1).
  set (n2 := (fexp prec emax (Zdigits2 m2 + e') - e')%Z).
  pose proof (shr_nonneg (shr_record_of_loc m2 loc_Exact) e' n2 H2) as H3.
  destruct (shr (shr_record_of_loc m2 loc_Exact) e' n2) as [mrs'' e''] eqn:E2. cbn in H3.
  destruct (shr_m mrs'') as [|p|p]; try discriminate; try lia.
  destruct (e'' <=? emax - prec)%Z; discriminate.
Qed.

Lemma SFadd_not_nan x y :
  x <> S754_nan -> finite_sf y -> SFadd prec emax x y <> S754_nan.
Proof.
  intros Hx Hy.
  destruct y as [s|s| |s m e]; try contradiction;
    destruct x as [sx|sx| |sx mx ex]; try congruence;
    cbn; try destruct sx; try destruct s; try discriminate.
  all: unfold binary_normalize.
  all: match goal with
       | |- context [match ?z with Z0 => _ | Zpos _ => _ | Zneg _ => _ end] => destruct z
       end; try discriminate.
  all: unfold binary_round;
    match goal with |- context [shl_align ?a ?b ?c] => destruct (shl_align a b c) end;
    apply binary_round_aux_not_nan; lia.
Qed.

(** Adding a finite double to anything but NaN does not give NaN. *)
Lemma add_not_nan x y :
  is_nan x = false -> is_finite_double y = true -> is_nan (x + y)%float = false.
Proof.
  intros Hx%is_nan_false Hy%is_finite_double_spec.
  apply is_nan_false. rewrite add_spec. now apply SFadd_not_nan.
Qed.

(** *** The order on doubles *)

Ltac split_cmp :=
  repeat (match goal with
          | |- context [(?a ?= ?b)%Z] => destruct (Z.compare_spec a b)
          | |- context [(?a ?= ?b)%positive] => destruct (Pos.compare_spec a b)
          end; cbn).

Lemma SFltb_leb_trans x y z :
  SFltb x y = true -> SFleb y z = true -> SFleb x z = true.
Proof.
  unfold SFltb, SFleb.
  destruct x as [sx|sx| |sx mx ex], y as [sy|sy| |sy my ey], z as [sz|sz| |sz mz ez];
    cbn; try discriminate; try reflexivity;
    try destruct sx; try destruct sy; try destruct sz; cbn;
    try discriminate; try reflexivity;
    change (Pos.compare_cont Eq) with Pos.compare;
    split_cmp; try discriminate; try reflexivity; intros; lia.
Qed.

Lemma ltb_leb_trans a b c :
  (a <? b)%float = true -> (b <=? c)%float = true -> (a <=? c)%float = true.
Proof. rewrite ltb_spec, !leb_spec. apply SFltb_leb_trans. Qed.

Lemma ltb_not_nan a b :
  (a <? b)%float = true -> is_nan a = false /\ is_nan b = false.
Proof.
  rewrite ltb_spec, !is_nan_false. unfold SFltb.
  destruct (Prim2SF a), (Prim2SF b); cbn; try discriminate; intros _; split; discriminate.
Qed.

(** Two doubles that are not NaN are comparable. *)
Lemma not_ltb_leb a b :
  is_nan a = false -> is_nan b = false -> (a <? b)%float = false -> (b <=? a)%float = true.
Proof.
  rewrite ltb_spec, leb_spec, !is_nan_false. unfold SFltb, SFleb.
  rewrite (SFcompare_antisym (Prim2SF a) (Prim2SF b)).
  destruct (Prim2SF a) as [sa|sa| |sa ma ea], (Prim2SF b) as [sb|sb| |sb mb eb];
    try congruence; intros _ _; cbn;
    try destruct sa; try destruct sb; cbn; try congruence;
    destruct (ea ?= eb)%Z; cbn; try congruence;
    destruct (Pos.compare_cont Eq ma mb); cbn; congruence.
Qed.

(** *** Zeros, and the arithmetic of the identity kernel *)

Lemma is_zero_double_spec x : is_zero_double x = true <-> zero_sf (Prim2SF x).
Proof.
  unfold is_zero_double. rewrite FloatAxioms.eqb_spec.
  change (Prim2SF 0) with (S754_zero false).
  destruct (Prim2SF x) as [s|s| |s m e]; cbn; try destruct s; cbn; intuition congruence.
Qed.

Lemma alike_refl x : alike x x.
Proof. now left. Qed.

Lemma alike_sym x y : alike x y -> alike y x.
Proof. intros [->|[Hx Hy]]; [now left|now right]. Qed.

Lemma alike_trans x y z : alike x y -> alike y z -> alike x z.
Proof.
  intros [->|[Hx Hy]] [->|[Hy' Hz]]; try (now left); try (now right).
Qed.

Lemma alike_of_sf x y :
  Prim2SF x = Prim2SF y \/ (zero_sf (Prim2SF x) /\ zero_sf (Prim2SF y)) -> alike x y.
Proof.
  intros [H|[Hx Hy]]; [left; now apply Prim2SF_inj|right].
  now rewrite !is_zero_double_spec.
Qed.

Lemma alike_is_nan x y : alike x y -> is_nan x = is_nan y.
Proof.
  intros [->|[Hx Hy]]; [reflexivity|].
  apply is_zero_double_spec in Hx, Hy.
  destruct (is_nan x) eqn:Ex, (is_nan y) eqn:Ey; try reflexivity;
    try (apply is_nan_spec in Ex; rewrite Ex in Hx; contradiction);
    try (apply is_nan_spec in Ey; rewrite Ey in Hy; contradiction).
Qed.

Lemma is_infinity_spec x :
  is_infinity x = true <-> exists s, Prim2SF x = S754_infinity s.
Proof.
  unfold is_infinity. rewrite FloatAxioms.eqb_spec, abs_spec.
  change (Prim2SF infinity) with (S754_infinity false).
  destruct (Prim2SF x) as [s|s| |s m e]; cbn; try destruct s; cbn;
    split; try discriminate; try (intros [? ?]; discriminate); eauto.
Qed.

Lemma alike_is_infinity x y : alike x y -> is_infinity x = is_infinity y.
Proof.
  intros [->|[Hx Hy]]; [reflexivity|].
  apply is_zero_double_spec in Hx, Hy.
  destruct (is_infinity x) eqn:Ex, (is_infinity y) eqn:Ey; try reflexivity.
  - apply is_infinity_spec in Ex as [s Hs]. rewrite Hs in Hx. contradiction.
  - apply is_infinity_spec in Ey as [s Hs]. rewrite Hs in Hy. contradiction.
Qed.

Lemma alike_same_double x y : alike x y -> same_double x y = true.
Proof.
  intros H. unfold same_double.
  destruct H as [->|[Hx Hy]].
  - destruct (is_nan y) eqn:E; [reflexivity|]. cbn.
    unfold is_nan in E. now apply negb_false_iff in E.
  - apply is_zero_double_spec in Hx, Hy. rewrite FloatAxioms.eqb_spec.
    destruct (Prim2SF x), (Prim2SF y); try contradiction.
    now rewrite orb_true_r.
Qed.

(** [x - 0], [x + 0] and [0 + x] are [x], up to the sign of a zero. *)
Lemma sub_zero_alike x z : is_zero_double z = true -> alike (x - z)%float x.
Proof.
  intros Hz%is_zero_double_spec. apply alike_of_sf. rewrite sub_spec.
  destruct (Prim2SF z) as [sz| | |]; try contradiction.
  destruct (Prim2SF x) as [sx|sx| |sx mx ex]; cbn; try destruct sx; try destruct sz; cbn; auto.
Qed.

Lemma add_zero_r_alike x z : is_zero_double z = true -> alike (x + z)%float x.
Proof.
  intros Hz%is_zero_double_spec. apply alike_of_sf. rewrite add_spec.
  destruct (Prim2SF z) as [sz| | |]; try contradiction.
  destruct (Prim2SF x) as [sx|sx| |sx mx ex]; cbn; try destruct sx; try destruct sz; cbn; auto.
Qed.

Lemma add_zero_l_alike z y : is_zero_double z = true -> alike (z + y)%float y.
Proof.
  intros Hz%is_zero_double_spec. apply alike_of_sf. rewrite add_spec.
  destruct (Prim2SF z) as [sz| | |]; try contradiction.
  destruct (Prim2SF y) as [sy|sy| |sy my ey]; cbn; try destruct sy; try destruct sz; cbn; auto.
Qed.

Lemma add_zeros z z' :
  is_zero_double z = true -> is_zero_double z' = true -> is_zero_double (z + z')%float = true.
Proof.
  rewrite !is_zero_double_spec, add_spec.
  destruct (Prim2SF z) as [s| | |], (Prim2SF z') as [s'| | |]; try contradiction.
  intros _ _. destruct s, s'; exact I.
Qed.

(** [0 * y] is a zero unless [y] is NaN or an infinity. *)
Lemma mul_zero_l y :
  is_nan y = false -> is_infinity y = false -> is_zero_double (0 * y)%float = true.
Proof.
  intros Hn Hi. apply is_zero_double_spec. rewrite mul_spec.
  change (Prim2SF 0) with (S754_zero false).
  apply is_nan_false in Hn.
  destruct (Prim2SF y) as [s|s| |s m e] eqn:Ey; cbn; auto.
  rewrite (proj2 (is_infinity_spec y)) in Hi by eauto. discriminate.
Qed.

Lemma digits2_shift52 m :
  Zpos (digits2_pos (4503599627370496 * m)) = (Zpos (digits2_pos m) + 52)%Z.
Proof.
  cbv [Pos.mul]. cbn [digits2_pos]. rewrite !Pos2Z.inj_succ. lia.
Qed.

Lemma shr_1_iter52 m :
  SpecFloat.iter_pos shr_1 52
    {| shr_m := Zpos (4503599627370496 * m); shr_r := false; shr_s := false |}
  = {| shr_m := Zpos m; shr_r := false; shr_s := false |}.
Proof. cbv [Pos.mul]. reflexivity. Qed.

(** The product of 1.0 (mantissa 2^52, exponent -52) and a valid finite
    double rounds back to that double. *)
Lemma SFmul_one_l s m e :
  valid_binary (S754_finite s m e) = true ->
  SFmul prec emax (S754_finite false 4503599627370496 (-52)) (S754_finite s m e)
  = S754_finite s m e.
Proof.
  cbn [SpecFloat.valid_binary]. unfold bounded, canonical_mantissa.
  intros [Hc Hb]%andb_true_iff. apply Z.eqb_eq in Hc.
  unfold SFmul. cbn [xorb].
  unfold binary_round_aux, shr_fexp. cbn [Zdigits2].
  rewrite digits2_shift52.
  replace (Z.pos (digits2_pos m) + 52 + (-52 + e))%Z with (Z.pos (digits2_pos m) + e)%Z by lia.
  rewrite Hc. replace (e - (-52 + e))%Z with 52%Z by lia.
  cbn [shr shr_record_of_loc]. rewrite shr_1_iter52.
  cbn [shr_m loc_of_shr_record round_nearest_even Zdigits2].
  replace (-52 + e + 52)%Z with e by lia.
  rewrite Hc, Z.sub_diag. cbn [shr shr_record_of_loc shr_m]. rewrite Hb. reflexivity.
Qed.

(** [1 * y = y], for every double [y]. *)
Lemma mul_one_l y : (1 * y)%float = y.
Proof.
  apply Prim2SF_inj. rewrite mul_spec.
  change (Prim2SF 1) with (S754_finite false 4503599627370496 (-52)).
  pose proof (Prim2SF_valid y) as Hv.
  destruct (Prim2SF y) as [s|s| |s m e]; try reflexivity.
  now apply SFmul_one_l.
Qed.

End Binary64.

(** ** Column integrators *)

Section ColumnFacts.
Local Open Scope float_scope.

(** A counting loop that reads [a[k]] at every step is a fold over [a]. *)
Lemma fold_seq_fget_app {S : Type} (f : S -> float -> S) (pre a : list float) (s : S) :
  fold_left (fun s k => f s (pre ++ a).[k]) (seq (length pre) (length a)) s
  = fold_left f a s.
Proof.
  revert pre s. induction a as [|x a IH]; intros pre s; [reflexivity|].
  cbn [length seq fold_left].
  replace ((pre ++ x :: a).[length pre]) with x
    by (unfold fget; now rewrite list_lookup_middle).
  specialize (IH (pre ++ [x]) (f s x)).
  rewrite <- app_assoc, length_app in IH. cbn [length app] in IH.
  now rewrite Nat.add_1_r in IH.
Qed.

Lemma fold_seq_fget {S : Type} (f : S -> float -> S) (a : list float) (s : S) :
  fold_left (fun s k => f s a.[k]) (seq 0 (length a)) s = fold_left f a s.
Proof. exact (fold_seq_fget_app f [] a s). Qed.

Lemma column_fold (pc : list float) (column : float) (empty : bool) :
  fold_left column_step pc (column, empty)
  = (fold_left PrimFloat.add (List.filter (fun x => negb (harp_isnan x)) pc) column,
     empty && forallb harp_isnan pc).
Proof.
  revert column empty. induction pc as [|x pc IH]; intros column empty; cbn.
  - now rewrite andb_true_r.
  - unfold column_step at 2. destruct (harp_isnan x); cbn [negb fst].
    + now rewrite IH.
    + rewrite IH. now rewrite andb_false_r.
Qed.

Lemma column_from_partial_column_fold (pc : list float) :
  harp_profile_column_from_partial_column (Z.of_nat (length pc)) pc
  = column_result (fold_left column_step pc (0, true)).
Proof.
  unfold harp_profile_column_from_partial_column. rewrite Nat2Z.id.
  f_equal. exact (fold_seq_fget column_step pc (0, true)).
Qed.

(** A running sum of finite doubles that did not start from NaN is not NaN
    (it may overflow to an infinity, which later finite terms leave alone). *)
Lemma sum_of_finite_not_nan (l : list float) (acc : float) :
  Forall (fun x => is_finite_double x = true) l ->
  is_nan acc = false ->
  is_nan (fold_left PrimFloat.add l acc) = false.
Proof.
  intros Hl. revert acc. induction Hl as [|x l Hx _ IH]; intros acc Hacc; cbn; [exact Hacc|].
  apply IH. now apply Binary64.add_not_nan.
Qed.

End ColumnFacts.

Section ColumnClaims.
Local Open Scope float_scope.

(** C1. The stratospheric integrators give a level that straddles the
    tropopause the fraction of its partial column that lies BELOW the
    tropopause, the very term of the tropospheric integrators, where the
    function's documentation promises the amount above.  At one level of
    partial column 10 between 0 m and 10 m with the tropopause at 2.5 m the
    stratospheric column is 2.5 (the complement would be 7.5), the
    tropospheric column is 2.5 as well, and the total is 10; the pressure
    variant repeats the tropospheric term for every [log]. *)
Theorem strato_column_straddling_level_takes_tropo_fraction :
  harp_profile_strato_column_from_partial_column_and_altitude 1%Z [10] [0; 10] 2.5 = 2.5
  /\ harp_profile_tropo_column_from_partial_column_and_altitude 1%Z [10] [0; 10] 2.5 = 2.5
  /\ harp_profile_column_from_partial_column 1%Z [10] = 10
  /\ (2.5 + 2.5 =? 10) = false
  /\ forall log : float -> float,
       harp_profile_strato_column_from_partial_column_and_pressure log 1%Z [10] [80; 60] 70
       = 0 + 10 * log (70 / 80) / log (60 / 80)
       /\ harp_profile_tropo_column_from_partial_column_and_pressure log 1%Z [10] [80; 60] 70
          = 0 + 10 * log (70 / 80) / log (60 / 80).
Proof.
  repeat split; vm_compute; reflexivity.
Qed.

(** C2 as stated fails: the profile [+inf, -inf] has no NaN entry, yet its
    column is NaN. *)
Lemma column_nan_without_nan_entry :
  harp_isnan (harp_profile_column_from_partial_column 2%Z [infinity; neg_infinity]) = true
  /\ forallb harp_isnan [infinity; neg_infinity] = false.
Proof. split; vm_compute; reflexivity. Qed.

(** C2 (amended). For a profile of any length the column is the sum, taken
    from zero in profile order, of exactly the entries that are not NaN; it
    is NaN when every entry is NaN or the profile is empty; and when no entry
    is an infinity, it is NaN only then.  In particular [NaN,1,2,NaN,3] gives
    6 and [NaN,NaN] gives NaN. *)
Theorem column_from_partial_column_sums_non_nan (partial_column_profile : list float) :
  let column :=
    harp_profile_column_from_partial_column
      (Z.of_nat (length partial_column_profile)) partial_column_profile in
  column = sum_of_non_nan partial_column_profile
  /\ (forallb harp_isnan partial_column_profile = true -> harp_isnan column = true)
  /\ (Forall (fun x => is_infinity x = false) partial_column_profile ->
      harp_isnan column = true -> forallb harp_isnan partial_column_profile = true)
  /\ harp_profile_column_from_partial_column 5%Z [nan; 1; 2; nan; 3] = 6
  /\ harp_isnan (harp_profile_column_from_partial_column 2%Z [nan; nan]) = true.
Proof.
  cbv zeta. rewrite column_from_partial_column_fold, column_fold. cbn [andb column_result].
  unfold sum_of_non_nan.
  repeat split; try (vm_compute; reflexivity).
  - intros ->. reflexivity.
  - intros Hinf Hnan.
    destruct (forallb harp_isnan partial_column_profile) eqn:E; [reflexivity|].
    exfalso. unfold harp_isnan in Hnan.
    rewrite sum_of_finite_not_nan in Hnan; [discriminate| |reflexivity].
    clear -Hinf. unfold harp_isnan.
    induction Hinf as [|x l Hx _ IH]; cbn; [constructor|].
    destruct (is_nan x) eqn:Ex; cbn; [exact IH|].
    constructor; [|exact IH].
    unfold is_finite_double. now rewrite Ex, Hx.
Qed.

End ColumnClaims.

(** ** Tropopause locator *)

Section TropopauseFacts.
Local Open Scope float_scope.

Variable EPSILON : float.
Variable num_levels : Z.
Variables altitude_profile pressure_profile temperature_profile : list float.

Local Abbreviation skip := (tropopause_skip num_levels pressure_profile).
Local Abbreviation lookahead :=
  (tropopause_lookahead EPSILON num_levels altitude_profile temperature_profile).
Local Abbreviation accept :=
  (tropopause_accept EPSILON num_levels altitude_profile temperature_profile).
Local Abbreviation scan :=
  (tropopause_scan EPSILON num_levels altitude_profile pressure_profile temperature_profile).
Local Abbreviation lapse := (lapse_rate altitude_profile temperature_profile).
Local Abbreviation wmo :=
  (wmo_tropopause_at EPSILON num_levels altitude_profile pressure_profile temperature_profile).

Local Abbreviation layers_thick := (layers_thick EPSILON num_levels altitude_profile).
Local Abbreviation pressure_decreasing := (pressure_decreasing num_levels pressure_profile).

(** *** [num_levels] units of fuel are enough for each loop *)

Lemma tropopause_skip_fuel (fuel extra i : nat) :
  (num_levels - 1 <= Z.of_nat (i + fuel))%Z ->
  skip (fuel + extra) i = skip fuel i.
Proof.
  revert i. induction fuel as [|fuel IH]; intros i Hi.
  - cbn [Nat.add tropopause_skip]. destruct extra as [|extra]; [reflexivity|].
    cbn [tropopause_skip].
    replace (Z.of_nat i <? num_levels - 1)%Z with false by (symmetry; apply Z.ltb_ge; lia).
    reflexivity.
  - cbn [Nat.add tropopause_skip].
    destruct ((Z.of_nat i <? num_levels - 1)%Z && (50000 <? pressure_profile.[i])); [|reflexivity].
    apply IH. lia.
Qed.

Lemma tropopause_lookahead_fuel (fuel extra i k : nat) (lapse_sum : float) (count : Z) :
  (num_levels <= Z.of_nat (k + fuel))%Z ->
  lookahead (fuel + extra) i k lapse_sum count = lookahead fuel i k lapse_sum count.
Proof.
  revert k lapse_sum count. induction fuel as [|fuel IH]; intros k lapse_sum count Hk.
  - cbn [Nat.add tropopause_lookahead]. destruct extra as [|extra]; [reflexivity|].
    cbn [tropopause_lookahead].
    replace (Z.of_nat k <? num_levels)%Z with false by (symmetry; apply Z.ltb_ge; lia).
    reflexivity.
  - cbn [Nat.add tropopause_lookahead].
    destruct ((Z.of_nat k <? num_levels)%Z
              && (altitude_profile.[k] <=? altitude_profile.[i] + 2000)); [|reflexivity].
    cbv zeta. destruct (EPSILON <=? _); apply IH; lia.
Qed.

Lemma tropopause_scan_fuel (fuel extra i : nat) (lapse_below : float) :
  (num_levels - 1 <= Z.of_nat (i + fuel))%Z ->
  scan (fuel + extra) i lapse_below = scan fuel i lapse_below.
Proof.
  revert i lapse_below. induction fuel as [|fuel IH]; intros i lapse_below Hi.
  - cbn [Nat.add tropopause_scan]. destruct extra as [|extra]; [reflexivity|].
    cbn [tropopause_scan].
    replace (Z.of_nat i <? num_levels - 1)%Z with false by (symmetry; apply Z.ltb_ge; lia).
    reflexivity.
  - cbn [Nat.add tropopause_scan].
    destruct ((Z.of_nat i <? num_levels - 1)%Z && (5000 <? pressure_profile.[i])); [|reflexivity].
    cbv zeta. destruct (_ <? 0); [reflexivity|].
    destruct (_ && _ && _); [reflexivity|]. apply IH. lia.
Qed.

(** *** The first loop *)

Lemma tropopause_skip_spec (fuel i : nat) :
  i <= skip fuel i
  /\ (forall j, i <= j < skip fuel i -> (50000 <? pressure_profile.[j]) = true)
  /\ ((num_levels - 1 <= Z.of_nat (i + fuel))%Z ->
      (Z.of_nat (skip fuel i) < num_levels - 1)%Z ->
      (50000 <? pressure_profile.[skip fuel i]) = false).
Proof.
  revert i. induction fuel as [|fuel IH]; intros i; cbn [tropopause_skip].
  - repeat split; [lia | intros j Hj; lia | intros H1 H2; lia].
  - destruct (Z.of_nat i <? num_levels - 1)%Z eqn:Ei; cbn [andb].
    + destruct (50000 <? pressure_profile.[i]) eqn:Ep.
      * destruct (IH (S i)) as (H1 & H2 & H3). repeat split.
        -- lia.
        -- intros j Hj. destruct (Nat.eq_dec j i) as [->|Hne]; [exact Ep|]. apply H2. lia.
        -- intros Hf Hs. apply H3; [lia|exact Hs].
      * repeat split; [lia | intros j Hj; lia | intros _ _; exact Ep].
    + repeat split; [lia | intros j Hj; lia |]. intros _ Hs. apply Z.ltb_ge in Ei. lia.
Qed.

(** *** The look-ahead loop computes the average of the specification *)

Lemma tropopause_lookahead_spec (fuel i k : nat) (lapse_sum : float) (count : Z) :
  (num_levels <= Z.of_nat (k + fuel))%Z -> 1 <= k ->
  let rates :=
    map (fun k => lapse (k - 1))
        (List.filter (fun k => EPSILON <=? altitude_profile.[k] - altitude_profile.[k - 1])
           (take_while (fun k => altitude_profile.[k] <=? altitude_profile.[i] + 2000)
                       (seq k (Z.to_nat num_levels - k)))) in
  lookahead fuel i k lapse_sum count
  = (fold_left PrimFloat.add rates lapse_sum, (count + Z.of_nat (length rates))%Z).
Proof.
  revert k lapse_sum count. induction fuel as [|fuel IH]; intros k lapse_sum count Hk Hk1.
  - cbn [tropopause_lookahead].
    replace (Z.to_nat num_levels - k)%nat with 0%nat by lia. cbn. now rewrite Z.add_0_r.
  - cbn [tropopause_lookahead].
    destruct (Z.of_nat k <? num_levels)%Z eqn:Ek; cbn [andb].
    + apply Z.ltb_lt in Ek.
      replace (Z.to_nat num_levels - k)%nat with (S (Z.to_nat num_levels - S k))%nat by lia.
      cbn [seq take_while].
      destruct (altitude_profile.[k] <=? altitude_profile.[i] + 2000) eqn:Ea.
      * cbn [List.filter]. cbv zeta.
        destruct (EPSILON <=? altitude_profile.[k] - altitude_profile.[k - 1]) eqn:Eh.
        -- cbn [map fold_left length]. rewrite IH by lia. cbv zeta.
           replace (lapse (k - 1))
             with ((temperature_profile.[k - 1] - temperature_profile.[k])
                   / (altitude_profile.[k] - altitude_profile.[k - 1]))
             by (unfold lapse_rate; now replace (S (k - 1))%nat with k by lia).
           f_equal. lia.
        -- rewrite IH by lia. reflexivity.
      * cbn. now rewrite Z.add_0_r.
    + apply Z.ltb_ge in Ek.
      replace (Z.to_nat num_levels - k)%nat with 0%nat by lia. cbn. now rewrite Z.add_0_r.
Qed.

Lemma tropopause_accept_spec (i : nat) :
  accept i = average_lapse_ok EPSILON num_levels altitude_profile temperature_profile i.
Proof.
  unfold tropopause_accept, average_lapse_ok, lapse_rates_within_2km, levels_within_2km.
  rewrite tropopause_lookahead_spec by lia. cbv zeta. cbn [Z.add]. reflexivity.
Qed.

(** *** The main loop *)

(** A result other than -1 is a level the loop reached, and no layer between
    the starting level and the one above the result had a negative height. *)
Lemma tropopause_scan_index (fuel j : nat) (lapse_below : float) :
  scan fuel j lapse_below <> (-1)%Z ->
  exists i, scan fuel j lapse_below = Z.of_nat i /\ j <= i
    /\ (Z.of_nat i < num_levels - 1)%Z
    /\ (5000 <? pressure_profile.[i]) = true
    /\ forall k, j <= k <= i ->
         (altitude_profile.[S k] - altitude_profile.[k] <? 0) = false.
Proof.
  revert j lapse_below. induction fuel as [|fuel IH]; intros j lapse_below; cbn [tropopause_scan].
  - congruence.
  - destruct (Z.of_nat j <? num_levels - 1)%Z eqn:Ej; cbn [andb]; [|congruence].
    destruct (5000 <? pressure_profile.[j]) eqn:Ep; [|congruence].
    cbv zeta. rewrite Nat.add_1_r.
    destruct (altitude_profile.[S j] - altitude_profile.[j] <? 0) eqn:Eh; [congruence|].
    destruct (_ && _ && _).
    + intros _. exists j. apply Z.ltb_lt in Ej. repeat split; auto.
      intros k Hk. replace k with j by lia. exact Eh.
    + intros Hr. destruct (IH _ _ Hr) as (i & -> & Hji & Hi & Hp & Hh).
      exists i. repeat split; auto; [lia|].
      intros k Hk. destruct (Nat.eq_dec k j) as [->|Hne]; [exact Eh|]. apply Hh. lia.
Qed.

(** With layers of thickness the loop carries the lapse rate of the layer
    below, stops at a level that meets the criterion and passes only levels
    that do not. *)
Lemma tropopause_scan_sound (fuel j : nat) (lapse_below : float) :
  layers_thick -> 1 <= j -> lapse_below = lapse (j - 1) ->
  scan fuel j lapse_below <> (-1)%Z ->
  exists i, scan fuel j lapse_below = Z.of_nat i /\ j <= i
    /\ (Z.of_nat i < num_levels - 1)%Z
    /\ (5000 <? pressure_profile.[i]) = true
    /\ (0.002 <? lapse (i - 1)) = true
    /\ (lapse i <=? 0.002) = true
    /\ accept i = true
    /\ forall j', j <= j' < i ->
         (0.002 <? lapse (j' - 1)) && (lapse j' <=? 0.002) && accept j' = false.
Proof.
  intros Hthick. revert j lapse_below.
  induction fuel as [|fuel IH]; intros j lapse_below Hj Hlb; cbn [tropopause_scan].
  - congruence.
  - destruct (Z.of_nat j <? num_levels - 1)%Z eqn:Ej; cbn [andb]; [|congruence].
    destruct (5000 <? pressure_profile.[j]) eqn:Ep; [|congruence].
    cbv zeta. rewrite Nat.add_1_r.
    destruct (altitude_profile.[S j] - altitude_profile.[j] <? 0) eqn:Eh; [congruence|].
    apply Z.ltb_lt in Ej.
    rewrite (Binary64.leb_ltb_false _ _ (Hthick j ltac:(lia))).
    change ((temperature_profile.[j] - temperature_profile.[S j])
            / (altitude_profile.[S j] - altitude_profile.[j])) with (lapse j).
    subst lapse_below.
    destruct ((0.002 <? lapse (j - 1)) && (lapse j <=? 0.002) && accept j) eqn:Ec.
    + intros _. exists j.
      apply andb_prop in Ec as [Ec Hacc]. apply andb_prop in Ec as [Hb Ha].
      repeat split; auto. intros j' Hj'. lia.
    + intros Hr.
      destruct (IH (S j) (lapse j) ltac:(lia)) as (i & -> & Hji & Hi & Hp & Hb & Ha & Hacc & Hlow);
        [cbn; now rewrite Nat.sub_0_r | exact Hr |].
      exists i. repeat split; auto; [lia|].
      intros j' Hj'. destruct (Nat.eq_dec j' j) as [->|Hne]; [exact Ec|]. apply Hlow. lia.
Qed.

End TropopauseFacts.

Section TropopauseClaims.
Local Open Scope float_scope.

Lemma andb_chain_false (a c d e : bool) :
  c && d && e = false -> a && c && d && e = false.
Proof. destruct a, c, d, e; cbn; congruence. Qed.

(** Under strictly decreasing pressure every level from the one the first
    loop stops at lies at or below 50000 Pa. *)
Lemma pressure_below_50000_from_start
    (num_levels : Z) (pressure_profile : list float) (s d : nat) :
  pressure_decreasing num_levels pressure_profile ->
  (50000 <? pressure_profile.[s]) = false ->
  (Z.of_nat (s + d) < num_levels - 1)%Z ->
  (pressure_profile.[s + d] <=? 50000) = true.
Proof.
  intros Hdec Hs. induction d as [|d IH]; intros Hd.
  - rewrite Nat.add_0_r in *.
    apply Binary64.not_ltb_leb; [reflexivity| |exact Hs].
    exact (proj2 (Binary64.ltb_not_nan _ _ (Hdec s ltac:(lia)))).
  - replace (s + S d)%nat with (S (s + d)) by lia.
    eapply Binary64.ltb_leb_trans; [apply Hdec; lia | apply IH; lia].
Qed.




(** C4 as stated fails: the altitude drops between levels 0 and 1, below the
    50000 Pa level where the scan starts, and the locator returns 2. *)
Lemma tropopause_found_despite_decrease :
  let altitude := [500; 0; 1000; 2000] in
  (altitude.[1] <? altitude.[0]) = true
  /\ harp_tropopause_index_from_altitude_and_temperature
       1e-10 4%Z altitude [90000; 80000; 40000; 30000] [300; 300; 290; 290] = 2%Z.
Proof. split; vm_compute; reflexivity. Qed.

(** C4 (amended). If the height altitude[k+1] - altitude[k] of a layer is
    negative and the layer is one the scan can reach, that is, k is not below
    the layer under the first level (from index 1) whose pressure is not
    above 50000 Pa, then the locator returns -1 unless it has accepted a
    tropopause at a level below layer k before reaching it.  A decrease below
    the 50000 Pa level or above the accepted level goes unnoticed. *)
Theorem tropopause_decrease_in_scanned_layer_rejected
    (EPSILON : float) (num_levels : Z)
    (altitude_profile pressure_profile temperature_profile : list float) (k : nat) :
  (altitude_profile.[S k] - altitude_profile.[k] <? 0) = true ->
  (tropopause_skip num_levels pressure_profile (Z.to_nat num_levels) 1 - 1 <= k)%nat ->
  let r :=
    harp_tropopause_index_from_altitude_and_temperature
      EPSILON num_levels altitude_profile pressure_profile temperature_profile in
  r = (-1)%Z \/ (0 <= r < Z.of_nat k)%Z.
Proof.
  intros Hk Hsk r.
  destruct (Z.eq_dec r (-1)%Z) as [Hr|Hr]; [now left|right].
  revert Hr. subst r. unfold harp_tropopause_index_from_altitude_and_temperature.
  set (s := tropopause_skip num_levels pressure_profile (Z.to_nat num_levels) 1) in *.
  destruct (tropopause_skip_spec num_levels pressure_profile (Z.to_nat num_levels) 1)
    as (Hs1 & _). fold s in Hs1.
  cbv zeta.
  destruct (num_levels - 1 <=? Z.of_nat s)%Z; [congruence|].
  destruct (altitude_profile.[s] - altitude_profile.[s - 1] <? 0) eqn:Eh; [congruence|].
  intros Hr.
  destruct (tropopause_scan_index EPSILON num_levels altitude_profile pressure_profile
              temperature_profile _ _ _ Hr) as (i & -> & Hsi & _ & _ & Hh).
  split; [lia|].
  destruct (Nat.lt_ge_cases i k) as [Hik|Hik]; [lia|exfalso].
  destruct (Nat.eq_dec k (s - 1)%nat) as [->|Hne].
  - replace (S (s - 1)) with s in Hk by lia. congruence.
  - rewrite Hh in Hk by lia. discriminate.
Qed.

(** A drop between levels 1 and 2, the first layer the main loop looks at,
    makes the locator return -1. *)
Lemma tropopause_decrease_in_scanned_layer_rejected_witness :
  (dip_altitude.[2] - dip_altitude.[1] <? 0) = true
  /\ (tropopause_skip 4%Z dip_pressure (Z.to_nat 4) 1 - 1 <= 1)%nat
  /\ (harp_tropopause_index_from_altitude_and_temperature
        1e-10 4%Z dip_altitude dip_pressure dip_temperature = (-1)%Z
      \/ (0 <= harp_tropopause_index_from_altitude_and_temperature
                 1e-10 4%Z dip_altitude dip_pressure dip_temperature < Z.of_nat 1)%Z).
Proof.
  assert (H1 : (dip_altitude.[2] - dip_altitude.[1] <? 0) = true)
    by (vm_compute; reflexivity).
  assert (H2 : (tropopause_skip 4%Z dip_pressure (Z.to_nat 4) 1 - 1 <= 1)%nat)
    by (vm_compute; lia).
  split; [exact H1|]. split; [exact H2|].
  exact (tropopause_decrease_in_scanned_layer_rejected 1e-10 4%Z dip_altitude
           dip_pressure dip_temperature 1 H1 H2).
Defined.

End TropopauseClaims.

(** ** The pressure / geopotential-height round trip *)

Section RoundTrip.
Import Hydrostatic Exact.
Local Open Scope R_scope.

#[local] Existing Instance exact.

Local Abbreviation div := (num_div (Arithmetic := exact)).
Local Abbreviation log := (num_log (Arithmetic := exact)).

(** An invariant rule for the counting loop. *)
Lemma for_loop_invariant {St : Type} (body : nat -> St -> option St)
    (I : nat -> St -> Prop) (lo count : nat) (s : St) :
  I lo s ->
  (forall i s, (lo <= i < lo + count)%nat -> I i s ->
     exists s', body i s = Some s' /\ I (S i) s') ->
  exists s', for_loop body lo count s = Some s' /\ I (lo + count)%nat s'.
Proof.
  revert lo s. induction count as [|count IH]; intros lo s H0 Hstep; cbn [for_loop].
  - exists s. now rewrite Nat.add_0_r.
  - destruct (Hstep lo s ltac:(lia) H0) as (s1 & -> & H1). cbn.
    destruct (IH (S lo) s1 H1) as (s' & Hs' & HI).
    + intros i s2 Hi. apply Hstep. lia.
    + exists s'. split; [exact Hs'|]. now replace (lo + S count)%nat with (S lo + count)%nat by lia.
Qed.

Lemma div_defined (a b : R) : b <> 0 -> div a b = Some (a / b).
Proof. intros Hb. cbn. now destruct (Req_dec_T b 0). Qed.

Lemma log_defined (x : R) : 0 < x -> log x = Some (ln x).
Proof. intros Hx. cbn. now destruct (Rlt_dec 0 x). Qed.

Lemma store_defined {A : Type} (a : list A) (k : nat) (x : A) :
  (k < length a)%nat -> store a k x = Some (<[k := x]> a).
Proof. intros Hk. unfold store. now destruct (decide (k < length a)%nat). Qed.

Lemma ln_pos (x : R) : 1 < x -> 0 < ln x.
Proof. intros Hx. rewrite <- ln_1. apply ln_increasing; lra. Qed.

(** Undoing one hydrostatic step: the exponential of minus the height
    difference, scaled back, is the ratio of the two pressures. *)
Lemma hydrostatic_step_inverse (Rgas g a b pp p : R) :
  0 < Rgas -> 0 < g -> 0 < a -> 0 < b -> 0 < pp -> 0 < p ->
  pp * exp (-1e-3 * (b / a) * (g / Rgas) * (1e3 * (a / b) * (Rgas / g) * ln (pp / p))) = p.
Proof.
  intros HR Hg Ha Hb Hpp Hp.
  replace (-1e-3 * (b / a) * (g / Rgas) * (1e3 * (a / b) * (Rgas / g) * ln (pp / p)))
    with (- ln (pp / p)) by (field; lra).
  rewrite exp_Ropp, exp_ln by (apply Rdiv_lt_0_compat; lra).
  field; lra.
Qed.

Variables CONST_MOLAR_GAS CONST_GRAV_ACCEL_45LAT_WGS84_SPHERE : R.
Variable num_levels : nat.
Variables pressure_profile temperature_profile molar_mass_air : list R.
Variables surface_pressure surface_height : R.

Hypothesis molar_gas_positive : 0 < CONST_MOLAR_GAS.
Hypothesis gravity_positive : 0 < CONST_GRAV_ACCEL_45LAT_WGS84_SPHERE.
Hypothesis pressure_length : length pressure_profile = num_levels.
Hypothesis temperature_length : length temperature_profile = num_levels.
Hypothesis molar_mass_length : length molar_mass_air = num_levels.
Hypothesis pressure_positive : all_positive pressure_profile.
Hypothesis temperature_positive : all_positive temperature_profile.
Hypothesis molar_mass_positive : all_positive molar_mass_air.
Hypothesis pressure_monotonic : strictly_monotonic pressure_profile.
Hypothesis surface_pressure_positive : 0 < surface_pressure.

Local Abbreviation Rgas := CONST_MOLAR_GAS.
Local Abbreviation g0 := CONST_GRAV_ACCEL_45LAT_WGS84_SPHERE.
Local Abbreviation n := num_levels.

Local Abbreviation P := (level pressure_profile).
Local Abbreviation T := (level temperature_profile).
Local Abbreviation M := (level molar_mass_air).
Local Abbreviation w := (walk num_levels pressure_profile).
Local Abbreviation gph_at :=
  (Exact.gph_at CONST_MOLAR_GAS CONST_GRAV_ACCEL_45LAT_WGS84_SPHERE num_levels
     pressure_profile temperature_profile molar_mass_air surface_pressure surface_height).

Lemma P_lookup k : (k < n)%nat -> pressure_profile !! k = Some (P k) /\ 0 < P k.
Proof using All.
  intros Hk. destruct (lookup_lt_is_Some_2 pressure_profile k ltac:(lia)) as [x Hx].
  unfold level. rewrite Hx. split; [reflexivity|]. exact (pressure_positive k x Hx).
Qed.

Lemma T_lookup k : (k < n)%nat -> temperature_profile !! k = Some (T k) /\ 0 < T k.
Proof using All.
  intros Hk. destruct (lookup_lt_is_Some_2 temperature_profile k ltac:(lia)) as [x Hx].
  unfold level. rewrite Hx. split; [reflexivity|]. exact (temperature_positive k x Hx).
Qed.

Lemma M_lookup k : (k < n)%nat -> molar_mass_air !! k = Some (M k) /\ 0 < M k.
Proof using All.
  intros Hk. destruct (lookup_lt_is_Some_2 molar_mass_air k ltac:(lia)) as [x Hx].
  unfold level. rewrite Hx. split; [reflexivity|]. exact (molar_mass_positive k x Hx).
Qed.

Lemma w_lt i : (i < n)%nat -> (w i < n)%nat.
Proof using All. unfold walk. destruct (toa_first _ _); lia. Qed.

Lemma w_involutive i : (i < n)%nat -> w (w i) = i.
Proof using All. unfold walk. destruct (toa_first _ _); lia. Qed.

Lemma w_injective i j : (i < n)%nat -> (j < n)%nat -> w i = w j -> i = j.
Proof using All. unfold walk. destruct (toa_first _ _); lia. Qed.

(** A chain of strict steps. *)
Lemma chain_lt (f : nat -> R) (a b : nat) :
  (forall k, (a <= k < b)%nat -> f k < f (S k)) -> (a <= b)%nat -> f a <= f b.
Proof using All.
  intros Hstep Hab. induction b as [|b IH].
  - replace a with 0%nat by lia. lra.
  - destruct (Nat.eq_dec a (S b)) as [->|Hne]; [lra|].
    pose proof (Hstep b ltac:(lia)). 
    assert (f a <= f b) by (apply IH; [intros k Hk; apply Hstep; lia | lia]). lra.
Qed.

(** Along the walk the pressure falls strictly, whatever the storage order. *)
Lemma pressure_falls_along_walk j : (S j < n)%nat -> P (w (S j)) < P (w j).
Proof using All.
  intros Hj.
  assert (Hlk : forall k, (k < n)%nat -> pressure_profile !! k = Some (P k))
    by (intros k Hk; apply P_lookup; exact Hk).
  destruct pressure_monotonic as [Hdec|Hinc].
  - assert (Hd : forall k, (S k < n)%nat -> P (S k) < P k)
      by (intros k Hk; apply (Hdec k); apply Hlk; lia).
    assert (toa_first n pressure_profile = false) as Hw.
    { unfold toa_first. destruct (Rlt_dec (P 0) (P (n - 1))) as [Hlt|]; [exfalso|reflexivity].
      pose proof (chain_lt (fun k => - P k) 0 (n - 1)) as Hc. cbv beta in Hc.
      assert (- P 0 <= - P (n - 1)); [|lra].
      apply Hc; [|lia]. intros k Hk. pose proof (Hd k ltac:(lia)). lra. }
    unfold walk. rewrite Hw. apply Hd. exact Hj.
  - assert (Hi : forall k, (S k < n)%nat -> P k < P (S k))
      by (intros k Hk; apply (Hinc k); apply Hlk; lia).
    assert (toa_first n pressure_profile = true) as Hw.
    { unfold toa_first. destruct (Rlt_dec (P 0) (P (n - 1))) as [|Hge]; [reflexivity|exfalso].
      apply Hge. pose proof (Hi 0%nat ltac:(lia)).
      assert (P 1 <= P (n - 1)); [|lra].
      apply (chain_lt P 1 (n - 1)); [|lia]. intros k Hk. apply Hi. lia. }
    unfold walk. rewrite Hw.
    replace (n - 1 - j)%nat with (S (n - 1 - S j)) by lia. apply Hi. lia.
Qed.

Lemma gph_rises_along_walk j : (S j < n)%nat -> gph_at j < gph_at (S j).
Proof using All.
  intros Hj. cbn [Exact.gph_at]. cbv zeta.
  pose proof (pressure_falls_along_walk j Hj) as Hp.
  destruct (P_lookup (w j) (w_lt j ltac:(lia))) as [_ Hp1].
  destruct (P_lookup (w (S j)) (w_lt (S j) Hj)) as [_ Hp2].
  destruct (T_lookup (w j) (w_lt j ltac:(lia))) as [_ Ht1].
  destruct (T_lookup (w (S j)) (w_lt (S j) Hj)) as [_ Ht2].
  destruct (M_lookup (w j) (w_lt j ltac:(lia))) as [_ Hm1].
  destruct (M_lookup (w (S j)) (w_lt (S j) Hj)) as [_ Hm2].
  assert (0 < ln (P (w j) / P (w (S j)))) as Hln.
  { apply ln_pos. apply Rmult_lt_reg_r with (r := P (w (S j))); [exact Hp2|].
    unfold Rdiv. rewrite Rmult_assoc, Rinv_l by lra. lra. }
  assert (0 < 1e3 * ((T (w j) + T (w (S j))) / (M (w j) + M (w (S j)))) * (Rgas / g0)).
  { apply Rmult_lt_0_compat; [apply Rmult_lt_0_compat; [lra|]|];
      apply Rdiv_lt_0_compat; lra. }
  pose proof (Rmult_lt_0_compat _ _ H Hln). lra.
Qed.

(** *** The forward pass *)

Lemma walk_index_of_pressure i :
  (if num_lt (Arithmetic := exact) (P 0) (P (n - 1)) then (n - 1 - i)%nat else i) = w i.
Proof using All. unfold walk, toa_first. cbn. now destruct (Rlt_dec _ _). Qed.

Lemma gph_pass (gph_buffer : list R) :
  length gph_buffer = n ->
  exists gph,
    harp_profile_gph_from_pressure (arithmetic := exact) Rgas g0 n pressure_profile
      temperature_profile molar_mass_air surface_pressure surface_height gph_buffer
    = Some gph
    /\ length gph = n
    /\ forall j, (j < n)%nat -> gph !! w j = Some (gph_at j).
Proof using All.
  intros Hbuf. unfold harp_profile_gph_from_pressure.
  destruct (for_loop_invariant
              (gph_from_pressure_body (arithmetic := exact) Rgas g0 n pressure_profile
                 temperature_profile molar_mass_air surface_pressure surface_height)
              (fun i st =>
                 length (profile st) = n
                 /\ (forall j, (j < i)%nat -> profile st !! w j = Some (gph_at j))
                 /\ ((0 < i)%nat ->
                     prev_z st = gph_at (i - 1) /\ prev_p st = P (w (i - 1))
                     /\ prev_T st = T (w (i - 1)) /\ prev_M st = M (w (i - 1))))
              0 n (walk_start gph_buffer)) as (st & Hst & Hlen & Hout & _).
  - cbn. repeat split; [exact Hbuf | intros j Hj; lia | lia | lia | lia | lia].
  - intros i st Hi (Hlen & Hout & Hprev).
    destruct (P_lookup 0 ltac:(lia)) as [HP0 _].
    destruct (P_lookup (n - 1) ltac:(lia)) as [HPl _].
    destruct (P_lookup (w i) (w_lt i ltac:(lia))) as [HPk HPpos].
    destruct (T_lookup (w i) (w_lt i ltac:(lia))) as [HTk HTpos].
    destruct (M_lookup (w i) (w_lt i ltac:(lia))) as [HMk HMpos].
    unfold gph_from_pressure_body. rewrite HP0, HPl. cbn [mbind option_bind].
    rewrite walk_index_of_pressure, HPk, HMk, HTk. cbn [mbind option_bind].
    assert (exists z,
      (if (i =? 0)%nat
       then a ← div (T (w i)) (M (w i)); b ← div Rgas g0;
            q ← div surface_pressure (P (w i)); l ← log q;
            Some (num_add surface_height (num_mul (num_mul (num_mul num_1e3 a) b) l))
       else a ← div (num_add (prev_T st) (T (w i))) (num_add (prev_M st) (M (w i)));
            b ← div Rgas g0;
            q ← div (prev_p st) (P (w i)); l ← log q;
            Some (num_add (prev_z st) (num_mul (num_mul (num_mul num_1e3 a) b) l)))
      = Some z
      /\ z = gph_at i) as (z & -> & Hz).
    { destruct i as [|j]; cbn [Nat.eqb].
      - rewrite !div_defined by lra. cbn [mbind option_bind].
        rewrite log_defined by (apply Rdiv_lt_0_compat; lra).
        cbn [mbind option_bind]. eexists; split; reflexivity.
      - destruct (Hprev ltac:(lia)) as (Hz & Hp & Ht & Hm).
        replace (S j - 1)%nat with j in * by lia.
        destruct (P_lookup (w j) (w_lt j ltac:(lia))) as [_ HPj].
        destruct (T_lookup (w j) (w_lt j ltac:(lia))) as [_ HTj].
        destruct (M_lookup (w j) (w_lt j ltac:(lia))) as [_ HMj].
        rewrite Hz, Hp, Ht, Hm. cbn [num_add exact].
        rewrite !div_defined by lra. cbn [mbind option_bind].
        rewrite log_defined by (apply Rdiv_lt_0_compat; lra).
        cbn [mbind option_bind]. eexists; split; reflexivity. }
    cbn [mbind option_bind].
    rewrite store_defined by (rewrite Hlen; apply w_lt; lia). cbn [mbind option_bind].
    eexists; split; [reflexivity|]. cbn [profile prev_z prev_p prev_T prev_M].
    split; [now rewrite length_insert|]. split.
    + intros j Hj. destruct (Nat.eq_dec j i) as [->|Hne].
      * rewrite list_lookup_insert_eq by (rewrite Hlen; apply w_lt; lia). now rewrite Hz.
      * rewrite list_lookup_insert_ne; [apply Hout; lia|].
        intros Heq. apply Hne. symmetry. apply w_injective; [lia|lia|exact Heq].
    + intros _. replace (S i - 1)%nat with i by lia. auto.
  - cbn [Nat.add] in *. rewrite Hst. cbn [mbind option_bind].
    exists (profile st). auto.
Qed.

(** *** The backward pass *)

Lemma gph_chain a b : (a <= b < n)%nat -> gph_at a <= gph_at b.
Proof using All.
  intros Hab. apply (chain_lt (fun i => gph_at i) a b); [|lia].
  intros k Hk. apply gph_rises_along_walk. lia.
Qed.

Lemma walk_index_of_gph i :
  (0 < n)%nat ->
  (if num_lt (Arithmetic := exact) (gph_at (w (n - 1))) (gph_at (w 0))
   then (n - 1 - i)%nat else i) = w i.
Proof using All.
  intros Hn. unfold walk, toa_first. cbn [num_lt exact].
  destruct (Rlt_dec (P 0) (P (n - 1))) as [Hlt|Hge].
  - replace (n - 1 - (n - 1))%nat with 0%nat by lia. rewrite Nat.sub_0_r.
    assert (n - 1 <> 0)%nat as Hn1 by (intros Heq; rewrite Heq in Hlt; lra).
    pose proof (gph_rises_along_walk 0 ltac:(lia)).
    pose proof (gph_chain 1 (n - 1) ltac:(lia)).
    destruct (Rlt_dec _ _) as [|Hn']; [reflexivity|lra].
  - pose proof (gph_chain 0 (n - 1) ltac:(lia)).
    destruct (Rlt_dec _ _) as [Hlt|]; [lra|reflexivity].
Qed.

Lemma pressure_pass (gph pressure_buffer : list R) :
  length gph = n ->
  (forall j, (j < n)%nat -> gph !! w j = Some (gph_at j)) ->
  length pressure_buffer = n ->
  exists out,
    harp_profile_pressure_from_gph (arithmetic := exact) Rgas g0 n gph temperature_profile
      molar_mass_air surface_pressure surface_height pressure_buffer = Some out
    /\ length out = n
    /\ forall j, (j < n)%nat -> out !! w j = Some (P (w j)).
Proof using All.
  intros Hgl Hgph Hbuf. unfold harp_profile_pressure_from_gph.
  assert (Hg : forall k, (k < n)%nat -> gph !! k = Some (gph_at (w k))).
  { intros k Hk. rewrite <- (w_involutive k Hk) at 1. apply Hgph. now apply w_lt. }
  destruct (for_loop_invariant
              (pressure_from_gph_body (arithmetic := exact) Rgas g0 n gph temperature_profile
                 molar_mass_air surface_pressure surface_height)
              (fun i st =>
                 length (profile st) = n
                 /\ (forall j, (j < i)%nat -> profile st !! w j = Some (P (w j)))
                 /\ ((0 < i)%nat ->
                     prev_z st = gph_at (i - 1) /\ prev_p st = P (w (i - 1))
                     /\ prev_T st = T (w (i - 1)) /\ prev_M st = M (w (i - 1))))
              0 n (walk_start pressure_buffer)) as (st & Hst & Hlen & Hout & _).
  - cbn. repeat split; [exact Hbuf | intros j Hj; lia | lia | lia | lia | lia].
  - intros i st Hi (Hlen & Hout & Hprev).
    destruct (P_lookup (w i) (w_lt i ltac:(lia))) as [_ HPpos].
    destruct (T_lookup (w i) (w_lt i ltac:(lia))) as [HTk HTpos].
    destruct (M_lookup (w i) (w_lt i ltac:(lia))) as [HMk HMpos].
    unfold pressure_from_gph_body.
    rewrite (Hg 0%nat) by lia. rewrite (Hg (n - 1)%nat) by lia. cbn [mbind option_bind].
    rewrite walk_index_of_gph by lia. rewrite (Hgph i) by lia. rewrite HMk, HTk.
    cbn [mbind option_bind].
    assert (exists p,
      (if (i =? 0)%nat
       then a ← div (M (w i)) (T (w i)); b ← div g0 Rgas;
            Some (num_mul surface_pressure
                    (num_exp (num_mul (num_mul (num_mul num_minus_1em3 a) b)
                                (num_sub (gph_at i) surface_height))))
       else a ← div (num_add (prev_M st) (M (w i))) (num_add (prev_T st) (T (w i)));
            b ← div g0 Rgas;
            Some (num_mul (prev_p st)
                    (num_exp (num_mul (num_mul (num_mul num_minus_1em3 a) b)
                                (num_sub (gph_at i) (prev_z st))))))
      = Some p
      /\ p = P (w i)) as (p & -> & Hp).
    { destruct i as [|j]; cbn [Nat.eqb].
      - rewrite !div_defined by lra. cbn [mbind option_bind].
        eexists; split; [reflexivity|].
        cbn [Exact.gph_at num_mul num_sub num_exp num_minus_1em3 exact]. cbv zeta.
        replace (surface_height
                 + 1e3 * (T (w 0) / M (w 0)) * (Rgas / g0) * ln (surface_pressure / P (w 0))
                 - surface_height)
          with (1e3 * (T (w 0) / M (w 0)) * (Rgas / g0) * ln (surface_pressure / P (w 0)))
          by ring.
        now apply hydrostatic_step_inverse.
      - destruct (Hprev ltac:(lia)) as (Hz & Hpp & Ht & Hm).
        replace (S j - 1)%nat with j in * by lia.
        destruct (P_lookup (w j) (w_lt j ltac:(lia))) as [_ HPj].
        destruct (T_lookup (w j) (w_lt j ltac:(lia))) as [_ HTj].
        destruct (M_lookup (w j) (w_lt j ltac:(lia))) as [_ HMj].
        rewrite Hz, Hpp, Ht, Hm. cbn [num_add exact].
        rewrite !div_defined by lra. cbn [mbind option_bind].
        eexists; split; [reflexivity|].
        cbn [Exact.gph_at num_mul num_sub num_exp num_minus_1em3 exact]. cbv zeta.
        match goal with |- context [exp (_ * (?a + ?d - ?a))] =>
          replace (a + d - a) with d by ring end.
        apply hydrostatic_step_inverse; lra. }
    cbn [mbind option_bind].
    rewrite store_defined by (rewrite Hlen; apply w_lt; lia). cbn [mbind option_bind].
    eexists; split; [reflexivity|]. cbn [profile prev_z prev_p prev_T prev_M].
    split; [now rewrite length_insert|]. split.
    + intros j Hj. destruct (Nat.eq_dec j i) as [->|Hne].
      * rewrite list_lookup_insert_eq by (rewrite Hlen; apply w_lt; lia). now rewrite Hp.
      * rewrite list_lookup_insert_ne; [apply Hout; lia|].
        intros Heq. apply Hne. symmetry. apply w_injective; [lia|lia|exact Heq].
    + intros _. replace (S i - 1)%nat with i by lia. auto.
  - cbn [Nat.add] in *. rewrite Hst. cbn [mbind option_bind].
    exists (profile st). auto.
Qed.

Lemma round_trip_restores_pressure (gph_buffer pressure_buffer : list R) :
  length gph_buffer = n -> length pressure_buffer = n ->
  pressure_gph_round_trip (arithmetic := exact) Rgas g0 n pressure_profile
    temperature_profile molar_mass_air surface_pressure surface_height gph_buffer
    pressure_buffer = Some pressure_profile.
Proof using All.
  intros Hg Hp. unfold pressure_gph_round_trip.
  destruct (gph_pass gph_buffer Hg) as (gph & -> & Hgl & Hgph). cbn [mbind option_bind].
  destruct (pressure_pass gph pressure_buffer Hgl Hgph Hp) as (out & -> & Hol & Hout).
  f_equal. apply list_eq. intros k.
  destruct (Nat.lt_ge_cases k n) as [Hk|Hk].
  - rewrite <- (w_involutive k Hk) at 1. rewrite Hout by (now apply w_lt).
    rewrite (w_involutive k Hk). symmetry. now apply P_lookup.
  - rewrite !lookup_ge_None_2 by lia. reflexivity.
Qed.

End RoundTrip.

Section RoundTripClaim.
Import Hydrostatic Exact.
Local Open Scope R_scope.

(** A product with NaN is NaN. *)
Lemma mul_nan_l (y : float) : is_nan (nan * y)%float = true.
Proof.
  apply Binary64.is_nan_spec. rewrite mul_spec.
  change (Prim2SF nan) with S754_nan. reflexivity.
Qed.

(** The premises on the C library are met by a table of the values they
    name. *)
Lemma library_premises_satisfiable :
  exists log exp : float -> float,
    c99_special_values log exp
    /\ within_one_ulp 0x1.62e42fefa39efp-1%float (log 2%float)
    /\ within_one_ulp 0x1.fff7518720c36p-2%float (exp (-0x1.62ecde7b5aafcp-1)%float).
Proof.
  exists (fun x => if (x =? 1)%float then 0%float
                   else if (x =? 0)%float then neg_infinity
                   else 0x1.62e42fefa39efp-1%float),
         (fun x => if (x =? 0)%float then 1%float
                   else if (x =? infinity)%float then infinity
                   else 0x1.fff7518720c36p-2%float).
  repeat split; try (vm_compute; reflexivity); right; left; vm_compute; reflexivity.
Qed.

(** In binary64 the round trip of the halving profile over a surface at
    1e16 m misses the tolerance: the forward pass rounds the height of level 1
    to a multiple of 2 m, and the pressure that comes back is off by 6.6e-5. *)
Lemma round_trip_off_at_high_surface (log exp : float -> float) :
  c99_special_values log exp ->
  within_one_ulp 0x1.62e42fefa39efp-1%float (log 2%float) ->
  within_one_ulp 0x1.fff7518720c36p-2%float (exp (-0x1.62ecde7b5aafcp-1)%float) ->
  exists p1,
    pressure_gph_round_trip (arithmetic := binary64 log exp) 8.3144598%float 9.80665%float 2
      halving_pressure halving_temperature halving_molar_mass 100000%float 1e16%float
      [0; 0]%float [0; 0]%float = Some [100000%float; p1]
    /\ within_relative_tolerance 50000%float p1 = false.
Proof.
  intros (Hlog1 & Hlog0 & Hexp0 & Hexpinf) Hlog2 Hexp.
  vm_compute in Hlog2, Hexp0, Hexp.
  vm_compute. rewrite Hlog1.
  destruct Hlog2 as [Hl|[Hl|Hl]]; rewrite Hl; vm_compute; rewrite Hexp0;
    (destruct Hexp as [He|[He|He]]; rewrite He; vm_compute;
     (eexists; split; [reflexivity|vm_compute; reflexivity])).
Qed.

(** In binary64 a surface pressure of 0 turns every pressure into NaN. *)
Lemma round_trip_nan_at_zero_surface_pressure (log exp : float -> float) :
  c99_special_values log exp ->
  within_one_ulp 0x1.62e42fefa39efp-1%float (log 2%float) ->
  exists p0 p1,
    pressure_gph_round_trip (arithmetic := binary64 log exp) 8.3144598%float 9.80665%float 2
      halving_pressure halving_temperature halving_molar_mass 0%float 0%float
      [0; 0]%float [0; 0]%float = Some [p0; p1]
    /\ is_nan p0 = true /\ is_nan p1 = true.
Proof.
  intros (Hlog1 & Hlog0 & Hexp0 & Hexpinf) Hlog2.
  vm_compute in Hlog2, Hexpinf.
  vm_compute. rewrite Hlog0.
  destruct Hlog2 as [Hl|[Hl|Hl]]; rewrite Hl; vm_compute; rewrite Hexpinf;
    (eexists; eexists; split; [reflexivity|]; split; [vm_compute; reflexivity|];
     change (0 * infinity)%float with nan; apply mul_nan_l).
Qed.

(** In exact arithmetic a surface pressure of 0 leaves the round trip
    undefined: the forward pass takes the logarithm of 0. *)
Lemma round_trip_undefined_at_zero_surface_pressure :
  pressure_gph_round_trip (arithmetic := exact) 1 1 1 [1] [1] [1] 0 0 [0] [0] = None.
Proof.
  unfold pressure_gph_round_trip, harp_profile_gph_from_pressure.
  cbn [for_loop walk_start]. unfold gph_from_pressure_body.
  cbn [lookup list_lookup Nat.sub mbind option_bind num_lt num_div num_log exact].
  destruct (Rlt_dec 1 1) as [Hlt|_]; [lra|].
  cbn [lookup list_lookup Nat.eqb mbind option_bind prev_T prev_M].
  destruct (Req_dec_T 1 0) as [H10|_]; [lra|].
  cbn [mbind option_bind].
  destruct (Rlt_dec 0 (0 / 1)) as [Hlt|_]; [lra|].
  reflexivity.
Qed.




End RoundTripClaim.

(** ** The vertical smoothing operator *)

Section SmoothFacts.
Local Open Scope float_scope.

(** *** Buffers *)

Lemma store_other_buffer m p q i x : q <> p -> store m p i x !! q = m !! q.
Proof. intros Hq. unfold store. now rewrite lookup_alter_ne. Qed.

Lemma buffer_store_other m p q i x : q <> p -> buffer (store m p i x) q = buffer m q.
Proof. intros Hq. unfold buffer. now rewrite store_other_buffer. Qed.

Lemma buffer_store m p i x : buffer (store m p i x) p = <[i := x]> (buffer m p).
Proof.
  unfold buffer, store. rewrite lookup_alter_eq. now destruct (m !! p).
Qed.

Lemma length_buffer_store m p q i x :
  length (buffer (store m p i x) q) = length (buffer m q).
Proof.
  destruct (decide (q = p)) as [->|Hq].
  - now rewrite buffer_store, length_insert.
  - now rewrite buffer_store_other.
Qed.

Lemma load_store_other m p q i j x :
  (q, j) <> (p, i) -> load (store m p i x) q j = load m q j.
Proof.
  intros Hne. unfold load. destruct (decide (q = p)) as [->|Hq].
  - rewrite buffer_store. unfold fget. rewrite list_lookup_insert_ne; [reflexivity|].
    intros ->. now apply Hne.
  - now rewrite buffer_store_other.
Qed.

Lemma load_store m p i x :
  (i < length (buffer m p))%nat -> load (store m p i x) p i = x.
Proof.
  intros Hi. unfold load. rewrite buffer_store. unfold fget.
  now rewrite list_lookup_insert_eq.
Qed.

Lemma fold_left_invariant {A B : Type} (f : A -> B -> A) (I : A -> Prop) (l : list B) (a : A) :
  I a -> (forall a x, In x l -> I a -> I (f a x)) -> I (fold_left f l a).
Proof.
  revert a. induction l as [|x l IH]; intros a Ha Hf; cbn; [exact Ha|].
  apply IH; [apply Hf; [now left|exact Ha]|]. intros a' y Hy. apply Hf. now right.
Qed.

(** *** The trimming helper *)

Lemma unpadded_scan_all_nan (vector : list float) (vector_length : Z) (n : nat) :
  (forall i, (i < n)%nat -> harp_isnan vector.[i] = true) ->
  unpadded_scan vector vector_length n = vector_length.
Proof.
  induction n as [|n IH]; intros Hnan; cbn [unpadded_scan]; [reflexivity|].
  rewrite (Hnan n) by lia. cbn [negb]. apply IH. intros i Hi. apply Hnan. lia.
Qed.

Lemma get_unpadded_vector_length_le (vector : list float) (vector_length : Z) :
  (Z.to_nat (get_unpadded_vector_length vector vector_length) <= Z.to_nat vector_length)%nat.
Proof.
  unfold get_unpadded_vector_length.
  assert (H : forall n, (n <= Z.to_nat vector_length)%nat ->
            (Z.to_nat (unpadded_scan vector vector_length n) <= Z.to_nat vector_length)%nat).
  { induction n as [|n IH]; intros Hn; cbn [unpadded_scan]; [lia|].
    destruct (negb (harp_isnan vector.[n])); [lia|]. apply IH. lia. }
  now apply H.
Qed.

(** *** Index arithmetic of the flattened buffer *)

Lemma digit_unique (a a' b c c' : nat) :
  (a * b + c = a' * b + c')%nat -> (c < b)%nat -> (c' < b)%nat -> a = a' /\ c = c'.
Proof.
  intros H Hc Hc'. apply (Nat.div_mod_unique b); [exact Hc|exact Hc'|]. lia.
Qed.

Lemma cell_unique (num_blocks max_vertical_elements k l i k' l' i' : nat) :
  ((k * num_blocks + l) * max_vertical_elements + i
   = (k' * num_blocks + l') * max_vertical_elements + i')%nat ->
  (l < num_blocks)%nat -> (l' < num_blocks)%nat ->
  (i < max_vertical_elements)%nat -> (i' < max_vertical_elements)%nat ->
  k = k' /\ l = l' /\ i = i'.
Proof.
  intros H Hl Hl' Hi Hi'.
  destruct (digit_unique _ _ _ _ _ H Hi Hi') as [H1 ->].
  destruct (digit_unique _ _ _ _ _ H1 Hl Hl') as [-> ->]. auto.
Qed.

(** *** What one call may write *)

(** [vector[i]] as the loop over [i] sees it. *)
Lemma smooth_vector_at (variable : harp_variable) (apriori : option harp_variable)
    (m : gmap address (list float)) (mve nve k blockoffset i : nat) :
  (i < nve)%nat ->
  (smooth_vector variable apriori m mve nve k blockoffset).[i]
  = match apriori with
    | None => load m (data variable) (blockoffset + i)
    | Some ap => load m (data variable) (blockoffset + i) - load m (data ap) (k * mve + i)
    end.
Proof.
  intros Hi. unfold smooth_vector.
  assert (Hv : (map (fun i => load m (data variable) (blockoffset + i)) (seq 0 nve)).[i]
               = load m (data variable) (blockoffset + i)).
  { unfold fget. rewrite list_lookup_fmap, lookup_seq_lt by exact Hi. reflexivity. }
  destruct apriori as [ap|]; [|exact Hv].
  unfold fget at 1. rewrite list_lookup_fmap, lookup_seq_lt by exact Hi. cbn.
  now rewrite Hv.
Qed.

Section Frame.
Variables variable averaging_kernel : harp_variable.
Variables vertical_axis apriori : option harp_variable.
Variable m0 : gmap address (list float).
Variable max_vertical_elements num_blocks : Z.

Local Abbreviation pv := (data variable).
Local Abbreviation mve := (Z.to_nat max_vertical_elements).
Local Abbreviation nb := (Z.to_nat num_blocks).

Local Abbreviation agrees_at := (agrees_at variable m0).

Lemma agrees_at_store (c0 c : nat) (x : float) (m : gmap address (list float)) :
  c <> c0 -> agrees_at c0 m -> agrees_at c0 (store m pv c x).
Proof using Type.
  intros Hc [Hq Hl]. split.
  - intros q Hne. rewrite store_other_buffer by exact Hne. now apply Hq.
  - rewrite load_store_other; [exact Hl|]. intros [= ]. congruence.
Qed.

Lemma smooth_level_agrees (c0 nve k blockoffset i : nat) (vector : list float)
    (m : gmap address (list float)) :
  (blockoffset + i)%nat <> c0 -> agrees_at c0 m ->
  agrees_at c0
    (smooth_level variable averaging_kernel apriori mve nve k blockoffset vector m i).
Proof using Type.
  intros Hc Hm. unfold smooth_level. cbv zeta.
  match goal with
  | |- context [fold_left ?f ?l ?a] =>
      pose proof (fold_left_invariant f (fun s => agrees_at c0 (fst s)) l a) as Hfold;
      destruct (fold_left f l a) as [m' num_valid]
  end.
  cbn [fst] in Hfold.
  assert (agrees_at c0 m') as Hm'.
  { apply Hfold; [now apply agrees_at_store|].
    intros [m1 nv] j _ H1. cbn [fst snd] in *.
    destruct (negb (harp_isnan vector.[j])); cbn [fst]; [now apply agrees_at_store|exact H1]. }
  destruct apriori as [ap|]; [now apply agrees_at_store|].
  destruct (num_valid =? 0)%Z; [now apply agrees_at_store|exact Hm'].
Qed.

(** A cell that no level the loops reach may claim keeps its value through
    the whole call. *)
Lemma smooth_rows_agree (c0 : nat) (rows : nat) :
  (forall m_r m_b k l i,
     agrees_at c0 m_r -> agrees_at c0 m_b -> (l < nb)%nat ->
     (i < Z.to_nat (row_num_vertical_elements vertical_axis m_r max_vertical_elements k))%nat ->
     harp_isnan
       (smooth_vector variable apriori m_b mve
          (Z.to_nat (row_num_vertical_elements vertical_axis m_r max_vertical_elements k))
          k ((k * nb + l) * mve)).[i] = false ->
     ((k * nb + l) * mve + i)%nat <> c0) ->
  agrees_at c0
    (fold_left
       (smooth_row variable vertical_axis averaging_kernel apriori
          max_vertical_elements num_blocks)
       (seq 0 rows) m0).
Proof using Type.
  intros Hsafe. apply fold_left_invariant; [split; auto|].
  intros m_r k _ Hr. unfold smooth_row. cbv zeta.
  apply fold_left_invariant; [exact Hr|].
  intros m_b l Hl Hb. apply in_seq in Hl. unfold smooth_block. cbv zeta.
  apply fold_left_invariant; [exact Hb|].
  intros m i Hi Hm. apply in_seq in Hi.
  destruct (harp_isnan _) eqn:Enan; cbn [negb]; [exact Hm|].
  apply smooth_level_agrees; [|exact Hm].
  apply (Hsafe m_r m_b k l i Hr Hb); [lia|lia|exact Enan].
Qed.

(** Every buffer but the variable's is left alone, whatever is aliased. *)
Lemma smooth_rows_other_buffers (rows : nat) (q : address) :
  q <> pv ->
  fold_left
    (smooth_row variable vertical_axis averaging_kernel apriori
       max_vertical_elements num_blocks)
    (seq 0 rows) m0 !! q = m0 !! q.
Proof using Type.
  intros Hq.
  enough (forall q, q <> pv ->
            fold_left
              (smooth_row variable vertical_axis averaging_kernel apriori
                 max_vertical_elements num_blocks)
              (seq 0 rows) m0 !! q = m0 !! q) as H by (now apply H).
  clear q Hq.
  apply (fold_left_invariant _ (fun m => forall q, q <> pv -> m !! q = m0 !! q));
    [auto|].
  intros m_r k _ Hr. unfold smooth_row. cbv zeta.
  apply (fold_left_invariant _ (fun m => forall q, q <> pv -> m !! q = m0 !! q));
    [exact Hr|].
  intros m_b l _ Hb. unfold smooth_block. cbv zeta.
  apply (fold_left_invariant _ (fun m => forall q, q <> pv -> m !! q = m0 !! q));
    [exact Hb|].
  intros m i _ Hm.
  destruct (negb (harp_isnan _)); [|exact Hm].
  unfold smooth_level. cbv zeta.
  match goal with
  | |- context [fold_left ?f ?l ?a] =>
      pose proof (fold_left_invariant f
                    (fun s => forall q, q <> pv -> fst s !! q = m0 !! q) l a) as Hfold;
      destruct (fold_left f l a) as [m' num_valid]
  end.
  cbn [fst] in Hfold.
  assert (forall q, q <> pv -> m' !! q = m0 !! q) as Hm'.
  { apply Hfold.
    - intros q Hq. rewrite store_other_buffer by exact Hq. now apply Hm.
    - intros [m1 nv] j _ H1. cbn [fst snd] in *.
      destruct (negb (harp_isnan _)); cbn [fst]; [|exact H1].
      intros q Hq. rewrite store_other_buffer by exact Hq. now apply H1. }
  destruct apriori as [ap|].
  - intros q Hq. rewrite store_other_buffer by exact Hq. now apply Hm'.
  - destruct (num_valid =? 0)%Z; [|exact Hm'].
    intros q Hq. rewrite store_other_buffer by exact Hq. now apply Hm'.
Qed.

End Frame.

Lemma row_count_le (vertical_axis : option harp_variable) (m : gmap address (list float))
    (max_vertical_elements : Z) (k : nat) :
  (Z.to_nat (row_num_vertical_elements vertical_axis m max_vertical_elements k)
   <= Z.to_nat max_vertical_elements)%nat.
Proof.
  destruct vertical_axis as [ax|]; cbn [row_num_vertical_elements]; [|lia].
  apply get_unpadded_vector_length_le.
Qed.

Lemma row_count_agree (variable : harp_variable) (vertical_axis : option harp_variable)
    (m m0 : gmap address (list float)) (max_vertical_elements : Z) (k : nat) :
  (forall ax, vertical_axis = Some ax -> data ax <> data variable) ->
  (forall q, q <> data variable -> m !! q = m0 !! q) ->
  row_num_vertical_elements vertical_axis m max_vertical_elements k
  = row_num_vertical_elements vertical_axis m0 max_vertical_elements k.
Proof.
  intros Hax Hm. destruct vertical_axis as [ax|]; cbn [row_num_vertical_elements]; [|reflexivity].
  unfold buffer. now rewrite (Hm (data ax) (Hax ax eq_refl)).
Qed.

Lemma smooth_vertical_validate_inr
    (variable vertical_axis averaging_kernel apriori : option harp_variable)
    (v a : harp_variable) :
  smooth_vertical_validate variable vertical_axis averaging_kernel apriori = inr (v, a) ->
  variable = Some v /\ averaging_kernel = Some a.
Proof.
  unfold smooth_vertical_validate.
  destruct variable as [v'|]; [|discriminate].
  destruct averaging_kernel as [a'|]; [|discriminate].
  repeat match goal with
         | |- context [if ?c then inl _ else _] => destruct c; [discriminate|]
         end.
  repeat match goal with
         | |- context [match ?c with Some _ => inl _ | None => _ end] =>
             destruct c; [discriminate|]
         end.
  intros [= -> ->]. auto.
Qed.

(** *** Smoothing with the identity kernel *)

Lemma store_store m p c a b : store (store m p c a) p c b = store m p c b.
Proof.
  apply map_eq. intros q. unfold store. destruct (decide (q = p)) as [->|Hq].
  - rewrite !lookup_alter_eq. destruct (m !! p) as [buf|]; cbn; [|reflexivity].
    now rewrite list_insert_insert_eq.
  - now rewrite !lookup_alter_ne.
Qed.

Lemma cell_in_bounds (rows num_blocks max_vertical_elements k l i : nat) :
  (k < rows)%nat -> (l < num_blocks)%nat -> (i < max_vertical_elements)%nat ->
  ((k * num_blocks + l) * max_vertical_elements + i
   < rows * num_blocks * max_vertical_elements)%nat.
Proof.
  intros Hk Hl Hi.
  assert ((k * num_blocks + l) + 1 <= rows * num_blocks)%nat as H1 by nia.
  assert (((k * num_blocks + l) + 1) * max_vertical_elements
          <= rows * num_blocks * max_vertical_elements)%nat as H2
    by (apply Nat.mul_le_mono_r; exact H1).
  lia.
Qed.

Section Identity.
Variables variable averaging_kernel : harp_variable.
Variable apriori : option harp_variable.
Variable m0 : gmap address (list float).
Variables rows mve nb : nat.

Local Abbreviation pv := (data variable).

Hypothesis avk_own_buffer : data averaging_kernel <> pv.
Hypothesis apriori_own_buffer : forall ap, apriori = Some ap -> data ap <> pv.
Hypothesis avk_identity :
  forall k i j, (k < rows)%nat -> (i < mve)%nat -> (j < mve)%nat ->
    load m0 (data averaging_kernel) ((k * mve + i) * mve + j)
    = if decide (i = j) then 1 else 0.
Hypothesis apriori_zero :
  forall ap, apriori = Some ap ->
  forall k i, (k < rows)%nat -> (i < mve)%nat ->
    is_zero_double (load m0 (data ap) (k * mve + i)) = true.
Hypothesis no_infinity : forall c, is_infinity (load m0 pv c) = false.
Hypothesis buffer_large : (rows * nb * mve <= length (buffer m0 pv))%nat.

Local Abbreviation unchanged_alike := (unchanged_alike variable m0).

Lemma unchanged_alike_store m c x :
  (c < length (buffer m0 pv))%nat ->
  unchanged_alike m -> alike x (load m0 pv c) -> unchanged_alike (store m pv c x).
Proof using All.
  intros Hc (Hq & Hlen & Hv) Hx. split; [|split].
  - intros q Hne. rewrite store_other_buffer by exact Hne. now apply Hq.
  - now rewrite length_buffer_store.
  - intros c'. destruct (decide (c' = c)) as [->|Hne].
    + rewrite load_store by lia. exact Hx.
    + rewrite load_store_other; [apply Hv|]. intros [= ]. congruence.
Qed.

(** The loop over [j] accumulates in one cell; its result is a fold over
    doubles. *)
Lemma smooth_level_accumulates m c off (vector : list float) (l : list nat) a n :
  (c < length (buffer m pv))%nat ->
  fold_left
    (fun (s : gmap address (list float) * Z) (j : nat) =>
       if negb (harp_isnan vector.[j])
       then (store (fst s) pv c
               (load (fst s) pv c + load (fst s) (data averaging_kernel) (off + j) * vector.[j]),
             (snd s + 1)%Z)
       else s)
    l (store m pv c a, n)
  = (store m pv c
       (fold_left
          (fun acc j =>
             if negb (harp_isnan vector.[j])
             then acc + load m (data averaging_kernel) (off + j) * vector.[j]
             else acc) l a),
     fold_left (fun n j => if negb (harp_isnan vector.[j]) then (n + 1)%Z else n) l n).
Proof using All.
  intros Hc. revert a n. induction l as [|j l IH]; intros a n; cbn [fold_left]; [reflexivity|].
  destruct (negb (harp_isnan vector.[j])); cbn [fst snd]; [|apply IH].
  rewrite load_store by exact Hc.
  rewrite load_store_other by (intros [= ]; congruence).
  rewrite store_store. apply IH.
Qed.

Lemma smooth_level_stores nve k blockoffset (vector : list float) m i :
  (blockoffset + i < length (buffer m pv))%nat ->
  smooth_level variable averaging_kernel apriori mve nve k blockoffset vector m i
  = store m pv (blockoffset + i)
      (let sum :=
         fold_left
           (fun acc j =>
              if negb (harp_isnan vector.[j])
              then acc + load m (data averaging_kernel) ((k * mve + i) * mve + j) * vector.[j]
              else acc) (seq 0 nve) 0 in
       let num_valid :=
         fold_left (fun n j => if negb (harp_isnan vector.[j]) then (n + 1)%Z else n)
                   (seq 0 nve) 0%Z in
       match apriori with
       | Some ap => sum + load m (data ap) (k * mve + i)
       | None => if (num_valid =? 0)%Z then harp_nan else sum
       end).
Proof using All.
  intros Hc. unfold smooth_level. cbv zeta.
  rewrite smooth_level_accumulates by exact Hc.
  destruct apriori as [ap|] eqn:Eap.
  - rewrite load_store by exact Hc.
    rewrite load_store_other by (intros [= ]; now apply (apriori_own_buffer ap)).
    now rewrite store_store.
  - destruct (_ =? 0)%Z; [now rewrite store_store|reflexivity].
Qed.

(** Row [i] of the identity picks [vector[i]] out of the sum. *)
Lemma identity_row_sum (row : nat -> float) (vector : list float) (nve i n : nat) :
  (i < nve)%nat -> (n <= nve)%nat ->
  (forall j, (j < nve)%nat -> row j = if decide (i = j) then 1 else 0) ->
  (forall j, (j < nve)%nat -> is_infinity vector.[j] = false) ->
  harp_isnan vector.[i] = false ->
  let sum :=
    fold_left (fun acc j => if negb (harp_isnan vector.[j]) then acc + row j * vector.[j] else acc)
              (seq 0 n) 0 in
  let num_valid :=
    fold_left (fun n j => if negb (harp_isnan vector.[j]) then (n + 1)%Z else n)
              (seq 0 n) 0%Z in
  ((n <= i)%nat -> is_zero_double sum = true)
  /\ ((i < n)%nat -> alike sum vector.[i] /\ (1 <= num_valid)%Z)
  /\ (0 <= num_valid)%Z.
Proof using All.
  intros Hi Hn Hrow Hinf Hnan. induction n as [|n IH]; cbv zeta.
  - cbn. repeat split; [lia| lia |lia].
  - rewrite !seq_S, !fold_left_app. cbn [fold_left Nat.add].
    destruct (IH ltac:(lia)) as (Hz & Ha & Hnv). cbv zeta in Hz, Ha, Hnv.
    set (sum := fold_left _ (seq 0 n) 0) in *.
    set (num_valid := fold_left _ (seq 0 n) 0%Z) in *.
    destruct (harp_isnan vector.[n]) eqn:En; cbn [negb].
    + repeat split; [intros; apply Hz; lia | apply Ha | apply Ha | exact Hnv].
      all: assert (n <> i) by (intros ->; congruence); lia.
    + rewrite (Hrow n) by lia. destruct (decide (i = n)) as [->|Hne].
      * rewrite Binary64.mul_one_l.
        repeat split; [lia | | lia | lia].
        apply Binary64.add_zero_l_alike. apply Hz. lia.
      * assert (is_zero_double (0 * vector.[n]) = true) as Hterm
          by (apply Binary64.mul_zero_l; [exact En|apply Hinf; lia]).
        repeat split.
        -- intros Hle. apply Binary64.add_zeros; [apply Hz; lia|exact Hterm].
        -- eapply Binary64.alike_trans; [apply Binary64.add_zero_r_alike; exact Hterm|].
           apply Ha. lia.
        -- destruct (Ha ltac:(lia)). lia.
        -- lia.
Qed.

Lemma smooth_level_identity nve k l (vector : list float) m i :
  unchanged_alike m ->
  (k < rows)%nat -> (l < nb)%nat -> (i < nve)%nat -> (nve <= mve)%nat ->
  harp_isnan vector.[i] = false ->
  (forall j, (j < nve)%nat -> is_infinity vector.[j] = false) ->
  alike vector.[i] (load m0 pv ((k * nb + l) * mve + i)) ->
  unchanged_alike
    (smooth_level variable averaging_kernel apriori mve nve k ((k * nb + l) * mve) vector m i).
Proof using All.
  intros Hm Hk Hl Hi Hnve Hnan Hinf Hvec.
  pose proof (cell_in_bounds rows nb mve k l i Hk Hl ltac:(lia)) as Hcell.
  destruct Hm as (Hq & Hlen & Hv).
  rewrite smooth_level_stores by lia.
  apply unchanged_alike_store; [lia|now split|].
  cbv zeta.
  destruct (identity_row_sum
              (fun j => load m (data averaging_kernel) ((k * mve + i) * mve + j))
              vector nve i nve Hi ltac:(lia)) as (_ & Hsum & _); auto.
  { intros j Hj. unfold load, buffer. rewrite (Hq _ avk_own_buffer).
    apply (avk_identity k i j); lia. }
  cbv zeta in Hsum. destruct (Hsum Hi) as [Halike Hnv].
  destruct apriori as [ap|] eqn:Eap.
  - eapply Binary64.alike_trans; [|exact Hvec].
    eapply Binary64.alike_trans; [|exact Halike].
    apply Binary64.add_zero_r_alike.
    unfold load, buffer. rewrite (Hq _ (apriori_own_buffer ap eq_refl)).
    apply (apriori_zero ap eq_refl k i); lia.
  - destruct (_ =? 0)%Z eqn:E0; [apply Z.eqb_eq in E0; lia|].
    eapply Binary64.alike_trans; [exact Halike|exact Hvec].
Qed.

Lemma smooth_block_identity nve k m l :
  unchanged_alike m -> (k < rows)%nat -> (l < nb)%nat -> (nve <= mve)%nat ->
  unchanged_alike (smooth_block variable averaging_kernel apriori mve nve nb k m l).
Proof using All.
  intros Hm Hk Hl Hnve. unfold smooth_block. cbv zeta.
  set (vector := smooth_vector variable apriori m mve nve k ((k * nb + l) * mve)).
  assert (Hvec : forall j, (j < nve)%nat ->
            alike vector.[j] (load m0 pv ((k * nb + l) * mve + j))).
  { intros j Hj. unfold vector. rewrite smooth_vector_at by exact Hj.
    destruct Hm as (Hq & _ & Hv).
    destruct apriori as [ap|] eqn:Eap; [|apply Hv].
    eapply Binary64.alike_trans; [|apply Hv].
    apply Binary64.sub_zero_alike.
    unfold load, buffer. rewrite (Hq _ (apriori_own_buffer ap eq_refl)).
    apply (apriori_zero ap eq_refl k j); lia. }
  apply fold_left_invariant; [exact Hm|].
  intros m' i Hi Hm'. apply in_seq in Hi.
  destruct (harp_isnan vector.[i]) eqn:Enan; cbn [negb]; [exact Hm'|].
  apply smooth_level_identity; auto; [lia| |apply Hvec; lia].
  intros j Hj. rewrite (Binary64.alike_is_infinity _ _ (Hvec j Hj)). apply no_infinity.
Qed.

Lemma smooth_rows_identity (vertical_axis : option harp_variable)
    (max_vertical_elements num_blocks : Z) :
  mve = Z.to_nat max_vertical_elements -> nb = Z.to_nat num_blocks ->
  unchanged_alike
    (fold_left
       (smooth_row variable vertical_axis averaging_kernel apriori
          max_vertical_elements num_blocks)
       (seq 0 rows) m0).
Proof using All.
  intros Hmve Hnb. apply fold_left_invariant.
  - split; [auto|split; [reflexivity|intros c; apply Binary64.alike_refl]].
  - intros m_r k Hk Hr. apply in_seq in Hk. unfold smooth_row. cbv zeta.
    apply fold_left_invariant; [exact Hr|].
    intros m_b l Hl Hb. apply in_seq in Hl. rewrite <- Hmve, <- Hnb.
    apply smooth_block_identity; auto; [lia|lia|].
    rewrite Hmve. apply row_count_le.
Qed.

End Identity.

Lemma blocks_fit (num_elements rows max_vertical_elements : Z) :
  (0 <= num_elements)%Z -> (0 < rows)%Z -> (0 < max_vertical_elements)%Z ->
  (Z.to_nat rows * Z.to_nat ((num_elements ÷ rows) ÷ max_vertical_elements)
   * Z.to_nat max_vertical_elements <= Z.to_nat num_elements)%nat.
Proof.
  intros Hn Hr Hm.
  rewrite (Z.quot_div_nonneg num_elements rows) by lia.
  assert (0 <= num_elements / rows)%Z as Hq by (apply Z.div_pos; lia).
  rewrite (Z.quot_div_nonneg (num_elements / rows) max_vertical_elements) by lia.
  assert (0 <= num_elements / rows / max_vertical_elements)%Z as Hq2
    by (apply Z.div_pos; lia).
  pose proof (Z.mul_div_le num_elements rows Hr) as H1.
  pose proof (Z.mul_div_le (num_elements / rows) max_vertical_elements Hm) as H2.
  rewrite <- !Z2Nat.inj_mul by lia. apply Z2Nat.inj_le; [nia|lia|nia].
Qed.

Lemma smooth_vertical_validate_error
    (variable vertical_axis averaging_kernel apriori : option harp_variable) (e : harp_error) :
  smooth_vertical_validate variable vertical_axis averaging_kernel apriori = inl e ->
  exists message, e = HARP_ERROR_INVALID_ARGUMENT message.
Proof.
  unfold smooth_vertical_validate.
  destruct variable as [v|]; [|intros [= <-]; eauto].
  destruct averaging_kernel as [a|]; [|intros [= <-]; eauto].
  repeat match goal with
         | |- context [if ?c then inl _ else _] => destruct c; [intros [= <-]; eauto|]
         end.
  destruct apriori as [ap|];
    repeat match goal with
           | |- context [if ?c then Some _ else _] => destruct c; [intros [= <-]; eauto|]
           end;
    destruct vertical_axis as [ax|];
    repeat match goal with
           | |- context [if ?c then Some _ else _] => destruct c; [intros [= <-]; eauto|]
           end;
    discriminate.
Qed.

End SmoothFacts.

Section SmoothClaims.
Local Open Scope float_scope.

(** C7. Whenever [harp_variable_smooth_vertical] returns -1 the buffers are
    those of the call: every validation failure and the allocation failure
    only set the error state (to an invalid-argument error or to out of
    memory) and return before anything is written. *)
Theorem smooth_vertical_error_leaves_buffers
    (variable vertical_axis averaging_kernel apriori : option harp_variable) (w w' : world) :
  harp_variable_smooth_vertical variable vertical_axis averaging_kernel apriori w
  = ((-1)%Z, w') ->
  mem w' = mem w
  /\ mem_int32 w' = mem_int32 w
  /\ malloc_ok w' = malloc_ok w
  /\ ((exists message, harp_errno w' = Some (HARP_ERROR_INVALID_ARGUMENT message))
      \/ harp_errno w' = Some HARP_ERROR_OUT_OF_MEMORY).
Proof.
  unfold harp_variable_smooth_vertical.
  destruct (smooth_vertical_validate variable vertical_axis averaging_kernel apriori)
    as [e|[v avk]] eqn:Ev.
  - intros [= <-]. repeat split.
    apply smooth_vertical_validate_error in Ev as [message ->]. left. now exists message.
  - cbv zeta. destruct (negb (malloc_ok w _)).
    + intros [= <-]. repeat split. now right.
    + intros [= ]. 
Qed.

(** A call with a NULL variable fails and leaves the buffers alone. *)
Lemma smooth_vertical_error_leaves_buffers_witness :
  let w := {| mem := {[ 1%positive := [1; 2] ]}; mem_int32 := ∅; harp_errno := None;
              malloc_ok := fun _ => true |} in
  mem (snd (harp_variable_smooth_vertical None None None None w)) = mem w.
Proof.
  intros w.
  exact (proj1 (smooth_vertical_error_leaves_buffers None None None None w
                  (snd (harp_variable_smooth_vertical None None None None w)) eq_refl)).
Defined.

(** C10. On a successful call the operator writes only to the variable's
    buffer, and the error state is untouched.  With the vertical axis and the
    a priori in buffers of their own, an element at or beyond its row's
    valid-level count keeps its value, and so does an element whose
    a-priori-subtracted value is NaN.  Cell [(k * num_blocks + l) *
    max_vertical_elements + i] is level [i] of block [l] of time row [k]. *)
Theorem smooth_vertical_writes_only_valid_levels
    (variable averaging_kernel : harp_variable)
    (vertical_axis apriori : option harp_variable) (w w' : world) :
  harp_variable_smooth_vertical
    (Some variable) vertical_axis (Some averaging_kernel) apriori w = (0%Z, w') ->
  let max_vertical_elements := dimension_at averaging_kernel 1 in
  let mve := Z.to_nat max_vertical_elements in
  let nb :=
    Z.to_nat ((num_elements variable ÷ dimension_at variable 0) ÷ max_vertical_elements) in
  let count (k : nat) :=
    Z.to_nat (row_num_vertical_elements vertical_axis (mem w) max_vertical_elements k) in
  let cell (k l i : nat) := ((k * nb + l) * mve + i)%nat in
  let subtracted (k l i : nat) :=
    match apriori with
    | None => load (mem w) (data variable) (cell k l i)
    | Some ap =>
        load (mem w) (data variable) (cell k l i) - load (mem w) (data ap) (k * mve + i)
    end in
  let own_buffers :=
    (forall ax, vertical_axis = Some ax -> data ax <> data variable)
    /\ (forall ap, apriori = Some ap -> data ap <> data variable) in
  (forall q, q <> data variable -> mem w' !! q = mem w !! q)
  /\ harp_errno w' = harp_errno w
  /\ (own_buffers ->
      forall k l i, (l < nb)%nat -> (count k <= i < mve)%nat ->
        load (mem w') (data variable) (cell k l i) = load (mem w) (data variable) (cell k l i))
  /\ (own_buffers ->
      forall k l i, (l < nb)%nat -> (i < mve)%nat ->
        harp_isnan (subtracted k l i) = true ->
        load (mem w') (data variable) (cell k l i) = load (mem w) (data variable) (cell k l i)).
Proof.
  unfold harp_variable_smooth_vertical.
  destruct (smooth_vertical_validate _ _ _ _) as [e|[v a]] eqn:Ev; [discriminate|].
  apply smooth_vertical_validate_inr in Ev as [[= <-] [= <-]].
  cbv zeta. destruct (negb (malloc_ok w _)); [discriminate|].
  intros [= <-]. cbn [mem harp_errno with_mem].
  split; [|split; [reflexivity|split]].
  - intros q Hq. now apply smooth_rows_other_buffers.
  - intros [Hax Hap] k0 l0 i0 Hl0 Hi0.
    apply smooth_rows_agree. intros m_r m_b k l i [Hr _] _ Hl Hi _ Heq.
    pose proof (row_count_le vertical_axis m_r (dimension_at averaging_kernel 1) k) as Hle.
    destruct (cell_unique _ _ _ _ _ _ _ _ Heq Hl Hl0 ltac:(lia) ltac:(lia)) as (-> & -> & ->).
    rewrite (row_count_agree variable vertical_axis m_r (mem w)) in Hi by assumption.
    lia.
  - intros [Hax Hap] k0 l0 i0 Hl0 Hi0 Hnan.
    apply smooth_rows_agree. intros m_r m_b k l i [Hr _] [Hb Hc] Hl Hi Hvec Heq.
    pose proof (row_count_le vertical_axis m_r (dimension_at averaging_kernel 1) k) as Hle.
    destruct (cell_unique _ _ _ _ _ _ _ _ Heq Hl Hl0 ltac:(lia) ltac:(lia)) as (-> & -> & ->).
    rewrite smooth_vector_at in Hvec by exact Hi.
    destruct apriori as [ap|].
    + unfold load at 2 in Hvec. unfold buffer in Hvec.
      rewrite (Hb (data ap) (Hap ap eq_refl)) in Hvec.
      rewrite Hc in Hvec. unfold load at 2 in Hnan. unfold buffer in Hnan. congruence.
    + rewrite Hc in Hvec. congruence.
Qed.

(** A call of [example_variable] with the identity kernel and the zero a
    priori succeeds, leaves the kernel's buffer alone and keeps the error
    state. *)
Lemma smooth_vertical_writes_only_valid_levels_witness :
  let w := example_world [1; 2] [10; nan] in
  let w' := snd (harp_variable_smooth_vertical (Some example_variable) (Some example_axis)
                   (Some example_avk) (Some example_apriori) w) in
  mem w' !! 2%positive = mem w !! 2%positive /\ harp_errno w' = harp_errno w.
Proof.
  intros w w'.
  assert (Hcall : harp_variable_smooth_vertical (Some example_variable) (Some example_axis)
                    (Some example_avk) (Some example_apriori) w = (0%Z, w'))
    by (vm_compute; reflexivity).
  destruct (smooth_vertical_writes_only_valid_levels example_variable example_avk
              (Some example_axis) (Some example_apriori) w w' Hcall) as (H1 & H2 & _).
  split; [apply H1; discriminate|exact H2].
Defined.

(** C6 as stated fails: with the profile [1, +inf], the identity kernel and
    an all-zero a priori the call returns 0 and turns the first element,
    1, into NaN (0 * inf is NaN and enters its sum). *)
Lemma identity_smoothing_spoils_profile_with_infinity :
  let w := example_world [1; infinity] [] in
  let result := harp_variable_smooth_vertical (Some example_variable) None
                  (Some example_avk) (Some example_apriori) w in
  fst result = 0%Z
  /\ load (mem w) 1%positive 0 = 1
  /\ harp_isnan (load (mem (snd result)) 1%positive 0) = true
  /\ same_double (load (mem (snd result)) 1%positive 0) (load (mem w) 1%positive 0) = false.
Proof. repeat split; vm_compute; reflexivity. Qed.

(** C6 (amended). Let the arguments pass the structural validation (a double
    variable of shape {time,...,vertical}, a double kernel of shape
    {time,vertical,vertical} of matching extents, an optional a priori and an
    optional vertical axis of shape {time,vertical}), the time and vertical
    extents be positive, the allocation succeed, the variable's buffer hold
    its [num_elements] elements and be shared neither with the kernel nor with
    the a priori.  If the kernel is the identity in every time row, the a
    priori (if any) is zero everywhere, and NO ELEMENT OF THE VARIABLE IS AN
    INFINITY, the call returns 0 and every element of the variable's buffer
    equals its input value as a double (NaN stays NaN, a zero may change
    sign), for any per-row valid-level count; the other buffers are
    untouched. *)
Theorem identity_smoothing_preserves_variable
    (variable averaging_kernel : harp_variable)
    (vertical_axis apriori : option harp_variable) (w : world) :
  let rows := Z.to_nat (dimension_at variable 0) in
  let mve := Z.to_nat (dimension_at averaging_kernel 1) in
  smooth_vertical_validate (Some variable) vertical_axis (Some averaging_kernel) apriori
  = inr (variable, averaging_kernel) ->
  malloc_ok w (dimension_at averaging_kernel 1 * 8)%Z = true ->
  (0 < dimension_at variable 0)%Z ->
  (0 < dimension_at averaging_kernel 1)%Z ->
  (0 <= num_elements variable)%Z ->
  length (buffer (mem w) (data variable)) = Z.to_nat (num_elements variable) ->
  data averaging_kernel <> data variable ->
  (forall ap, apriori = Some ap -> data ap <> data variable) ->
  (forall k i j, (k < rows)%nat -> (i < mve)%nat -> (j < mve)%nat ->
     load (mem w) (data averaging_kernel) ((k * mve + i) * mve + j)
     = if decide (i = j) then 1 else 0) ->
  (forall ap, apriori = Some ap ->
   forall k i, (k < rows)%nat -> (i < mve)%nat ->
     is_zero_double (load (mem w) (data ap) (k * mve + i)) = true) ->
  (forall c, is_infinity (load (mem w) (data variable) c) = false) ->
  exists w',
    harp_variable_smooth_vertical (Some variable) vertical_axis (Some averaging_kernel)
      apriori w = (0%Z, w')
    /\ (forall c, same_double (load (mem w') (data variable) c)
                              (load (mem w) (data variable) c) = true)
    /\ (forall q, q <> data variable -> mem w' !! q = mem w !! q).
Proof.
  intros rows mve Hvalid Hmalloc Hrows Hmve Hne Hlen Havk Hap Hid Hzero Hinf.
  unfold harp_variable_smooth_vertical. rewrite Hvalid. cbv zeta.
  rewrite Hmalloc. cbn [negb].
  eexists. split; [reflexivity|]. cbn [mem with_mem].
  destruct (smooth_rows_identity variable averaging_kernel apriori (mem w) rows mve
              (Z.to_nat ((num_elements variable ÷ dimension_at variable 0)
                         ÷ dimension_at averaging_kernel 1))
              Havk Hap Hid Hzero Hinf
              ltac:(rewrite Hlen; now apply blocks_fit)
              vertical_axis (dimension_at averaging_kernel 1)
              ((num_elements variable ÷ dimension_at variable 0)
               ÷ dimension_at averaging_kernel 1) eq_refl eq_refl)
    as (Hq & _ & Hv).
  split; [|exact Hq].
  intros c. apply Binary64.alike_same_double. apply Hv.
Qed.

(** The instance, with the profile [1, NaN] and the axis [10, 20]. *)
Lemma identity_smoothing_preserves_variable_witness :
  let w := example_world [1; nan] [10; 20] in
  exists w',
    harp_variable_smooth_vertical (Some example_variable) (Some example_axis)
      (Some example_avk) (Some example_apriori) w = (0%Z, w')
    /\ (forall c, same_double (load (mem w') (data example_variable) c)
                              (load (mem w) (data example_variable) c) = true)
    /\ (forall q, q <> data example_variable -> mem w' !! q = mem w !! q).
Proof.
  intros w.
  apply (identity_smoothing_preserves_variable example_variable example_avk
           (Some example_axis) (Some example_apriori) w).
  - vm_compute; reflexivity.
  - reflexivity.
  - reflexivity.
  - reflexivity.
  - discriminate.
  - reflexivity.
  - discriminate.
  - intros ap [= <-]. discriminate.
  - intros k i j Hk Hi Hj.
    destruct k as [|k]; [|exfalso; vm_compute in Hk; lia].
    destruct i as [|[|i]]; [| |exfalso; vm_compute in Hi; lia];
      (destruct j as [|[|j]]; [| |exfalso; vm_compute in Hj; lia]); vm_compute; reflexivity.
  - intros ap [= <-] k i Hk Hi.
    destruct k as [|k]; [|exfalso; vm_compute in Hk; lia].
    destruct i as [|[|i]]; [| |exfalso; vm_compute in Hi; lia]; vm_compute; reflexivity.
  - intros c. destruct c as [|[|c]]; vm_compute; reflexivity.
Defined.

End SmoothClaims.

(** ** The dataset orchestrators *)

Section OrchestratorFacts.
Context `{Collaborators}.

Lemma same_product_buffers_refl (product : harp_product) (w : world) :
  same_product_buffers product w w.
Proof. intros v _. split; reflexivity. Qed.

Lemma same_product_buffers_trans (product : harp_product) (w1 w2 w3 : world) :
  same_product_buffers product w1 w2 -> same_product_buffers product w2 w3 ->
  same_product_buffers product w1 w3.
Proof.
  intros H12 H23 v Hv. destruct (H12 v Hv) as [Ha Hb], (H23 v Hv) as [Hc Hd].
  split; congruence.
Qed.

Lemma same_product_buffers_set_error (product : harp_product) (w : world) (e : harp_error) :
  same_product_buffers product w (harp_set_error w e).
Proof. intros v _. split; reflexivity. Qed.

(** A missing or empty product of dataset B: the iteration goes on with the
    locals it had and the world the collaborator left; nothing is cleaned up
    and no error is set. *)
Lemma dataset_iteration_skip (filtered : harp_collocation_result)
    (derive_and_merge :
       option harp_product -> option harp_variable -> harp_product -> world -> loop_outcome)
    (merged_product : option harp_product) (variable : option harp_variable)
    (i : nat) (w : world) (collocated_product : option harp_product) :
  fst (harp_collocation_result_get_filtered_product_b filtered
         (default EmptyString (source_product (dataset_b filtered) !! i)) w)
  = Some collocated_product ->
  skipped collocated_product ->
  dataset_iteration filtered derive_and_merge merged_product variable i w
  = inr (merged_product, variable,
         snd (harp_collocation_result_get_filtered_product_b filtered
                (default EmptyString (source_product (dataset_b filtered) !! i)) w)).
Proof.
  intros Hget Hskip. unfold dataset_iteration, attempt.
  destruct (harp_collocation_result_get_filtered_product_b filtered _ w) as [r w1].
  cbn [fst snd] in *. subst r.
  destruct collocated_product as [cp|]; [|reflexivity].
  cbn [skipped] in Hskip. now rewrite Hskip.
Qed.

Lemma dataset_loop_all_skipped (product : harp_product) (filtered : harp_collocation_result)
    (derive_and_merge :
       option harp_product -> option harp_variable -> harp_product -> world -> loop_outcome)
    (merged_product : option harp_product) (variable : option harp_variable)
    (count i : nat) (w : world) :
  every_product_b_skipped filtered ->
  (i + count <= Z.to_nat (num_products (dataset_b filtered)))%nat ->
  exists w',
    dataset_loop filtered derive_and_merge merged_product variable i count w
    = inr (merged_product, variable, w')
    /\ (readers_preserve product -> same_product_buffers product w w').
Proof.
  intros Hall. revert i w. induction count as [|count IH]; intros i w Hi; cbn [dataset_loop].
  - exists w. split; [reflexivity|]. intros _. apply same_product_buffers_refl.
  - destruct (Hall i w ltac:(lia)) as (cp & Hget & Hskip).
    rewrite (dataset_iteration_skip _ _ _ _ _ _ _ Hget Hskip).
    destruct (IH (S i)
                (snd (harp_collocation_result_get_filtered_product_b filtered
                        (default EmptyString (source_product (dataset_b filtered) !! i)) w))
                ltac:(lia)) as (w' & Hloop & Hsame).
    exists w'. split; [exact Hloop|].
    intros Hpres. eapply same_product_buffers_trans; [|now apply Hsame].
    apply Hpres.
Qed.

End OrchestratorFacts.

Section OrchestratorClaims.
Context `{Collaborators}.

(** C8. In both dataset orchestrators every product of dataset B that is
    delivered missing (NULL) or empty is skipped, whatever the other products
    are: the iteration ends with the locals unchanged, in the world the
    collaborator that delivered the product left (the orchestrator sets no
    error and cleans nothing up), and the loop goes on with the next product.
    When the checks before the loop pass and no product survives, every
    product of dataset B being skipped, each orchestrator returns -1 with the
    invalid-argument error "collocated dataset does not contain any matching
    pairs", hands back the source product it was given and, the collaborators
    that ran being readers of the source product, leaves the buffers of its
    variables as they were. *)
Theorem dataset_without_surviving_product_fails
    (product : harp_product) (num_smooth_variables : Z) (smooth_variables : list string)
    (nm unit_name : string) (num_dimensions : Z) (dimension_type : list harp_dimension_type)
    (vertical_axis vertical_unit : string) (collocation_result : harp_collocation_result)
    (collocation_index : harp_variable) (copied filtered : harp_collocation_result)
    (w w1 w2 : world) :
  product_dimension product harp_dimension_vertical <> 0%Z ->
  (forall i, (i < Z.to_nat num_smooth_variables)%nat ->
     harp_product_has_variable product (default EmptyString (smooth_variables !! i)) = true) ->
  (num_dimensions <> 0 /\ num_dimensions < HARP_NUM_DIM_TYPES)%Z ->
  dimension_type !! 0%nat = Some harp_dimension_time ->
  harp_product_get_variable_by_name product "collocation_index" w
  = (Some collocation_index, w) ->
  harp_collocation_result_shallow_copy collocation_result w = (Some copied, w1) ->
  harp_collocation_result_filter_for_collocation_indices copied
    (num_elements collocation_index) (data collocation_index) w1 = (Some filtered, w2) ->
  num_pairs filtered = num_elements collocation_index ->
  let no_matching_pairs :=
    HARP_ERROR_INVALID_ARGUMENT "collocated dataset does not contain any matching pairs" in
  (forall any_filtered derive_and_merge merged_product variable i count w0 collocated_product,
     let delivered :=
       harp_collocation_result_get_filtered_product_b any_filtered
         (default EmptyString (source_product (dataset_b any_filtered) !! i)) w0 in
     fst delivered = Some collocated_product ->
     skipped collocated_product ->
     dataset_iteration any_filtered derive_and_merge merged_product variable i w0
     = inr (merged_product, variable, snd delivered)
     /\ dataset_loop any_filtered derive_and_merge merged_product variable i (S count) w0
        = dataset_loop any_filtered derive_and_merge merged_product variable (S i) count
            (snd delivered))
  /\ (every_product_b_skipped filtered ->
      (exists w',
         harp_product_smooth_vertical_with_collocated_dataset product num_smooth_variables
           smooth_variables vertical_axis vertical_unit collocation_result w
         = ((-1)%Z, product, w')
         /\ harp_errno w' = Some no_matching_pairs
         /\ (readers_preserve product -> same_product_buffers product w w'))
      /\ (exists w',
            harp_product_get_smoothed_column_using_collocated_dataset product nm unit_name
              num_dimensions dimension_type vertical_axis vertical_unit collocation_result w
            = ((-1)%Z, product, None, w')
            /\ harp_errno w' = Some no_matching_pairs
            /\ (readers_preserve product -> same_product_buffers product w w'))).
Proof.
  intros Hvert Hvars [Hnd0 Hnd] Htime Hci Hcopy Hfilter Hpairs no_matching_pairs.
  split.
  { intros fl dm merged variable i count w0 cp delivered Hget Hskip.
    pose proof (dataset_iteration_skip fl dm merged variable i w0 cp Hget Hskip) as Hit.
    split; [exact Hit|]. cbn [dataset_loop]. now rewrite Hit. }
  intros Hall.
  assert (Hframe : forall w3,
            (readers_preserve product -> same_product_buffers product w w3) ->
            readers_preserve product ->
            same_product_buffers product w
              (harp_set_error (harp_collocation_result_shallow_delete filtered w3)
                 no_matching_pairs)).
  { intros w3 Hsame Hpres.
    eapply same_product_buffers_trans; [now apply Hsame|].
    eapply same_product_buffers_trans; [|apply same_product_buffers_set_error].
    apply Hpres. }
  assert (Hloop : forall derive_and_merge,
            exists w3,
              dataset_loop filtered derive_and_merge None None 0
                (Z.to_nat (num_products (dataset_b filtered))) w2 = inr (None, None, w3)
              /\ (readers_preserve product -> same_product_buffers product w w3)).
  { intros dm.
    destruct (dataset_loop_all_skipped product filtered dm None None
                (Z.to_nat (num_products (dataset_b filtered))) 0 w2 Hall ltac:(lia))
      as (w3 & Hl & Hs).
    exists w3. split; [exact Hl|]. intros Hpres.
    eapply same_product_buffers_trans; [|now apply Hs].
    eapply same_product_buffers_trans.
    - pose proof (proj1 Hpres collocation_result w) as H1. rewrite Hcopy in H1. exact H1.
    - pose proof (proj1 (proj2 Hpres) copied (num_elements collocation_index)
                    (data collocation_index) w1) as H2.
      rewrite Hfilter in H2. exact H2. }
  split.
  - unfold harp_product_smooth_vertical_with_collocated_dataset.
    rewrite (proj2 (Z.eqb_neq _ _) Hvert).
    match goal with |- context [List.find ?f ?l] =>
      destruct (List.find f l) as [i|] eqn:Efind end.
    { apply List.find_some in Efind as [Hi%in_seq Hmiss].
      rewrite Hvars in Hmiss by lia. discriminate. }
    unfold attempt at 1. rewrite Hci.
    unfold attempt at 1. rewrite Hcopy.
    unfold attempt at 1. rewrite Hfilter.
    rewrite (proj2 (Z.eqb_eq _ _) Hpairs). cbn [negb].
    cbv zeta.
    match goal with |- context [dataset_loop filtered ?dm _ _ _ _ _] =>
      destruct (Hloop dm) as (w3 & -> & Hsame) end.
    eexists. split; [reflexivity|]. split; [reflexivity|]. now apply Hframe.
  - unfold harp_product_get_smoothed_column_using_collocated_dataset.
    rewrite (proj2 (Z.eqb_neq _ _) Hnd0).
    rewrite (bool_decide_eq_true_2 _ Htime). cbn [negb orb].
    rewrite (proj2 (Z.leb_gt _ _) Hnd).
    rewrite (proj2 (Z.eqb_neq _ _) Hvert).
    unfold attempt at 1. rewrite Hci.
    unfold attempt at 1. rewrite Hcopy.
    unfold attempt at 1. rewrite Hfilter.
    rewrite (proj2 (Z.eqb_eq _ _) Hpairs). cbn [negb].
    cbv zeta.
    match goal with |- context [dataset_loop filtered ?dm _ _ _ _ _] =>
      destruct (Hloop dm) as (w3 & -> & Hsame) end.
    eexists. split; [reflexivity|]. split; [reflexivity|]. now apply Hframe.
Qed.

End OrchestratorClaims.

(** The instance: a dataset B of three products, of which the first and the
    last are missing and the second is empty.  Each is skipped on its own, and
    as none survives both orchestrators fail. *)
Lemma dataset_without_surviving_product_fails_witness :
  let w := example_world [1; 2]%float [] in
  let skipping := gappy_dataset_collaborators in
  (forall merged_product variable count,
     dataset_loop (H := skipping) example_collocation_result
       (fun merged _ _ w0 => inr (merged, None, w0)) merged_product variable 1 (S count) w
     = dataset_loop (H := skipping) example_collocation_result
         (fun merged _ _ w0 => inr (merged, None, w0)) merged_product variable 2 count w)
  /\ (exists w',
        harp_product_smooth_vertical_with_collocated_dataset (H := skipping)
          example_product 1 ["O3"%string] "altitude" "m" example_collocation_result w
        = ((-1)%Z, example_product, w')
        /\ harp_errno w'
           = Some (HARP_ERROR_INVALID_ARGUMENT
                     "collocated dataset does not contain any matching pairs")
        /\ (readers_preserve (H := skipping) example_product ->
            same_product_buffers example_product w w'))
  /\ (exists w',
        harp_product_get_smoothed_column_using_collocated_dataset (H := skipping)
          example_product "O3_column" "molec/m2" 1 [harp_dimension_time] "altitude" "m"
          example_collocation_result w
        = ((-1)%Z, example_product, None, w')
        /\ harp_errno w'
           = Some (HARP_ERROR_INVALID_ARGUMENT
                     "collocated dataset does not contain any matching pairs")
        /\ (readers_preserve (H := skipping) example_product ->
            same_product_buffers example_product w w')).
Proof.
  intros w skipping.
  destruct (dataset_without_surviving_product_fails (H := skipping)
              example_product 1 ["O3"%string] "O3_column" "molec/m2" 1
              [harp_dimension_time] "altitude" "m" example_collocation_result
              example_collocation_index example_collocation_result
              example_collocation_result w w w) as [Hskip Hfail];
    try reflexivity.
  - discriminate.
  - intros i Hi. destruct i as [|i]; [reflexivity|exfalso; vm_compute in Hi; lia].
  - split; [discriminate|reflexivity].
  - split.
    + intros merged variable count.
      exact (proj2 (Hskip example_collocation_result
                      (fun merged _ _ w0 => inr (merged, None, w0)) merged variable 1%nat
                      count w (Some empty_product) eq_refl eq_refl)).
    + apply Hfail. intros i w0 Hi.
      destruct i as [|[|[|i]]]; [| | |exfalso; vm_compute in Hi; lia].
      * exists None. split; [reflexivity|exact I].
      * exists (Some empty_product). split; [reflexivity|reflexivity].
      * exists None. split; [reflexivity|exact I].
Defined.

(** ** Further properties of the column integrators *)

Section ColumnEdges.
Local Open Scope float_scope.

Lemma fold_left_ext_in {A B : Type} (f g : A -> B -> A) (l : list B) (a : A) :
  (forall s x, In x l -> f s x = g s x) -> fold_left f l a = fold_left g l a.
Proof.
  revert a. induction l as [|x l IH]; intros a Hfg; cbn; [reflexivity|].
  rewrite (Hfg a x (or_introl eq_refl)). apply IH. intros s y Hy. apply Hfg. now right.
Qed.

Lemma fold_left_fixed {A B : Type} (f : A -> B -> A) (l : list B) (a : A) :
  (forall x, In x l -> f a x = a) -> fold_left f l a = a.
Proof.
  induction l as [|x l IH]; intros Hf; cbn; [reflexivity|].
  rewrite (Hf x (or_introl eq_refl)). apply IH. intros y Hy. apply Hf. now right.
Qed.

Lemma in_seq_levels (num_levels : Z) (k : nat) :
  In k (seq 0 (Z.to_nat num_levels)) -> (Z.of_nat k < num_levels)%Z.
Proof. rewrite in_seq. lia. Qed.

Lemma ltb_nan_l a b : is_nan a = true -> (a <? b) = false.
Proof.
  intros Ha. destruct (a <? b) eqn:E; [|reflexivity].
  destruct (Binary64.ltb_not_nan _ _ E). congruence.
Qed.

Lemma ltb_nan_r a b : is_nan b = true -> (a <? b) = false.
Proof.
  intros Hb. destruct (a <? b) eqn:E; [|reflexivity].
  destruct (Binary64.ltb_not_nan _ _ E). congruence.
Qed.

(** X1: when every level has its lower bound below the tropopause altitude and its upper
    bound at or below it, the tropospheric column is the total column of
    [harp_profile_column_from_partial_column], and the stratospheric column is NaN
    (no level contributes). *)
Theorem tropo_altitude_column_is_total_below_tropopause
    (num_levels : Z) (partial_column_profile altitude_bounds : list float)
    (tropopause_altitude : float) :
  (forall k : nat, (Z.of_nat k < num_levels)%Z ->
     (altitude_bounds.[k * 2] <? tropopause_altitude) = true
     /\ (altitude_bounds.[k * 2 + 1] <=? tropopause_altitude) = true) ->
  harp_profile_tropo_column_from_partial_column_and_altitude
    num_levels partial_column_profile altitude_bounds tropopause_altitude
  = harp_profile_column_from_partial_column num_levels partial_column_profile
  /\ harp_isnan
       (harp_profile_strato_column_from_partial_column_and_altitude
          num_levels partial_column_profile altitude_bounds tropopause_altitude) = true.
Proof.
  intros Hbelow. split.
  - unfold harp_profile_tropo_column_from_partial_column_and_altitude,
      harp_profile_column_from_partial_column.
    f_equal. apply fold_left_ext_in. intros s k Hk.
    destruct (Hbelow k (in_seq_levels _ _ Hk)) as [-> ->]. reflexivity.
  - unfold harp_profile_strato_column_from_partial_column_and_altitude.
    rewrite fold_left_fixed; [reflexivity|].
    intros k Hk. destruct (Hbelow k (in_seq_levels _ _ Hk)) as [_ Hub].
    rewrite (Binary64.leb_ltb_false _ _ Hub). now destruct (negb _).
Qed.

Lemma tropo_altitude_column_is_total_below_tropopause_witness :
  harp_profile_tropo_column_from_partial_column_and_altitude 2%Z [1; 2] [0; 1; 1; 2] 2
  = harp_profile_column_from_partial_column 2%Z [1; 2]
  /\ harp_isnan
       (harp_profile_strato_column_from_partial_column_and_altitude 2%Z [1; 2] [0; 1; 1; 2] 2)
     = true.
Proof.
  apply tropo_altitude_column_is_total_below_tropopause.
  intros [|[|k]] Hk; [split; reflexivity..|lia].
Defined.

(** X2: when every level has its lower bound at or above the tropopause altitude and its
    upper bound above it, the stratospheric column is the total column, and the
    tropospheric column is NaN. *)
Theorem strato_altitude_column_is_total_above_tropopause
    (num_levels : Z) (partial_column_profile altitude_bounds : list float)
    (tropopause_altitude : float) :
  (forall k : nat, (Z.of_nat k < num_levels)%Z ->
     (tropopause_altitude <=? altitude_bounds.[k * 2]) = true
     /\ (tropopause_altitude <? altitude_bounds.[k * 2 + 1]) = true) ->
  harp_profile_strato_column_from_partial_column_and_altitude
    num_levels partial_column_profile altitude_bounds tropopause_altitude
  = harp_profile_column_from_partial_column num_levels partial_column_profile
  /\ harp_isnan
       (harp_profile_tropo_column_from_partial_column_and_altitude
          num_levels partial_column_profile altitude_bounds tropopause_altitude) = true.
Proof.
  intros Habove. split.
  - unfold harp_profile_strato_column_from_partial_column_and_altitude,
      harp_profile_column_from_partial_column.
    f_equal. apply fold_left_ext_in. intros s k Hk.
    destruct (Habove k (in_seq_levels _ _ Hk)) as [-> ->]. reflexivity.
  - unfold harp_profile_tropo_column_from_partial_column_and_altitude.
    rewrite fold_left_fixed; [reflexivity|].
    intros k Hk. destruct (Habove k (in_seq_levels _ _ Hk)) as [Hlb _].
    rewrite (Binary64.leb_ltb_false _ _ Hlb). now destruct (negb _).
Qed.

Lemma strato_altitude_column_is_total_above_tropopause_witness :
  harp_profile_strato_column_from_partial_column_and_altitude 2%Z [1; 2] [0; 1; 1; 2] 0
  = harp_profile_column_from_partial_column 2%Z [1; 2]
  /\ harp_isnan
       (harp_profile_tropo_column_from_partial_column_and_altitude 2%Z [1; 2] [0; 1; 1; 2] 0)
     = true.
Proof.
  apply strato_altitude_column_is_total_above_tropopause.
  intros [|[|k]] Hk; [split; reflexivity..|lia].
Defined.

(** X3: with pressure bounds, when every level lies at pressures above the tropopause
    pressure (lower bound above it, upper bound at or above it) the tropospheric
    column is the total column and the stratospheric column is NaN; when every level
    lies at pressures below it, the stratospheric column is the total column and the
    tropospheric column is NaN.  [log] is never called in either case. *)
Theorem pressure_columns_are_total_on_one_side_of_tropopause
    (log : float -> float) (num_levels : Z)
    (partial_column_profile pressure_bounds : list float) (tropopause_pressure : float) :
  let total := harp_profile_column_from_partial_column num_levels partial_column_profile in
  let tropo :=
    harp_profile_tropo_column_from_partial_column_and_pressure
      log num_levels partial_column_profile pressure_bounds tropopause_pressure in
  let strato :=
    harp_profile_strato_column_from_partial_column_and_pressure
      log num_levels partial_column_profile pressure_bounds tropopause_pressure in
  ((forall k : nat, (Z.of_nat k < num_levels)%Z ->
      (tropopause_pressure <? pressure_bounds.[k * 2]) = true
      /\ (tropopause_pressure <=? pressure_bounds.[k * 2 + 1]) = true) ->
   tropo = total /\ harp_isnan strato = true)
  /\ ((forall k : nat, (Z.of_nat k < num_levels)%Z ->
         (pressure_bounds.[k * 2] <=? tropopause_pressure) = true
         /\ (pressure_bounds.[k * 2 + 1] <? tropopause_pressure) = true) ->
      strato = total /\ harp_isnan tropo = true).
Proof.
  cbv zeta. split; intros Hside; split.
  - unfold harp_profile_tropo_column_from_partial_column_and_pressure,
      harp_profile_column_from_partial_column.
    f_equal. apply fold_left_ext_in. intros s k Hk.
    destruct (Hside k (in_seq_levels _ _ Hk)) as [-> ->]. reflexivity.
  - unfold harp_profile_strato_column_from_partial_column_and_pressure.
    rewrite fold_left_fixed; [reflexivity|].
    intros k Hk. destruct (Hside k (in_seq_levels _ _ Hk)) as [_ Hub].
    rewrite (Binary64.leb_ltb_false _ _ Hub). now destruct (negb _).
  - unfold harp_profile_strato_column_from_partial_column_and_pressure,
      harp_profile_column_from_partial_column.
    f_equal. apply fold_left_ext_in. intros s k Hk.
    destruct (Hside k (in_seq_levels _ _ Hk)) as [-> ->]. reflexivity.
  - unfold harp_profile_tropo_column_from_partial_column_and_pressure.
    rewrite fold_left_fixed; [reflexivity|].
    intros k Hk. destruct (Hside k (in_seq_levels _ _ Hk)) as [Hlb _].
    rewrite (Binary64.leb_ltb_false _ _ Hlb). now destruct (negb _).
Qed.

Lemma pressure_columns_are_total_on_one_side_of_tropopause_witness :
  harp_profile_tropo_column_from_partial_column_and_pressure (fun x => x) 2%Z [1; 2]
    [1000; 800; 800; 600] 500
  = harp_profile_column_from_partial_column 2%Z [1; 2].
Proof.
  refine (proj1 (proj1 (pressure_columns_are_total_on_one_side_of_tropopause
                          (fun x => x) 2%Z [1; 2] [1000; 800; 800; 600] 500) _)).
  intros [|[|k]] Hk; [split; reflexivity..|lia].
Defined.

(** X4: a NaN tropopause makes the four tropospheric and stratospheric integrators
    return NaN, whatever the profile: every comparison with it fails. *)
Theorem columns_are_nan_at_nan_tropopause
    (log : float -> float) (num_levels : Z)
    (partial_column_profile bounds : list float) (tropopause : float) :
  harp_isnan tropopause = true ->
  harp_isnan (harp_profile_tropo_column_from_partial_column_and_altitude
                num_levels partial_column_profile bounds tropopause) = true
  /\ harp_isnan (harp_profile_strato_column_from_partial_column_and_altitude
                   num_levels partial_column_profile bounds tropopause) = true
  /\ harp_isnan (harp_profile_tropo_column_from_partial_column_and_pressure
                   log num_levels partial_column_profile bounds tropopause) = true
  /\ harp_isnan (harp_profile_strato_column_from_partial_column_and_pressure
                   log num_levels partial_column_profile bounds tropopause) = true.
Proof.
  intros Hnan.
  unfold harp_profile_tropo_column_from_partial_column_and_altitude,
    harp_profile_strato_column_from_partial_column_and_altitude,
    harp_profile_tropo_column_from_partial_column_and_pressure,
    harp_profile_strato_column_from_partial_column_and_pressure.
  repeat split; (rewrite fold_left_fixed; [reflexivity|]); intros k _;
    rewrite ?(ltb_nan_l _ _ Hnan), ?(ltb_nan_r _ _ Hnan); now destruct (negb _).
Qed.

Lemma columns_are_nan_at_nan_tropopause_witness :
  harp_isnan (harp_profile_tropo_column_from_partial_column_and_altitude
                1%Z [10] [0; 10] nan) = true
  /\ harp_isnan (harp_profile_strato_column_from_partial_column_and_altitude
                   1%Z [10] [0; 10] nan) = true.
Proof.
  destruct (columns_are_nan_at_nan_tropopause (fun x => x) 1%Z [10] [0; 10] nan eq_refl)
    as (H1 & H2 & _).
  exact (conj H1 H2).
Defined.

End ColumnEdges.

(** ** Further properties of the tropopause locator *)

Section TropopauseEdges.
Local Open Scope float_scope.

Variable EPSILON : float.
Variable num_levels : Z.
Variables altitude_profile pressure_profile temperature_profile : list float.

Local Abbreviation skip := (tropopause_skip num_levels pressure_profile).
Local Abbreviation scan :=
  (tropopause_scan EPSILON num_levels altitude_profile pressure_profile temperature_profile).
Local Abbreviation lapse := (lapse_rate altitude_profile temperature_profile).

(** The lapse rate carried into a layer is NaN or the lapse rate of a layer
    further down. *)
Lemma tropopause_scan_needs_steep_layer (fuel i r : nat) (lapse_below : float) :
  is_nan lapse_below = true \/ (exists j, (j < i)%nat /\ lapse_below = lapse j) ->
  scan fuel i lapse_below = Z.of_nat r ->
  exists j, (j < r)%nat /\ (0.002 <? lapse j) = true.
Proof.
  revert i lapse_below. induction fuel as [|fuel IH]; intros i lapse_below Hinv; cbn [tropopause_scan].
  - lia.
  - destruct ((Z.of_nat i <? num_levels - 1)%Z && (5000 <? pressure_profile.[i])); [|lia].
    destruct (altitude_profile.[i + 1] - altitude_profile.[i] <? 0); [lia|].
    set (lapse_above :=
           if altitude_profile.[i + 1] - altitude_profile.[i] <? EPSILON then lapse_below
           else (temperature_profile.[i] - temperature_profile.[i + 1])
                / (altitude_profile.[i + 1] - altitude_profile.[i])).
    destruct (0.002 <? lapse_below) eqn:Hsteep; cbn [andb].
    + destruct ((lapse_above <=? 0.002) && _).
      * intros Hr. assert (r = i) as -> by lia.
        destruct Hinv as [Hnan | (j & Hj & ->)].
        -- now rewrite (ltb_nan_r _ _ Hnan) in Hsteep.
        -- now exists j.
      * apply IH. subst lapse_above.
        destruct (_ <? EPSILON).
        -- destruct Hinv as [Hnan | (j & Hj & ->)]; [now left|right; exists j; split; [lia|reflexivity]].
        -- right. exists i. split; [lia|]. unfold lapse_rate. now rewrite Nat.add_1_r.
    + apply IH. subst lapse_above.
      destruct (_ <? EPSILON).
      * destruct Hinv as [Hnan | (j & Hj & ->)]; [now left|right; exists j; split; [lia|reflexivity]].
      * right. exists i. split; [lia|]. unfold lapse_rate. now rewrite Nat.add_1_r.
Qed.

(** X5: the locator returns -1 or the index [i] of an interior level
    ([1 <= i < num_levels - 1]) whose pressure is above 5000 Pa and whose two
    adjacent layers do not have a negative height; with fewer than three levels it
    always returns -1. *)
Theorem tropopause_index_is_interior_level :
  let r :=
    harp_tropopause_index_from_altitude_and_temperature
      EPSILON num_levels altitude_profile pressure_profile temperature_profile in
  (r = (-1)%Z
   \/ exists i : nat,
        r = Z.of_nat i /\ (1 <= i)%nat /\ (Z.of_nat i < num_levels - 1)%Z
        /\ (5000 <? pressure_profile.[i]) = true
        /\ (altitude_profile.[i] - altitude_profile.[i - 1] <? 0) = false
        /\ (altitude_profile.[S i] - altitude_profile.[i] <? 0) = false)
  /\ ((num_levels <= 2)%Z -> r = (-1)%Z).
Proof.
  cbv zeta.
  assert (Hmain :
    harp_tropopause_index_from_altitude_and_temperature
      EPSILON num_levels altitude_profile pressure_profile temperature_profile = (-1)%Z
    \/ exists i : nat,
        harp_tropopause_index_from_altitude_and_temperature
          EPSILON num_levels altitude_profile pressure_profile temperature_profile = Z.of_nat i
        /\ (1 <= i)%nat /\ (Z.of_nat i < num_levels - 1)%Z
        /\ (5000 <? pressure_profile.[i]) = true
        /\ (altitude_profile.[i] - altitude_profile.[i - 1] <? 0) = false
        /\ (altitude_profile.[S i] - altitude_profile.[i] <? 0) = false).
  { unfold harp_tropopause_index_from_altitude_and_temperature.
    set (s := skip (Z.to_nat num_levels) 1).
    assert (Hs : (1 <= s)%nat)
      by apply (tropopause_skip_spec num_levels pressure_profile (Z.to_nat num_levels) 1).
    destruct (num_levels - 1 <=? Z.of_nat s)%Z; [now left|].
    destruct (altitude_profile.[s] - altitude_profile.[s - 1] <? 0) eqn:Hfirst; [now left|].
    match goal with |- ?x = _ \/ _ => destruct (Z.eq_dec x (-1)%Z) as [Hm|Hm] end; [now left|].
    right.
    destruct (tropopause_scan_index EPSILON num_levels altitude_profile pressure_profile
                temperature_profile _ _ _ Hm) as (i & Hi & Hsi & Hlt & Hp & Hup).
    exists i. repeat split; try assumption; try lia.
    - destruct (decide (i = s)) as [->|Hne]; [exact Hfirst|].
      replace i with (S (i - 1)) at 1 by lia. apply Hup. lia.
    - apply Hup. lia. }
  split; [exact Hmain|].
  intros Hsmall. destruct Hmain as [Hm | (i & _ & Hi & Hlt & _)]; [exact Hm|lia].
Qed.

(** X6: a tropopause is only reported above a steep layer: if the locator returns [i],
    some layer below level [i] has a lapse rate above 0.002 K/m. *)
Theorem tropopause_lies_above_steep_layer (i : nat) :
  harp_tropopause_index_from_altitude_and_temperature
    EPSILON num_levels altitude_profile pressure_profile temperature_profile = Z.of_nat i ->
  exists j : nat, (j < i)%nat /\ (0.002 <? lapse j) = true.
Proof.
  unfold harp_tropopause_index_from_altitude_and_temperature.
  set (s := skip (Z.to_nat num_levels) 1).
  assert (Hs : (1 <= s)%nat)
    by apply (tropopause_skip_spec num_levels pressure_profile (Z.to_nat num_levels) 1).
  destruct (num_levels - 1 <=? Z.of_nat s)%Z; [lia|].
  destruct (altitude_profile.[s] - altitude_profile.[s - 1] <? 0); [lia|].
  apply tropopause_scan_needs_steep_layer.
  destruct (_ <? EPSILON); [now left|].
  right. exists (s - 1)%nat. split; [lia|].
  unfold lapse_rate. now replace (S (s - 1)) with s by lia.
Qed.

End TropopauseEdges.

Lemma tropopause_lies_above_steep_layer_witness :
  exists j : nat, (j < 11)%nat
    /\ (0.002 <? lapse_rate isa_altitude isa_temperature j)%float = true.
Proof.
  apply (tropopause_lies_above_steep_layer 1e-10 21%Z isa_altitude isa_pressure isa_temperature 11).
  vm_compute. reflexivity.
Defined.

(** ** Further properties of [get_unpadded_vector_length] *)

Lemma unpadded_scan_spec (vector : list float) (vector_length : Z) (n : nat) :
  let r := unpadded_scan vector vector_length n in
  (r = vector_length /\ forall i, (i < n)%nat -> harp_isnan vector.[i] = true)
  \/ ((1 <= r <= Z.of_nat n)%Z
      /\ harp_isnan vector.[Z.to_nat (r - 1)] = false
      /\ forall i : nat, (r <= Z.of_nat i < Z.of_nat n)%Z -> harp_isnan vector.[i] = true).
Proof.
  induction n as [|n IH]; cbn [unpadded_scan].
  - left. split; [reflexivity|]. intros i Hi. lia.
  - destruct (harp_isnan vector.[n]) eqn:Hn; cbn [negb].
    + cbv zeta in IH. destruct IH as [[Hr Hall] | (Hr & Hlast & Hpad)].
      * left. split; [exact Hr|]. intros i Hi.
        destruct (decide (i = n)) as [->|Hne]; [exact Hn|apply Hall; lia].
      * right. split; [lia|]. split; [exact Hlast|]. intros i Hi.
        destruct (decide (i = n)) as [->|Hne]; [exact Hn|apply Hpad; lia].
    + right. split; [lia|]. split.
      * now replace (Z.to_nat (Z.of_nat n + 1 - 1)) with n by lia.
      * intros i Hi. lia.
Qed.

(** X7: with [r] the length [get_unpadded_vector_length] returns, every element from
    [r] to the end is NaN; [r] is between 1 and [vector_length] for a vector that is
    not empty (never 0, also when all is NaN) and is [vector_length] itself when that
    is not positive; and when some element is not NaN, [r] lies beyond it and the
    element at [r - 1] is not NaN. *)
Theorem unpadded_vector_length_drops_trailing_nan (vector : list float) (vector_length : Z) :
  let r := get_unpadded_vector_length vector vector_length in
  (forall i : nat, (r <= Z.of_nat i < vector_length)%Z -> harp_isnan vector.[i] = true)
  /\ ((0 < vector_length)%Z -> (1 <= r <= vector_length)%Z)
  /\ ((vector_length <= 0)%Z -> r = vector_length)
  /\ (forall i : nat, (Z.of_nat i < vector_length)%Z -> harp_isnan vector.[i] = false ->
        (Z.of_nat i < r)%Z /\ harp_isnan vector.[Z.to_nat (r - 1)] = false).
Proof.
  cbv zeta. unfold get_unpadded_vector_length.
  pose proof (unpadded_scan_spec vector vector_length (Z.to_nat vector_length)) as H.
  cbv zeta in H. set (r := unpadded_scan vector vector_length (Z.to_nat vector_length)) in *.
  destruct H as [[Hr Hall] | (Hr & Hlast & Hpad)].
  - split; [|split; [|split]]; try lia.
    intros i Hi Hvalid. rewrite (Hall i ltac:(lia)) in Hvalid. discriminate.
  - split; [|split; [|split]]; try lia.
    + intros i Hi. apply Hpad. lia.
    + intros i Hi Hvalid. split; [|exact Hlast].
      destruct (Z_lt_ge_dec (Z.of_nat i) r) as [Hlt|Hge]; [exact Hlt|].
      rewrite (Hpad i ltac:(lia)) in Hvalid. discriminate.
Qed.

(** ** Column averaging kernels *)

Section ColumnKernelFacts.
Local Open Scope float_scope.

Lemma fget_insert_eq (a : list float) (i : nat) (x : float) :
  (i < length a)%nat -> (<[i := x]> a).[i] = x.
Proof. intros Hi. unfold fget. now rewrite list_lookup_insert_eq. Qed.

Lemma fget_insert_ne (a : list float) (i j : nat) (x : float) :
  i <> j -> (<[i := x]> a).[j] = a.[j].
Proof. intros Hne. unfold fget. now rewrite list_lookup_insert_ne. Qed.

(** A loop that writes element [i] at step [i]. *)
Lemma fold_insert_each (f : nat -> float) (count : nat) (out : list float) :
  let out' := fold_left (fun out i => <[i := f i]> out) (seq 0 count) out in
  length out' = length out
  /\ forall i, (i < length out)%nat ->
       out'.[i] = if (i <? count)%nat then f i else out.[i].
Proof.
  induction count as [|count IH]; cbv zeta.
  - split; [reflexivity|]. intros i Hi. reflexivity.
  - rewrite seq_S, fold_left_app. cbn [fold_left Nat.add].
    cbv zeta in IH. destruct IH as [Hlen Hcells].
    split; [now rewrite length_insert|].
    intros i Hi. destruct (decide (i = count)) as [->|Hne].
    + rewrite fget_insert_eq by lia. now rewrite (proj2 (Nat.ltb_lt _ _)) by lia.
    + rewrite fget_insert_ne by lia. rewrite Hcells by exact Hi.
      destruct (Nat.ltb_spec i count), (Nat.ltb_spec i (S count)); try lia; reflexivity.
Qed.

Lemma tropospheric_column_avk_cells
    (num_levels : Z) (column_density_avk altitude_bounds : list float)
    (tropopause_altitude : float) (out : list float) (i : nat) :
  (Z.of_nat i < num_levels)%Z -> (i < length out)%nat ->
  (harp_profile_tropospheric_column_avk_from_column_avk num_levels column_density_avk
     altitude_bounds tropopause_altitude out).[i]
  = if altitude_bounds.[2 * i] <? tropopause_altitude then column_density_avk.[i] else 0.
Proof.
  intros Hi Hlen. unfold harp_profile_tropospheric_column_avk_from_column_avk.
  rewrite (fold_left_ext_in _
             (fun out i => <[i := if altitude_bounds.[2 * i] <? tropopause_altitude
                                  then column_density_avk.[i] else 0]> out)).
  - rewrite (proj2 (fold_insert_each _ _ out)) by exact Hlen.
    now rewrite (proj2 (Nat.ltb_lt _ _)) by lia.
  - intros s k _. now destruct (_ <? _).
Qed.

Lemma stratospheric_column_avk_cells
    (num_levels : Z) (column_density_avk altitude_bounds : list float)
    (tropopause_altitude : float) (out : list float) (i : nat) :
  (Z.of_nat i < num_levels)%Z -> (i < length out)%nat ->
  (harp_profile_stratospheric_column_avk_from_column_avk num_levels column_density_avk
     altitude_bounds tropopause_altitude out).[i]
  = if altitude_bounds.[2 * i + 1] <=? tropopause_altitude then 0 else column_density_avk.[i].
Proof.
  intros Hi Hlen. unfold harp_profile_stratospheric_column_avk_from_column_avk.
  rewrite (fold_left_ext_in _
             (fun out i => <[i := if altitude_bounds.[2 * i + 1] <=? tropopause_altitude
                                  then 0 else column_density_avk.[i]]> out)).
  - rewrite (proj2 (fold_insert_each _ _ out)) by exact Hlen.
    now rewrite (proj2 (Nat.ltb_lt _ _)) by lia.
  - intros s k _. now destruct (_ <=? _).
Qed.

Lemma SFltb_leb_ltb x y z :
  SFltb x y = true -> SFleb y z = true -> SFltb x z = true.
Proof.
  unfold SFltb, SFleb.
  destruct x as [sx|sx| |sx mx ex], y as [sy|sy| |sy my ey], z as [sz|sz| |sz mz ez];
    cbn; try discriminate; try reflexivity;
    try destruct sx; try destruct sy; try destruct sz; cbn;
    try discriminate; try reflexivity;
    change (Pos.compare_cont Eq) with Pos.compare;
    Binary64.split_cmp; try discriminate; try reflexivity; intros; lia.
Qed.

Lemma ltb_leb_ltb a b c : (a <? b) = true -> (b <=? c) = true -> (a <? c) = true.
Proof. rewrite !ltb_spec, leb_spec. apply SFltb_leb_ltb. Qed.

Lemma leb_nan_r a b : is_nan b = true -> (a <=? b) = false.
Proof.
  intros Hb. apply Binary64.is_nan_spec in Hb. rewrite leb_spec, Hb. unfold SFleb.
  now destruct (Prim2SF a) as [[]|[]| |[] ? ?].
Qed.

(** X18: for a level whose lower bound is below its upper bound: entirely at or below the
    tropopause it keeps its kernel value in the tropospheric kernel and is zero in
    the stratospheric one; entirely at or above, the converse; a level that the
    tropopause cuts keeps its full value in both kernels.  With a NaN tropopause
    the tropospheric kernel is zero and the stratospheric kernel is the input. *)
Theorem column_kernels_overlap_at_tropopause
    (num_levels : Z) (column_density_avk altitude_bounds : list float)
    (tropopause_altitude : float) (tropo_buffer strato_buffer : list float) (i : nat) :
  let tropo :=
    harp_profile_tropospheric_column_avk_from_column_avk num_levels column_density_avk
      altitude_bounds tropopause_altitude tropo_buffer in
  let strato :=
    harp_profile_stratospheric_column_avk_from_column_avk num_levels column_density_avk
      altitude_bounds tropopause_altitude strato_buffer in
  let lower := altitude_bounds.[2 * i] in
  let upper := altitude_bounds.[2 * i + 1] in
  (Z.of_nat i < num_levels)%Z ->
  (i < length tropo_buffer)%nat -> (i < length strato_buffer)%nat ->
  ((upper <=? tropopause_altitude) = true -> (lower <? upper) = true ->
     tropo.[i] = column_density_avk.[i] /\ strato.[i] = 0)
  /\ ((tropopause_altitude <=? lower) = true -> (lower <? upper) = true ->
        tropo.[i] = 0 /\ strato.[i] = column_density_avk.[i])
  /\ ((lower <? tropopause_altitude) = true -> (tropopause_altitude <? upper) = true ->
        tropo.[i] = column_density_avk.[i] /\ strato.[i] = column_density_avk.[i])
  /\ (harp_isnan tropopause_altitude = true ->
        tropo.[i] = 0 /\ strato.[i] = column_density_avk.[i]).
Proof.
  intros tropo strato lower upper Hi Htl Hsl. subst tropo strato.
  rewrite tropospheric_column_avk_cells, stratospheric_column_avk_cells by assumption.
  fold lower upper. repeat split.
  - now rewrite (ltb_leb_ltb _ _ _ H0 H).
  - now rewrite H.
  - now rewrite (Binary64.leb_ltb_false _ _ H).
  - destruct (upper <=? tropopause_altitude) eqn:E; [|reflexivity].
    pose proof (ltb_leb_ltb _ _ _ H0 E) as Hlt.
    now rewrite (Binary64.leb_ltb_false _ _ H) in Hlt.
  - now rewrite H.
  - now rewrite (Binary64.ltb_leb_false _ _ H0).
  - now rewrite (ltb_nan_r _ _ H).
  - now rewrite (leb_nan_r _ _ H).
Qed.

Lemma column_kernels_overlap_at_tropopause_witness :
  (harp_profile_tropospheric_column_avk_from_column_avk 2%Z [0.5; 0.75] [0; 10; 10; 20] 15
     [0; 0]).[1] = 0.75
  /\ (harp_profile_stratospheric_column_avk_from_column_avk 2%Z [0.5; 0.75] [0; 10; 10; 20] 15
        [0; 0]).[1] = 0.75.
Proof.
  refine (proj1 (proj2 (proj2 (column_kernels_overlap_at_tropopause 2%Z [0.5; 0.75]
                                 [0; 10; 10; 20] 15 [0; 0] [0; 0] 1 _ _ _))) eq_refl eq_refl);
    cbn; lia.
Defined.

(** The inner loop of the column sums. *)
Lemma column_sum_loop (avk_2d : list float) (n j : nat) (rows : list nat) (out : list float) :
  (j < length out)%nat ->
  let out' :=
    fold_left (fun out i => <[j := out.[j] + avk_2d.[i * n + j]]> out) rows out in
  length out' = length out
  /\ out'.[j] = fold_left (fun acc i => acc + avk_2d.[i * n + j]) rows out.[j]
  /\ forall k, k <> j -> out'.[k] = out.[k].
Proof.
  revert out. induction rows as [|i rows IH]; intros out Hj; cbv zeta; cbn [fold_left].
  - auto.
  - destruct (IH (<[j := out.[j] + avk_2d.[i * n + j]]> out)) as (Hlen & Hsum & Hrest).
    { now rewrite length_insert. }
    cbv zeta in Hlen, Hsum, Hrest. split; [|split].
    + now rewrite Hlen, length_insert.
    + rewrite Hsum. now rewrite fget_insert_eq by exact Hj.
    + intros k Hk. rewrite Hrest by exact Hk. now rewrite fget_insert_ne by congruence.
Qed.

Lemma column_avk_cells (num_levels : Z) (avk_2d out : list float) (j : nat) :
  (Z.of_nat j < num_levels)%Z -> (Z.to_nat num_levels <= length out)%nat ->
  (harp_profile_column_avk_from_partial_column_avk num_levels avk_2d out).[j]
  = fold_left (fun acc i => acc + avk_2d.[i * Z.to_nat num_levels + j])
              (seq 1 (Z.to_nat num_levels - 1)) avk_2d.[j].
Proof.
  intros Hj Hlen. unfold harp_profile_column_avk_from_partial_column_avk. cbv zeta.
  set (n := Z.to_nat num_levels) in *.
  set (step := fun (out : list float) (j : nat) =>
         fold_left (fun out i => <[j := out.[j] + avk_2d.[i * n + j]]> out)
           (seq 1 (n - 1)) (<[j := avk_2d.[j]]> out)).
  assert (Hstep : forall out j, (j < length out)%nat ->
            length (step out j) = length out
            /\ (step out j).[j]
               = fold_left (fun acc i => acc + avk_2d.[i * n + j]) (seq 1 (n - 1)) avk_2d.[j]
            /\ forall k, k <> j -> (step out j).[k] = out.[k]).
  { intros o k Hk. unfold step.
    destruct (column_sum_loop avk_2d n k (seq 1 (n - 1)) (<[k := avk_2d.[k]]> o))
      as (H1 & H2 & H3); [now rewrite length_insert|].
    cbv zeta in H1, H2, H3. split; [|split].
    - now rewrite H1, length_insert.
    - rewrite H2. now rewrite fget_insert_eq by exact Hk.
    - intros k' Hk'. rewrite H3 by exact Hk'. now rewrite fget_insert_ne by congruence. }
  change (fold_left step (seq 0 n) out).[j]
    with (fold_left step (seq 0 n) out).[j].
  assert (Hall : forall count, (count <= n)%nat ->
            length (fold_left step (seq 0 count) out) = length out
            /\ forall k, (k < count)%nat ->
                 (fold_left step (seq 0 count) out).[k]
                 = fold_left (fun acc i => acc + avk_2d.[i * n + k]) (seq 1 (n - 1)) avk_2d.[k]).
  { induction count as [|count IH]; intros Hc.
    - split; [reflexivity|]. intros k Hk. lia.
    - rewrite seq_S, fold_left_app. cbn [fold_left Nat.add].
      destruct (IH ltac:(lia)) as [Hl Hcells].
      destruct (Hstep (fold_left step (seq 0 count) out) count ltac:(lia)) as (H1 & H2 & H3).
      split; [congruence|]. intros k Hk.
      destruct (decide (k = count)) as [->|Hne]; [exact H2|].
      rewrite H3 by exact Hne. apply Hcells. lia. }
  apply (Hall n); subst n; lia.
Qed.

Lemma identity_column_sum (avk_2d : list float) (n j : nat) (start len : nat) (acc : float) :
  (j < n)%nat -> (start + len <= n)%nat ->
  (forall i, (i < n)%nat -> avk_2d.[i * n + j] = if decide (i = j) then 1 else 0) ->
  (acc = 1 /\ (j < start)%nat) \/ (acc = 0 /\ (start <= j)%nat) ->
  fold_left (fun acc i => acc + avk_2d.[i * n + j]) (seq start len) acc
  = if (j <? start + len)%nat then 1 else 0.
Proof.
  intros Hj. revert start acc. induction len as [|len IH]; intros start acc Hn Hid Hacc.
  - cbn [seq fold_left]. rewrite Nat.add_0_r.
    destruct Hacc as [[-> Hlt]|[-> Hge]].
    + now rewrite (proj2 (Nat.ltb_lt _ _)) by lia.
    + now rewrite (proj2 (Nat.ltb_ge _ _)) by lia.
  - cbn [seq fold_left]. rewrite (Hid start) by lia.
    replace (start + S len)%nat with (S start + len)%nat by lia.
    apply IH; [lia|exact Hid|].
    destruct Hacc as [[-> Hlt]|[-> Hge]].
    + left. destruct (decide (start = j)); [lia|]. split; [reflexivity|lia].
    + destruct (decide (start = j)) as [->|Hne].
      * left. split; [reflexivity|lia].
      * right. split; [reflexivity|lia].
Qed.

(** X19: element [j] of the column kernel is the sum of column [j] of the
    two-dimensional kernel, added from row 0 to the last row; for the identity
    kernel it is exactly 1. *)
Theorem column_avk_sums_kernel_columns
    (num_levels : Z) (column_density_avk_2d column_density_avk_1d : list float) (j : nat) :
  let n := Z.to_nat num_levels in
  let column :=
    harp_profile_column_avk_from_partial_column_avk num_levels column_density_avk_2d
      column_density_avk_1d in
  (Z.of_nat j < num_levels)%Z -> (n <= length column_density_avk_1d)%nat ->
  column.[j]
  = fold_left PrimFloat.add
      (map (fun i => column_density_avk_2d.[i * n + j]) (seq 1 (n - 1)))
      column_density_avk_2d.[j]
  /\ ((forall i, (i < n)%nat ->
         column_density_avk_2d.[i * n + j] = if decide (i = j) then 1 else 0) ->
      column.[j] = 1).
Proof.
  intros n column Hj Hlen. subst column.
  rewrite column_avk_cells by assumption. fold n. split.
  - generalize (column_density_avk_2d.[j]). generalize (seq 1 (n - 1)).
    intros rows. induction rows as [|i rows IH]; intros acc; cbn; [reflexivity|apply IH].
  - intros Hid.
    rewrite (identity_column_sum column_density_avk_2d n j 1 (n - 1)); try lia; try exact Hid.
    + now rewrite (proj2 (Nat.ltb_lt _ _)) by lia.
    + pose proof (Hid 0%nat ltac:(lia)) as H0. cbn in H0. rewrite H0.
      destruct (decide (0%nat = j)) as [<-|Hne]; [left|right]; split; try reflexivity; lia.
Qed.

Lemma column_avk_sums_kernel_columns_witness :
  (harp_profile_column_avk_from_partial_column_avk 2%Z [1; 0; 0; 1] [0; 0]).[1] = 1.
Proof.
  refine (proj2 (column_avk_sums_kernel_columns 2%Z [1; 0; 0; 1] [0; 0] 1 _ _) _).
  - lia.
  - cbn. lia.
  - intros [|[|i]] Hi; [reflexivity|reflexivity|cbn in Hi; lia].
Defined.

End ColumnKernelFacts.

(** ** The loop of [harp_product_get_smoothed_column] *)

(** Rows without a valid entry leave the flag down. *)
Lemma smoothed_column_step_invalid (partcol_variable column_avk : harp_variable)
    (apriori : option harp_variable) (num_vertical_elements : nat)
    (m : gmap address (list float)) (i : nat) (rows : list nat) (a : float) :
  (forall j, In j rows ->
     harp_isnan (load m (data partcol_variable) (i * num_vertical_elements + j))%nat = true) ->
  (forall ap j, apriori = Some ap -> In j rows ->
     harp_isnan (load m (data ap) (i * num_vertical_elements + j))%nat = true) ->
  fold_left (smoothed_column_step partcol_variable column_avk apriori
               num_vertical_elements m i) rows (a, false) = (a, false).
Proof.
  intros Hpc Hap. apply fold_left_fixed. intros j Hj.
  unfold smoothed_column_step. cbv zeta. rewrite (Hpc j Hj). cbn [negb].
  destruct apriori as [ap|]; [|reflexivity].
  now rewrite (Hap ap j eq_refl Hj).
Qed.

Section SmoothedColumnFacts.
Local Open Scope float_scope.

Variables partcol_variable column_avk column_variable : harp_variable.
Variable apriori : option harp_variable.
Variable num_vertical_elements : nat.

Local Abbreviation column := (data column_variable).

Hypothesis partcol_own_buffer : data partcol_variable <> column.
Hypothesis avk_own_buffer : data column_avk <> column.
Hypothesis apriori_own_buffer : forall ap, apriori = Some ap -> data ap <> column.

Lemma smoothed_column_inner (m : gmap address (list float)) (i : nat) (rows : list nat)
    (a : float) (b : bool) :
  (i < length (buffer m column))%nat ->
  fold_left
    (fun (s : gmap address (list float) * bool) (j : nat) =>
       let idx := (i * num_vertical_elements + j)%nat in
       let s :=
         if negb (harp_isnan (load (fst s) (data partcol_variable) idx)) then
           let m1 :=
             store (fst s) column i
               (load (fst s) column i
                + load (fst s) (data partcol_variable) idx * load (fst s) (data column_avk) idx) in
           let m2 :=
             match apriori with
             | Some apriori =>
                 if negb (harp_isnan (load m1 (data apriori) idx))
                 then store m1 column i
                        (load m1 column i
                         - load m1 (data column_avk) idx * load m1 (data apriori) idx)
                 else m1
             | None => m1
             end in
           (m2, true)
         else s in
       match apriori with
       | Some apriori =>
           if negb (harp_isnan (load (fst s) (data apriori) idx))
           then (store (fst s) column i
                   (load (fst s) column i + load (fst s) (data apriori) idx),
                 true)
           else s
       | None => s
       end)
    rows (store m column i a, b)
  = (store m column i
       (fst (fold_left (smoothed_column_step partcol_variable column_avk apriori
                          num_vertical_elements m i) rows (a, b))),
     snd (fold_left (smoothed_column_step partcol_variable column_avk apriori
                       num_vertical_elements m i) rows (a, b))).
Proof using All.
  intros Hi. revert a b. induction rows as [|j rows IH]; intros a b; [reflexivity|].
  cbn [fold_left]. cbv zeta. cbn [fst snd].
  assert (Hother : forall q x c, q <> column -> load (store m column i x) q c = load m q c).
  { intros q x c Hq. apply load_store_other. intros [= ]. congruence. }
  unfold smoothed_column_step at 2 4. cbv zeta. cbn [fst snd].
  assert (Hap : forall ap, apriori = Some ap ->
            forall x c, load (store m column i x) (data ap) c = load m (data ap) c).
  { intros ap Eap x c. apply Hother. now apply apriori_own_buffer. }
  pose proof (Hother _ a (i * num_vertical_elements + j)%nat partcol_own_buffer) as Hpc.
  rewrite Hpc.
  destruct (negb (harp_isnan (load m (data partcol_variable) _))) eqn:Epc.
  - rewrite load_store by exact Hi. rewrite store_store.
    rewrite (Hother _ a _ avk_own_buffer).
    destruct apriori as [ap|] eqn:Eap.
    + rewrite !(Hap ap eq_refl).
      destruct (negb (harp_isnan (load m (data ap) _))) eqn:Enan; cbn [fst snd].
      * rewrite load_store by exact Hi. rewrite store_store.
        rewrite (Hother (data column_avk)) by exact avk_own_buffer.
        rewrite !(Hap ap eq_refl). rewrite Enan.
        rewrite load_store by exact Hi. rewrite store_store. apply IH.
      * rewrite !(Hap ap eq_refl). rewrite Enan. apply IH.
    + cbn [fst snd]. apply IH.
  - destruct apriori as [ap|] eqn:Eap; cbn [fst snd].
    + rewrite !(Hap ap eq_refl).
      destruct (negb (harp_isnan (load m (data ap) _))) eqn:Enan; cbn [fst snd].
      * rewrite load_store by exact Hi. rewrite store_store. apply IH.
      * apply IH.
    + apply IH.
Qed.

Lemma smoothed_column_element_stores (m : gmap address (list float)) (i : nat) :
  (i < length (buffer m column))%nat ->
  smoothed_column_element partcol_variable column_avk apriori column_variable
    num_vertical_elements m i
  = store m column i
      (smoothed_column_value partcol_variable column_avk apriori num_vertical_elements m i).
Proof using All.
  intros Hi. unfold smoothed_column_element, smoothed_column_value. cbv zeta.
  rewrite smoothed_column_inner by exact Hi.
  destruct (fold_left _ _ (0, false)) as [col valid]. cbn [fst snd].
  destruct valid; [reflexivity|apply store_store].
Qed.

End SmoothedColumnFacts.

(** X20: the loop of [harp_product_get_smoothed_column] over the elements of the new
    column, when that column has a buffer of its own: every other buffer is left
    alone, the elements beyond [count] keep their value, element [i] is
    [smoothed_column_value] of row [i] of the memory the loop starts from, and it is
    NaN when row [i] of the partial column (and of the a priori, if there is one)
    holds nothing but NaN. *)
Theorem smoothed_column_loop_fills_column
    (partcol_variable column_avk column_variable : harp_variable)
    (apriori : option harp_variable) (num_vertical_elements count : nat)
    (m : gmap address (list float)) :
  let m' :=
    fold_left
      (smoothed_column_element partcol_variable column_avk apriori column_variable
         num_vertical_elements)
      (seq 0 count) m in
  data partcol_variable <> data column_variable ->
  data column_avk <> data column_variable ->
  (forall ap, apriori = Some ap -> data ap <> data column_variable) ->
  (count <= length (buffer m (data column_variable)))%nat ->
  (forall q, q <> data column_variable -> m' !! q = m !! q)
  /\ length (buffer m' (data column_variable)) = length (buffer m (data column_variable))
  /\ (forall i, (i < count)%nat ->
        load m' (data column_variable) i
        = smoothed_column_value partcol_variable column_avk apriori num_vertical_elements m i)
  /\ (forall i, (count <= i)%nat ->
        load m' (data column_variable) i = load m (data column_variable) i)
  /\ (forall i, (i < count)%nat ->
        (forall j, (j < num_vertical_elements)%nat ->
           harp_isnan (load m (data partcol_variable) (i * num_vertical_elements + j)) = true) ->
        (forall ap j, apriori = Some ap -> (j < num_vertical_elements)%nat ->
           harp_isnan (load m (data ap) (i * num_vertical_elements + j)) = true) ->
        harp_isnan (load m' (data column_variable) i) = true).
Proof.
  intros m' Hpc Havk Hap Hlen.
  assert (Hvalue : forall n, (n <= count)%nat ->
    let mn :=
      fold_left
        (smoothed_column_element partcol_variable column_avk apriori column_variable
           num_vertical_elements)
        (seq 0 n) m in
    (forall q, q <> data column_variable -> mn !! q = m !! q)
    /\ length (buffer mn (data column_variable)) = length (buffer m (data column_variable))
    /\ (forall i, (i < n)%nat ->
          load mn (data column_variable) i
          = smoothed_column_value partcol_variable column_avk apriori
              num_vertical_elements m i)
    /\ (forall i, (n <= i)%nat ->
          load mn (data column_variable) i = load m (data column_variable) i)).
  { induction n as [|n IH]; intros Hn; cbv zeta.
    - cbn. repeat split; auto. intros i Hi. lia.
    - rewrite seq_S, fold_left_app. cbn [fold_left Nat.add].
      destruct (IH ltac:(lia)) as (Hq & Hl & Hdone & Hrest). cbv zeta in Hq, Hl, Hdone, Hrest.
      set (mn := fold_left _ (seq 0 n) m) in *.
      rewrite (smoothed_column_element_stores partcol_variable column_avk column_variable
                 apriori num_vertical_elements Hpc Havk Hap mn n) by lia.
      assert (Hsame : smoothed_column_value partcol_variable column_avk apriori
                        num_vertical_elements mn n
                      = smoothed_column_value partcol_variable column_avk apriori
                          num_vertical_elements m n).
      { unfold smoothed_column_value.
        rewrite (fold_left_ext_in
                   (smoothed_column_step partcol_variable column_avk apriori
                      num_vertical_elements mn n)
                   (smoothed_column_step partcol_variable column_avk apriori
                      num_vertical_elements m n)); [reflexivity|].
        intros s j _. unfold smoothed_column_step, load, buffer.
        rewrite (Hq _ Hpc), (Hq _ Havk).
        destruct apriori as [ap|]; [|reflexivity]. now rewrite (Hq _ (Hap ap eq_refl)). }
      split; [|split; [|split]].
      + intros q Hne. rewrite store_other_buffer by exact Hne. now apply Hq.
      + now rewrite length_buffer_store.
      + intros i Hi. destruct (decide (i = n)) as [->|Hne].
        * rewrite load_store by lia. exact Hsame.
        * rewrite load_store_other by (intros [= ]; congruence). apply Hdone. lia.
      + intros i Hi. rewrite load_store_other by (intros [= ]; lia). apply Hrest. lia. }
  destruct (Hvalue count (le_n _)) as (Hq & Hl & Hdone & Hrest).
  cbv zeta in Hq, Hl, Hdone, Hrest. fold m' in Hq, Hl, Hdone, Hrest.
  split; [exact Hq|]. split; [exact Hl|]. split; [exact Hdone|]. split; [exact Hrest|].
  intros i Hi Hnan Hnan_ap. rewrite (Hdone i Hi). unfold smoothed_column_value.
  rewrite smoothed_column_step_invalid; [reflexivity| |].
  - intros j Hj. apply Hnan. apply in_seq in Hj. lia.
  - intros ap j Eap Hj. apply (Hnan_ap ap j Eap). apply in_seq in Hj. lia.
Qed.

Lemma smoothed_column_loop_fills_column_witness :
  let partcol := example_profile_variable "O3" 1%positive in
  let avk := example_profile_variable "O3_avk" 2%positive in
  let column :=
    {| name := "O3_column"; unit_str := ""; data_type := harp_type_double;
       num_dimensions := 1; dimension_type := [harp_dimension_time];
       dimension := [1%Z]; num_elements := 1; data := 6%positive |} in
  let m : gmap address (list float) :=
    <[1%positive := [2; nan]%float]>
      (<[2%positive := [0.5; 0.5]%float]> {[ 6%positive := [7]%float ]}) in
  load (fold_left (smoothed_column_element partcol avk None column 2) (seq 0 1) m)
    6%positive 0
  = smoothed_column_value partcol avk None 2 m 0.
Proof.
  cbv zeta.
  refine (proj1 (proj2 (proj2 (smoothed_column_loop_fills_column
                                 (example_profile_variable "O3" 1%positive)
                                 (example_profile_variable "O3_avk" 2%positive)
                                 _ None 2 1 _ _ _ _ _))) 0%nat _);
    try (cbn; congruence); try discriminate.
  - vm_compute. lia.
  - lia.
Defined.

(** ** The closed form of the vertical smoothing *)

Lemma fold_seq_invariant {A : Type} (f : A -> nat -> A) (P : nat -> A -> Prop)
    (lo count : nat) (a : A) :
  P lo a ->
  (forall i a, (lo <= i < lo + count)%nat -> P i a -> P (S i) (f a i)) ->
  P (lo + count)%nat (fold_left f (seq lo count) a).
Proof.
  revert lo a. induction count as [|count IH]; intros lo a H0 Hstep; cbn [seq fold_left].
  - now rewrite Nat.add_0_r.
  - replace (lo + S count)%nat with (S lo + count)%nat by lia.
    apply IH; [apply Hstep; [lia|exact H0]|].
    intros i a' Hi. apply Hstep. lia.
Qed.

Section SmoothClosedForm.
Local Open Scope float_scope.

Variables variable averaging_kernel : harp_variable.
Variables vertical_axis apriori : option harp_variable.
Variable m0 : gmap address (list float).
Variables max_vertical_elements num_blocks : Z.
Variable rows : nat.

Local Abbreviation pv := (data variable).
Local Abbreviation mve := (Z.to_nat max_vertical_elements).
Local Abbreviation nb := (Z.to_nat num_blocks).

Hypothesis avk_own_buffer : data averaging_kernel <> pv.
Hypothesis apriori_own_buffer : forall ap, apriori = Some ap -> data ap <> pv.
Hypothesis axis_own_buffer : forall ax, vertical_axis = Some ax -> data ax <> pv.
Hypothesis buffer_large : (rows * nb * mve <= length (buffer m0 pv))%nat.

Local Abbreviation cell := (fun k l i : nat => ((k * nb + l) * mve + i)%nat).
Local Abbreviation final :=
  (smoothed_cell variable vertical_axis averaging_kernel apriori m0
     max_vertical_elements num_blocks).
Local Abbreviation count :=
  (fun k : nat =>
     Z.to_nat (row_num_vertical_elements vertical_axis m0 max_vertical_elements k)).

(** The levels the loops have passed when they stand at level [I] of block
    [L] of row [K]. *)
Local Abbreviation passed :=
  (fun K L I k l i : nat =>
     (k < K \/ (k = K /\ (l < L \/ (l = L /\ i < I))))%nat).

(** Passed levels hold their final value, the others their first one. *)
Local Abbreviation standing :=
  (fun (K L I : nat) (m : gmap address (list float)) =>
     (forall q, q <> pv -> m !! q = m0 !! q)
     /\ length (buffer m pv) = length (buffer m0 pv)
     /\ (forall k l i, (l < nb)%nat -> (i < mve)%nat -> passed K L I k l i ->
           load m pv (cell k l i) = final k l i)
     /\ (forall k l i, (l < nb)%nat -> (i < mve)%nat -> ~ passed K L I k l i ->
           load m pv (cell k l i) = load m0 pv (cell k l i))).

Lemma smooth_level_sum m c off (vector : list float) (l : list nat) a n :
  (c < length (buffer m pv))%nat ->
  fold_left
    (fun (s : gmap address (list float) * Z) (j : nat) =>
       if negb (harp_isnan vector.[j])
       then (store (fst s) pv c
               (load (fst s) pv c + load (fst s) (data averaging_kernel) (off + j) * vector.[j]),
             (snd s + 1)%Z)
       else s)
    l (store m pv c a, n)
  = (store m pv c
       (fold_left
          (fun acc j =>
             if negb (harp_isnan vector.[j])
             then acc + load m (data averaging_kernel) (off + j) * vector.[j]
             else acc) l a),
     fold_left (fun n j => if negb (harp_isnan vector.[j]) then (n + 1)%Z else n) l n).
Proof using avk_own_buffer.
  intros Hc. revert a n. induction l as [|j l IH]; intros a n; cbn [fold_left]; [reflexivity|].
  destruct (negb (harp_isnan vector.[j])); cbn [fst snd]; [|apply IH].
  rewrite load_store by exact Hc.
  rewrite load_store_other by (intros [= ]; congruence).
  rewrite store_store. apply IH.
Qed.

Lemma smooth_level_value nve k blockoffset (vector : list float) m i :
  (blockoffset + i < length (buffer m pv))%nat ->
  smooth_level variable averaging_kernel apriori mve nve k blockoffset vector m i
  = store m pv (blockoffset + i)
      (let sum :=
         fold_left
           (fun acc j =>
              if negb (harp_isnan vector.[j])
              then acc + load m (data averaging_kernel) ((k * mve + i) * mve + j) * vector.[j]
              else acc) (seq 0 nve) 0 in
       let num_valid :=
         fold_left (fun n j => if negb (harp_isnan vector.[j]) then (n + 1)%Z else n)
                   (seq 0 nve) 0%Z in
       match apriori with
       | Some ap => sum + load m (data ap) (k * mve + i)
       | None => if (num_valid =? 0)%Z then harp_nan else sum
       end).
Proof using avk_own_buffer apriori_own_buffer.
  intros Hc. unfold smooth_level. cbv zeta.
  rewrite smooth_level_sum by exact Hc.
  destruct apriori as [ap|] eqn:Eap.
  - rewrite load_store by exact Hc.
    rewrite load_store_other by (intros [= ]; now apply (apriori_own_buffer ap)).
    now rewrite store_store.
  - destruct (_ =? 0)%Z; [now rewrite store_store|reflexivity].
Qed.

Lemma standing_level (K L I : nat) (vector : list float) (m : gmap address (list float)) :
  (K < rows)%nat -> (L < nb)%nat -> (I < count K)%nat -> (count K <= mve)%nat ->
  (forall j, (j < count K)%nat -> vector.[j] = subtracted_profile variable apriori m0 mve nb K L j) ->
  standing K L I m ->
  standing K L (S I)
    (if negb (harp_isnan vector.[I])
     then smooth_level variable averaging_kernel apriori mve (count K) K ((K * nb + L) * mve)
            vector m I
     else m).
Proof using All.
  intros HK HL HI Hcount Hvec (Hq & Hlen & Hdone & Hrest).
  pose proof (cell_in_bounds rows nb mve K L I HK HL ltac:(lia)) as Hcell.
  assert (Hfinal : final K L I
                   = if negb (harp_isnan vector.[I])
                     then smoothed_value variable averaging_kernel apriori m0 mve nb
                            (count K) K L I
                     else load m0 pv (cell K L I)).
  { unfold smoothed_cell. cbv zeta. rewrite (proj2 (Nat.ltb_lt _ _) HI). cbn [andb].
    now rewrite (Hvec I HI). }
  destruct (negb (harp_isnan vector.[I])) eqn:Evalid.
  - rewrite smooth_level_value by lia. cbv zeta.
    assert (Hvalue :
      (let sum :=
         fold_left
           (fun acc j =>
              if negb (harp_isnan vector.[j])
              then acc + load m (data averaging_kernel) ((K * mve + I) * mve + j) * vector.[j]
              else acc) (seq 0 (count K)) 0 in
       let num_valid :=
         fold_left (fun n j => if negb (harp_isnan vector.[j]) then (n + 1)%Z else n)
                   (seq 0 (count K)) 0%Z in
       match apriori with
       | Some ap => sum + load m (data ap) (K * mve + I)
       | None => if (num_valid =? 0)%Z then harp_nan else sum
       end) = final K L I).
    { rewrite Hfinal. unfold smoothed_value. cbv zeta.
      rewrite (fold_left_ext_in
                 (fun acc j =>
                    if negb (harp_isnan vector.[j])
                    then acc + load m (data averaging_kernel) ((K * mve + I) * mve + j)
                               * vector.[j]
                    else acc)
                 (fun acc j =>
                    if negb (harp_isnan (subtracted_profile variable apriori m0 mve nb K L j))
                    then acc + load m0 (data averaging_kernel) ((K * mve + I) * mve + j)
                               * subtracted_profile variable apriori m0 mve nb K L j
                    else acc)).
      2:{ intros acc j Hj. apply in_seq in Hj. rewrite (Hvec j) by lia.
          unfold load at 1, buffer. now rewrite (Hq _ avk_own_buffer). }
      rewrite (fold_left_ext_in
                 (fun n j => if negb (harp_isnan vector.[j]) then (n + 1)%Z else n)
                 (fun n j =>
                    if negb (harp_isnan (subtracted_profile variable apriori m0 mve nb K L j))
                    then (n + 1)%Z else n)).
      2:{ intros n j Hj. apply in_seq in Hj. now rewrite (Hvec j) by lia. }
      destruct apriori as [ap|] eqn:Eap; [|reflexivity].
      f_equal. unfold load, buffer. now rewrite (Hq _ (apriori_own_buffer ap eq_refl)). }
    cbv zeta in Hvalue. rewrite Hvalue.
    split; [|split; [|split]].
    + intros q Hne. rewrite store_other_buffer by exact Hne. now apply Hq.
    + now rewrite length_buffer_store.
    + intros k l i Hl Hi Hp.
      destruct (decide (cell k l i = cell K L I)) as [Heq|Hne].
      * apply cell_unique in Heq as (-> & -> & ->); try lia.
        rewrite load_store by lia. reflexivity.
      * rewrite load_store_other by (intros [= ]; lia). apply Hdone; [lia|lia|].
        destruct (decide (k = K /\ l = L /\ i = I)) as [(-> & -> & ->)|Hd]; [congruence|lia].
    + intros k l i Hl Hi Hp.
      rewrite load_store_other; [apply Hrest; [lia|lia|lia]|].
      intros [= Heq]. apply cell_unique in Heq as (-> & -> & ->); lia.
  - split; [exact Hq|]. split; [exact Hlen|]. split.
    + intros k l i Hl Hi Hp.
      destruct (decide (k = K /\ l = L /\ i = I)) as [(-> & -> & ->)|Hd].
      * rewrite Hfinal. apply Hrest; lia.
      * apply Hdone; lia.
    + intros k l i Hl Hi Hp. apply Hrest; lia.
Qed.

Lemma standing_block (K L : nat) (m : gmap address (list float)) :
  (K < rows)%nat -> (L < nb)%nat -> (count K <= mve)%nat ->
  standing K L 0%nat m ->
  standing K (S L) 0%nat
    (smooth_block variable averaging_kernel apriori mve (count K) nb K m L).
Proof using All.
  intros HK HL Hcount Hm. unfold smooth_block. cbv zeta.
  set (vector := smooth_vector variable apriori m mve (count K) K ((K * nb + L) * mve)).
  assert (Hvec : forall j, (j < count K)%nat ->
            vector.[j] = subtracted_profile variable apriori m0 mve nb K L j).
  { intros j Hj. unfold vector. rewrite smooth_vector_at by exact Hj.
    destruct Hm as (Hq & _ & _ & Hrest). unfold subtracted_profile. cbv zeta.
    cbv beta in *. rewrite (Hrest K L j) by lia.
    destruct apriori as [ap|] eqn:Eap; [|reflexivity].
    f_equal. unfold load, buffer. now rewrite (Hq _ (apriori_own_buffer ap eq_refl)). }
  pose proof (fold_seq_invariant
                (fun m i =>
                   if negb (harp_isnan vector.[i])
                   then smooth_level variable averaging_kernel apriori mve (count K) K
                          ((K * nb + L) * mve) vector m i
                   else m)
                (fun I m => standing K L I m) 0 (count K) m Hm) as Hfold.
  cbn [Nat.add] in Hfold.
  destruct Hfold as (Hq & Hlen & Hdone & Hrest).
  { intros i m' Hi Hm'. apply standing_level; auto; lia. }
  split; [exact Hq|]. split; [exact Hlen|]. split.
  - intros k l i Hl Hi Hp.
    destruct (decide (k = K /\ l = L /\ (count K <= i)%nat)) as [(-> & -> & Hge)|Hd].
    + rewrite Hrest by lia. unfold smoothed_cell. cbv zeta.
      now rewrite (proj2 (Nat.ltb_ge _ _) Hge).
    + apply Hdone; lia.
  - intros k l i Hl Hi Hp. apply Hrest; lia.
Qed.

Lemma standing_row (K : nat) (m : gmap address (list float)) :
  (K < rows)%nat ->
  standing K 0%nat 0%nat m ->
  standing (S K) 0%nat 0%nat
    (smooth_row variable vertical_axis averaging_kernel apriori
       max_vertical_elements num_blocks m K).
Proof using All.
  intros HK Hm. unfold smooth_row. cbv zeta.
  assert (Hcount : row_num_vertical_elements vertical_axis m max_vertical_elements K
                   = row_num_vertical_elements vertical_axis m0 max_vertical_elements K).
  { apply (row_count_agree variable); [exact axis_own_buffer|apply Hm]. }
  rewrite Hcount.
  pose proof (row_count_le vertical_axis m0 max_vertical_elements K) as Hle.
  pose proof (fold_seq_invariant
                (smooth_block variable averaging_kernel apriori mve (count K) nb K)
                (fun L m => standing K L 0%nat m) 0 nb m Hm) as Hfold.
  cbn [Nat.add] in Hfold.
  destruct Hfold as (Hq & Hlen & Hdone & Hrest).
  { intros l m' Hl Hm'. apply standing_block; auto; lia. }
  split; [exact Hq|]. split; [exact Hlen|]. split.
  - intros k l i Hl Hi Hp. apply Hdone; lia.
  - intros k l i Hl Hi Hp. apply Hrest; lia.
Qed.

Lemma smooth_rows_closed_form :
  let m :=
    fold_left
      (smooth_row variable vertical_axis averaging_kernel apriori
         max_vertical_elements num_blocks)
      (seq 0 rows) m0 in
  forall k l i, (k < rows)%nat -> (l < nb)%nat -> (i < mve)%nat ->
    load m pv (cell k l i) = final k l i.
Proof using All.
  cbv zeta.
  pose proof (fold_seq_invariant
                (smooth_row variable vertical_axis averaging_kernel apriori
                   max_vertical_elements num_blocks)
                (fun K m => (K <= rows)%nat -> standing K 0%nat 0%nat m) 0 rows m0) as Hfold.
  cbn [Nat.add] in Hfold.
  destruct Hfold as (_ & _ & Hdone & _).
  - intros _. split; [auto|]. split; [reflexivity|]. split; [|auto].
    intros k l i Hl Hi Hp. lia.
  - intros K m HK Hm _. apply standing_row; [lia|]. apply Hm. lia.
  - lia.
  - intros k l i Hk Hl Hi. apply Hdone; lia.
Qed.

End SmoothClosedForm.

Section SmoothClosedFormClaims.
Local Open Scope float_scope.

Lemma smooth_vertical_cells
    (variable averaging_kernel : harp_variable)
    (vertical_axis apriori : option harp_variable) (w : world) :
  let rows := Z.to_nat (dimension_at variable 0) in
  let max_vertical_elements := dimension_at averaging_kernel 1 in
  let num_blocks :=
    ((num_elements variable ÷ dimension_at variable 0) ÷ max_vertical_elements)%Z in
  let mve := Z.to_nat max_vertical_elements in
  let nb := Z.to_nat num_blocks in
  smooth_vertical_validate (Some variable) vertical_axis (Some averaging_kernel) apriori
  = inr (variable, averaging_kernel) ->
  malloc_ok w (max_vertical_elements * 8)%Z = true ->
  (0 < dimension_at variable 0)%Z ->
  (0 < max_vertical_elements)%Z ->
  (0 <= num_elements variable)%Z ->
  length (buffer (mem w) (data variable)) = Z.to_nat (num_elements variable) ->
  data averaging_kernel <> data variable ->
  (forall ap, apriori = Some ap -> data ap <> data variable) ->
  (forall ax, vertical_axis = Some ax -> data ax <> data variable) ->
  exists w',
    harp_variable_smooth_vertical (Some variable) vertical_axis (Some averaging_kernel)
      apriori w = (0%Z, w')
    /\ forall k l i, (k < rows)%nat -> (l < nb)%nat -> (i < mve)%nat ->
         load (mem w') (data variable) ((k * nb + l) * mve + i)
         = smoothed_cell variable vertical_axis averaging_kernel apriori (mem w)
             max_vertical_elements num_blocks k l i.
Proof.
  intros rows max_vertical_elements num_blocks mve nb Hvalid Hmalloc Hrows Hmve Hne Hlen
    Havk Hap Hax.
  unfold harp_variable_smooth_vertical. rewrite Hvalid. fold max_vertical_elements.
  rewrite Hmalloc. cbn [negb]. fold num_blocks.
  eexists. split; [reflexivity|]. cbn [mem with_mem].
  apply (smooth_rows_closed_form variable averaging_kernel vertical_axis apriori (mem w)
           max_vertical_elements num_blocks rows Havk Hap Hax).
  rewrite Hlen. apply blocks_fit; lia.
Qed.

(** X21: when the variable has a buffer of its own, [harp_variable_smooth_vertical]
    succeeds and leaves in level [i] of block [l] of time row [k] the value
    [smoothed_cell]: for a level within the valid length of the row whose profile
    value (minus the a priori) is not NaN, row [i] of the kernel applied to the
    levels of the original profile (minus the a priori) that are not NaN, plus the
    a priori; for every other level, the original value. *)
Theorem smooth_vertical_computes_smoothed_profile
    (variable averaging_kernel : harp_variable)
    (vertical_axis apriori : option harp_variable) (w : world) :
  let rows := Z.to_nat (dimension_at variable 0) in
  let max_vertical_elements := dimension_at averaging_kernel 1 in
  let num_blocks :=
    ((num_elements variable ÷ dimension_at variable 0) ÷ max_vertical_elements)%Z in
  let mve := Z.to_nat max_vertical_elements in
  let nb := Z.to_nat num_blocks in
  smooth_vertical_validate (Some variable) vertical_axis (Some averaging_kernel) apriori
  = inr (variable, averaging_kernel) ->
  malloc_ok w (max_vertical_elements * 8)%Z = true ->
  (0 < dimension_at variable 0)%Z ->
  (0 < max_vertical_elements)%Z ->
  (0 <= num_elements variable)%Z ->
  length (buffer (mem w) (data variable)) = Z.to_nat (num_elements variable) ->
  data averaging_kernel <> data variable ->
  (forall ap, apriori = Some ap -> data ap <> data variable) ->
  (forall ax, vertical_axis = Some ax -> data ax <> data variable) ->
  exists w',
    harp_variable_smooth_vertical (Some variable) vertical_axis (Some averaging_kernel)
      apriori w = (0%Z, w')
    /\ forall k l i, (k < rows)%nat -> (l < nb)%nat -> (i < mve)%nat ->
         load (mem w') (data variable) ((k * nb + l) * mve + i)
         = smoothed_cell variable vertical_axis averaging_kernel apriori (mem w)
             max_vertical_elements num_blocks k l i.
Proof. exact (smooth_vertical_cells variable averaging_kernel vertical_axis apriori w). Qed.

Lemma smooth_vertical_computes_smoothed_profile_witness :
  let w := example_world [1; 2] [10; nan] in
  exists w',
    harp_variable_smooth_vertical (Some example_variable) (Some example_axis)
      (Some example_avk) (Some example_apriori) w = (0%Z, w')
    /\ forall k l i, (k < 1)%nat -> (l < 1)%nat -> (i < 2)%nat ->
         load (mem w') (data example_variable) ((k * 1 + l) * 2 + i)
         = smoothed_cell example_variable (Some example_axis) example_avk
             (Some example_apriori) (mem w) 2 1 k l i.
Proof.
  cbv zeta.
  apply (smooth_vertical_computes_smoothed_profile example_variable example_avk
           (Some example_axis) (Some example_apriori) (example_world [1; 2] [10; nan]));
    try reflexivity; try (cbn; lia);
    try (intros v [= <-]; discriminate); discriminate.
Defined.

(** The sum of the products with a zero kernel row is a zero. *)
Lemma zero_row_sum (kernel vector : nat -> float) (levels : list nat) (acc : float) :
  (forall j, In j levels -> kernel j = 0) ->
  (forall j, In j levels -> is_infinity (vector j) = false) ->
  is_zero_double acc = true ->
  is_zero_double
    (fold_left (fun acc j => if negb (harp_isnan (vector j)) then acc + kernel j * vector j
                             else acc) levels acc) = true.
Proof.
  revert acc. induction levels as [|j levels IH]; intros acc Hk Hinf Hacc; [exact Hacc|].
  cbn [fold_left]. apply IH; [intros; apply Hk; now right|intros; apply Hinf; now right|].
  destruct (harp_isnan (vector j)) eqn:En; cbn [negb]; [exact Hacc|].
  rewrite (Hk j (or_introl eq_refl)).
  apply Binary64.add_zeros; [exact Hacc|].
  apply Binary64.mul_zero_l; [exact En|apply Hinf; now left].
Qed.

Lemma valid_level_counted (vector : nat -> float) (levels : list nat) (n : Z) (i : nat) :
  (0 <= n)%Z ->
  (0 <= fold_left (fun n j => if negb (harp_isnan (vector j)) then (n + 1)%Z else n) levels n)%Z
  /\ (In i levels -> harp_isnan (vector i) = false ->
      (1 <= fold_left (fun n j => if negb (harp_isnan (vector j)) then (n + 1)%Z else n)
              levels n)%Z).
Proof.
  revert n. induction levels as [|j levels IH]; intros n Hn; cbn [fold_left].
  - split; [exact Hn|]. intros [].
  - destruct (harp_isnan (vector j)) eqn:En; cbn [negb].
    + destruct (IH n Hn) as [H0 H1]. split; [exact H0|].
      intros [->|Hin] Hi; [congruence|now apply H1].
    + destruct (IH (n + 1)%Z ltac:(lia)) as [H0 H1]. split; [exact H0|].
      intros [->|Hin] Hi; [|now apply H1].
      clear -Hn. revert n Hn. induction levels as [|j' levels IH']; intros n Hn; cbn [fold_left];
        [lia|]. destruct (negb _); apply IH'; lia.
Qed.

(** X22: with an averaging kernel that is zero everywhere and a profile that has no
    infinite difference to the a priori, smoothing returns the a priori at every
    valid level whose difference is not NaN (up to the sign of a zero), and a zero
    when there is no a priori. *)
Theorem zero_kernel_smoothing_returns_apriori
    (variable averaging_kernel : harp_variable)
    (vertical_axis apriori : option harp_variable) (w : world) :
  let rows := Z.to_nat (dimension_at variable 0) in
  let max_vertical_elements := dimension_at averaging_kernel 1 in
  let num_blocks :=
    ((num_elements variable ÷ dimension_at variable 0) ÷ max_vertical_elements)%Z in
  let mve := Z.to_nat max_vertical_elements in
  let nb := Z.to_nat num_blocks in
  let count k :=
    Z.to_nat (row_num_vertical_elements vertical_axis (mem w) max_vertical_elements k) in
  let vector := subtracted_profile variable apriori (mem w) mve nb in
  smooth_vertical_validate (Some variable) vertical_axis (Some averaging_kernel) apriori
  = inr (variable, averaging_kernel) ->
  malloc_ok w (max_vertical_elements * 8)%Z = true ->
  (0 < dimension_at variable 0)%Z ->
  (0 < max_vertical_elements)%Z ->
  (0 <= num_elements variable)%Z ->
  length (buffer (mem w) (data variable)) = Z.to_nat (num_elements variable) ->
  data averaging_kernel <> data variable ->
  (forall ap, apriori = Some ap -> data ap <> data variable) ->
  (forall ax, vertical_axis = Some ax -> data ax <> data variable) ->
  (forall k i j, (k < rows)%nat -> (i < mve)%nat -> (j < mve)%nat ->
     load (mem w) (data averaging_kernel) ((k * mve + i) * mve + j) = 0) ->
  (forall k l j, (k < rows)%nat -> (l < nb)%nat -> (j < count k)%nat ->
     is_infinity (vector k l j) = false) ->
  exists w',
    harp_variable_smooth_vertical (Some variable) vertical_axis (Some averaging_kernel)
      apriori w = (0%Z, w')
    /\ forall k l i, (k < rows)%nat -> (l < nb)%nat -> (i < count k)%nat ->
         harp_isnan (vector k l i) = false ->
         match apriori with
         | Some ap =>
             alike (load (mem w') (data variable) ((k * nb + l) * mve + i))
                   (load (mem w) (data ap) (k * mve + i))
         | None =>
             is_zero_double (load (mem w') (data variable) ((k * nb + l) * mve + i)) = true
         end.
Proof.
  intros rows max_vertical_elements num_blocks mve nb count vector Hvalid Hmalloc Hrows Hmve
    Hne Hlen Havk Hap Hax Hzero Hfinite.
  destruct (smooth_vertical_cells variable averaging_kernel vertical_axis apriori w
              Hvalid Hmalloc Hrows Hmve Hne Hlen Havk Hap Hax) as (w' & Hw' & Hcells).
  exists w'. split; [exact Hw'|].
  intros k l i Hk Hl Hi Hnan.
  pose proof (row_count_le vertical_axis (mem w) max_vertical_elements k) as Hle.
  fold mve in Hle. fold (count k) in Hle.
  fold rows max_vertical_elements num_blocks mve nb in Hcells.
  rewrite (Hcells k l i Hk Hl ltac:(lia)).
  unfold smoothed_cell. cbv zeta. fold mve nb (count k) (vector k l i).
  rewrite (proj2 (Nat.ltb_lt _ _) Hi), Hnan. cbn [andb negb].
  unfold smoothed_value. cbv zeta. fold (vector k l).
  pose proof (zero_row_sum
                (fun j => load (mem w) (data averaging_kernel) ((k * mve + i) * mve + j))
                (vector k l) (seq 0 (count k)) 0) as Hsum.
  cbv beta in Hsum.
  assert (Hz : is_zero_double
                 (fold_left
                    (fun acc j =>
                       if negb (harp_isnan (vector k l j))
                       then acc + load (mem w) (data averaging_kernel)
                                    ((k * mve + i) * mve + j) * vector k l j
                       else acc) (seq 0 (count k)) 0) = true).
  { apply Hsum; [| |reflexivity].
    - intros j Hj. apply in_seq in Hj. apply Hzero; lia.
    - intros j Hj. apply in_seq in Hj. apply Hfinite; lia. }
  destruct apriori as [ap|].
  - now apply Binary64.add_zero_l_alike.
  - destruct (valid_level_counted (vector k l) (seq 0 (count k)) 0%Z i ltac:(lia)) as [_ Hone].
    specialize (Hone ltac:(apply in_seq; lia) Hnan).
    destruct (_ =? 0)%Z eqn:E0; [apply Z.eqb_eq in E0; lia|exact Hz].
Qed.

Lemma zero_kernel_smoothing_returns_apriori_witness :
  let w :=
    {| mem := <[1%positive := [1; 2]]>
                (<[2%positive := [0; 0; 0; 0]]> {[ 3%positive := [5; 6] ]});
       mem_int32 := ∅; harp_errno := None; malloc_ok := fun _ => true |} in
  exists w',
    harp_variable_smooth_vertical (Some example_variable) None (Some example_avk)
      (Some example_apriori) w = (0%Z, w')
    /\ alike (load (mem w') 1%positive 0) 5 /\ alike (load (mem w') 1%positive 1) 6.
Proof.
  cbv zeta.
  destruct (zero_kernel_smoothing_returns_apriori example_variable example_avk None
              (Some example_apriori)
              {| mem := <[1%positive := [1; 2]]>
                          (<[2%positive := [0; 0; 0; 0]]> {[ 3%positive := [5; 6] ]});
                 mem_int32 := ∅; harp_errno := None; malloc_ok := fun _ => true |})
    as (w' & Hw' & Hcells);
    try reflexivity; try (cbn; lia); try (intros v [= <-]; discriminate); try discriminate.
  - intros k i j Hk Hi Hj. vm_compute in Hk, Hi, Hj.
    destruct k as [|k]; [|lia]. destruct i as [|[|i]], j as [|[|j]]; try lia; reflexivity.
  - intros k l j Hk Hl Hj. vm_compute in Hk, Hl, Hj.
    destruct k as [|k]; [|lia]. destruct l as [|l]; [|lia].
    destruct j as [|[|j]]; try lia; reflexivity.
  - exists w'. split; [exact Hw'|]. split.
    + apply (Hcells 0%nat 0%nat 0%nat); vm_compute; first [lia|reflexivity].
    + apply (Hcells 0%nat 0%nat 1%nat); vm_compute; first [lia|reflexivity].
Defined.

End SmoothClosedFormClaims.

(** ** A row whose vertical axis holds only NaN *)

Section AllNanAxis.
Local Open Scope float_scope.

(** The checks on the vertical axis come last: arguments that pass with an
    axis pass without it. *)
Lemma smooth_vertical_validate_without_axis
    (variable vertical_axis averaging_kernel : harp_variable) (apriori : option harp_variable) :
  smooth_vertical_validate (Some variable) (Some vertical_axis) (Some averaging_kernel) apriori
  = inr (variable, averaging_kernel) ->
  smooth_vertical_validate (Some variable) None (Some averaging_kernel) apriori
  = inr (variable, averaging_kernel).
Proof.
  unfold smooth_vertical_validate.
  repeat match goal with
         | |- context [if ?c then inl _ else _] => destruct c; [discriminate|]
         end.
  destruct (match apriori with Some _ => _ | None => _ end); [discriminate|].
  intros _. reflexivity.
Qed.

(** C9. Let the arguments pass the structural validation, the allocation
    succeed, the extents be positive and the variable's buffer hold its
    elements and be shared with no other argument.  If the [vertical_axis]
    row of time index [k] holds only NaN, the trimming helper returns the full
    vector length for it, the row's valid-level count is the full vertical
    extent, and [harp_variable_smooth_vertical] returns 0 having smoothed the
    row over all levels: every level [i] of every block [l] of the row whose
    value (minus the a priori) is not NaN holds row [i] of the kernel applied
    to all [max_vertical_elements] levels of the original profile (plus the
    a priori), which is also what the call without a vertical axis leaves
    there; nothing is treated as a row of zero valid levels. *)
Theorem all_nan_axis_row_is_smoothed_over_all_levels
    (variable vertical_axis averaging_kernel : harp_variable) (apriori : option harp_variable)
    (w : world) (k : nat) :
  let rows := Z.to_nat (dimension_at variable 0) in
  let max_vertical_elements := dimension_at averaging_kernel 1 in
  let num_blocks :=
    ((num_elements variable ÷ dimension_at variable 0) ÷ max_vertical_elements)%Z in
  let mve := Z.to_nat max_vertical_elements in
  let nb := Z.to_nat num_blocks in
  smooth_vertical_validate (Some variable) (Some vertical_axis) (Some averaging_kernel) apriori
  = inr (variable, averaging_kernel) ->
  malloc_ok w (max_vertical_elements * 8)%Z = true ->
  (0 < dimension_at variable 0)%Z ->
  (0 < max_vertical_elements)%Z ->
  (0 <= num_elements variable)%Z ->
  length (buffer (mem w) (data variable)) = Z.to_nat (num_elements variable) ->
  data averaging_kernel <> data variable ->
  (forall ap, apriori = Some ap -> data ap <> data variable) ->
  data vertical_axis <> data variable ->
  (k < rows)%nat ->
  (forall i, (i < mve)%nat ->
     harp_isnan (load (mem w) (data vertical_axis) (k * mve + i)) = true) ->
  get_unpadded_vector_length (drop (k * mve) (buffer (mem w) (data vertical_axis)))
    max_vertical_elements = max_vertical_elements
  /\ row_num_vertical_elements (Some vertical_axis) (mem w) max_vertical_elements k
     = max_vertical_elements
  /\ exists w' w_without_axis,
       harp_variable_smooth_vertical (Some variable) (Some vertical_axis)
         (Some averaging_kernel) apriori w = (0%Z, w')
       /\ harp_variable_smooth_vertical (Some variable) None (Some averaging_kernel) apriori w
          = (0%Z, w_without_axis)
       /\ forall l i, (l < nb)%nat -> (i < mve)%nat ->
            let cell := ((k * nb + l) * mve + i)%nat in
            load (mem w') (data variable) cell
            = (if harp_isnan (subtracted_profile variable apriori (mem w) mve nb k l i)
               then load (mem w) (data variable) cell
               else smoothed_value variable averaging_kernel apriori (mem w) mve nb mve k l i)
            /\ load (mem w') (data variable) cell
               = load (mem w_without_axis) (data variable) cell.
Proof.
  intros rows max_vertical_elements num_blocks mve nb Hvalid Hmalloc Hrows Hmve Hne Hlen
    Havk Hap Hax Hk Hnan.
  subst rows mve nb num_blocks max_vertical_elements.
  set (mve := Z.to_nat (dimension_at averaging_kernel 1)) in *.
  assert (Hscan : get_unpadded_vector_length
                    (drop (k * mve) (buffer (mem w) (data vertical_axis)))
                    (dimension_at averaging_kernel 1) = dimension_at averaging_kernel 1).
  { unfold get_unpadded_vector_length. apply unpadded_scan_all_nan.
    intros i Hi. unfold fget. rewrite lookup_drop. apply Hnan. exact Hi. }
  split; [exact Hscan|]. split; [exact Hscan|].
  destruct (smooth_vertical_cells variable averaging_kernel (Some vertical_axis) apriori w
              Hvalid Hmalloc Hrows Hmve Hne Hlen Havk Hap)
    as (w' & Hcall & Hcells).
  { intros ax [= <-]. exact Hax. }
  destruct (smooth_vertical_cells variable averaging_kernel None apriori w
              (smooth_vertical_validate_without_axis _ _ _ _ Hvalid)
              Hmalloc Hrows Hmve Hne Hlen Havk Hap)
    as (w0 & Hcall0 & Hcells0).
  { intros ax [=]. }
  exists w', w0. split; [exact Hcall|]. split; [exact Hcall0|].
  intros l i Hl Hi cell.
  specialize (Hcells k l i Hk Hl Hi). specialize (Hcells0 k l i Hk Hl Hi).
  fold mve in Hcells, Hcells0. fold cell in Hcells, Hcells0.
  rewrite Hcells, Hcells0. unfold smoothed_cell.
  cbn [row_num_vertical_elements]. fold mve. rewrite Hscan. fold mve.
  split; [|reflexivity].
  rewrite (proj2 (Nat.ltb_lt i mve) Hi). cbn [andb].
  fold cell. destruct (harp_isnan _); reflexivity.
Qed.

(** One time row of two levels whose axis is [NaN, NaN]: the profile [1, 2]
    is smoothed over both levels. *)
Lemma all_nan_axis_row_is_smoothed_over_all_levels_witness :
  let w := example_world [1; 2] [nan; nan] in
  row_num_vertical_elements (Some example_axis) (mem w) 2 0 = 2%Z
  /\ exists w' w_without_axis,
       harp_variable_smooth_vertical (Some example_variable) (Some example_axis)
         (Some example_avk) (Some example_apriori) w = (0%Z, w')
       /\ harp_variable_smooth_vertical (Some example_variable) None
            (Some example_avk) (Some example_apriori) w = (0%Z, w_without_axis)
       /\ forall l i, (l < 1)%nat -> (i < 2)%nat ->
            let cell := ((0 * 1 + l) * 2 + i)%nat in
            load (mem w') (data example_variable) cell
            = (if harp_isnan (subtracted_profile example_variable (Some example_apriori)
                                (mem w) 2 1 0 l i)
               then load (mem w) (data example_variable) cell
               else smoothed_value example_variable example_avk (Some example_apriori)
                      (mem w) 2 1 2 0 l i)
            /\ load (mem w') (data example_variable) cell
               = load (mem w_without_axis) (data example_variable) cell.
Proof.
  intros w.
  refine (proj2 (all_nan_axis_row_is_smoothed_over_all_levels example_variable example_axis
                   example_avk (Some example_apriori) w 0%nat _ _ _ _ _ _ _ _ _ _ _));
    try reflexivity; try (cbn; lia); try discriminate.
  - intros ap [= <-]. discriminate.
  - vm_compute. lia.
  - intros i Hi. destruct i as [|[|i]]; [vm_compute; reflexivity..|exfalso; vm_compute in Hi; lia].
Defined.

End AllNanAxis.

(** ** The loop that strips a collocated product *)

Section StrippingFacts.
Context `{Collaborators}.

Lemma strip_variables_filters (keep : string -> bool) (j : nat)
    (collocated_product : harp_product) (w : world) :
  removal_takes_one_out ->
  distinct_names collocated_product ->
  (j <= length (product_variable collocated_product))%nat ->
  exists stripped w',
    strip_variables keep j collocated_product w = (stripped, true, w')
    /\ product_variable stripped
       = List.filter (fun v => keep (name v)) (take j (product_variable collocated_product))
         ++ drop j (product_variable collocated_product).
Proof.
  intros Hremove. revert collocated_product w.
  induction j as [|j IH]; intros cp w Hnames Hj; cbn [strip_variables].
  - exists cp, w. split; [reflexivity|]. now rewrite take_0, drop_0.
  - destruct (lookup_lt_is_Some_2 (product_variable cp) j ltac:(lia)) as [v Hv].
    rewrite Hv. destruct (keep (name v)) eqn:Ekeep.
    + destruct (IH cp w Hnames ltac:(lia)) as (stripped & w' & Hs & Hvars).
      exists stripped, w'. split; [exact Hs|]. rewrite Hvars.
      rewrite (take_S_r _ _ _ Hv), List.filter_app. cbn [List.filter]. rewrite Ekeep.
      rewrite <- app_assoc. cbn [app]. now rewrite (drop_S _ _ _ Hv).
    + destruct (Hremove cp v w Hnames (list_elem_of_lookup_2 _ _ _ Hv))
        as (cp' & w' & before & after & -> & Hsplit & Hcp').
      assert (Hlen : j = length before).
      { apply (NoDup_lookup (product_variable cp) j (length before) v);
          [exact (NoDup_fmap_1 name _ Hnames)|exact Hv|].
        rewrite Hsplit. now apply list_lookup_middle. }
      assert (Hnames' : distinct_names cp').
      { unfold distinct_names in *. rewrite Hcp'. rewrite Hsplit in Hnames.
        rewrite fmap_app in *. rewrite fmap_cons in Hnames.
        apply NoDup_app in Hnames as (H1 & H2 & H3). apply NoDup_cons in H3 as [H3 H4].
        apply NoDup_app. split; [exact H1|]. split; [|exact H4].
        intros x Hx Hx'. apply (H2 x Hx). now right. }
      destruct (IH cp' w' Hnames') as (stripped & w'' & Hs & Hvars).
      { rewrite Hcp', length_app. lia. }
      exists stripped, w''. split; [exact Hs|]. rewrite Hvars, Hcp', Hsplit.
      rewrite (take_app_length' before after j Hlen), (drop_app_length' before after j Hlen).
      replace (before ++ v :: after) with ((before ++ [v]) ++ after)
        by (now rewrite <- app_assoc).
      rewrite (take_app_length' (before ++ [v]) after (S j))
        by (rewrite length_app; cbn; lia).
      rewrite (drop_app_length' (before ++ [v]) after (S j))
        by (rewrite length_app; cbn; lia).
      rewrite List.filter_app. cbn [List.filter]. rewrite Ekeep. now rewrite app_nil_r.
Qed.

(** X23: when the names within a product are distinct and
    [harp_product_remove_variable] takes one variable out of the list, the loop that
    strips a collocated product, running from the last variable down, succeeds and
    leaves exactly the variables whose name is to be kept, in their order. *)
Theorem strip_variables_keeps_needed_variables (keep : string -> bool)
    (collocated_product : harp_product) (w : world) :
  removal_takes_one_out ->
  distinct_names collocated_product ->
  exists stripped w',
    strip_variables keep (Z.to_nat (num_variables collocated_product)) collocated_product w
    = (stripped, true, w')
    /\ product_variable stripped
       = List.filter (fun v => keep (name v)) (product_variable collocated_product).
Proof.
  intros Hremove Hnames. unfold num_variables. rewrite Nat2Z.id.
  destruct (strip_variables_filters keep (length (product_variable collocated_product))
              collocated_product w Hremove Hnames (le_n _)) as (stripped & w' & Hs & Hvars).
  exists stripped, w'. split; [exact Hs|].
  now rewrite Hvars, firstn_all, drop_all, app_nil_r.
Qed.

End StrippingFacts.

Lemma filter_by_name_splits (l : list harp_variable) (v : harp_variable) :
  NoDup (name <$> l) -> v ∈ l ->
  exists before after,
    l = before ++ v :: after
    /\ List.filter (fun x => negb (String.eqb (name x) (name v))) l = before ++ after.
Proof.
  induction l as [|x l IH]; intros Hnames Hv; [now apply elem_of_nil in Hv|].
  rewrite fmap_cons in Hnames. apply NoDup_cons in Hnames as [Hx Hnames].
  assert (Hkeep : forall y, name y ∉ name <$> l ->
            List.filter (fun x => negb (String.eqb (name x) (name y))) l = l).
  { intros y Hy. clear -Hy. induction l as [|z l IH]; [reflexivity|].
    cbn [List.filter]. rewrite fmap_cons in Hy. apply not_elem_of_cons in Hy as [Hne Hy].
    destruct (String.eqb_spec (name z) (name y)) as [Heq|_]; [congruence|].
    cbn [negb]. now rewrite IH. }
  apply elem_of_cons in Hv as [->|Hv].
  - exists [], l. split; [reflexivity|]. cbn [List.filter app].
    rewrite String.eqb_refl. cbn [negb]. now apply Hkeep.
  - destruct (IH Hnames Hv) as (before & after & -> & Hfilter).
    exists (x :: before), after. split; [reflexivity|]. cbn [List.filter].
    destruct (String.eqb_spec (name x) (name v)) as [Heq|_].
    + exfalso. apply Hx. rewrite Heq. apply list_elem_of_fmap_2.
      apply elem_of_app. right. now left.
    + cbn [negb app]. now rewrite Hfilter.
Qed.

Lemma stripping_collaborators_take_one_out :
  removal_takes_one_out (H := stripping_collaborators).
Proof.
  intros product v w Hnames Hv.
  destruct (filter_by_name_splits (product_variable product) v Hnames Hv)
    as (before & after & Hsplit & Hfilter).
  eexists _, w, before, after. split; [reflexivity|]. split; [exact Hsplit|exact Hfilter].
Qed.

Lemma strip_variables_keeps_needed_variables_witness :
  exists stripped w',
    strip_variables (H := stripping_collaborators)
      (fun nm => String.eqb nm "collocation_index")
      (Z.to_nat (num_variables example_product)) example_product (example_world [] [])
    = (stripped, true, w')
    /\ product_variable stripped = [example_collocation_index].
Proof.
  apply (strip_variables_keeps_needed_variables (H := stripping_collaborators)
           (fun nm => String.eqb nm "collocation_index") example_product
           (example_world [] []) stripping_collaborators_take_one_out).
  unfold distinct_names. cbn. apply NoDup_cons. split.
  - intros Hin. apply list_elem_of_singleton in Hin. discriminate.
  - apply NoDup_singleton.
Defined.

(** ** The temporary products of the orchestrators *)

Section ProductAccounting.
Context `{Collaborators}.
Variable live : world -> Z.
Hypothesis live_counts : counts_products live.

Local Open Scope Z_scope.

Lemma live_set_error w e : live (harp_set_error w e) = live w.
Proof using live_counts. apply live_counts. Qed.

Lemma live_with_mem w m : live (with_mem w m) = live w.
Proof using live_counts. apply live_counts. Qed.

Lemma live_new w :
  live (snd (harp_product_new w))
  = match fst (harp_product_new w) with Some _ => live w + 1 | None => live w end.
Proof using live_counts. apply live_counts. Qed.

Lemma live_delete product w : live (harp_product_delete (Some product) w) = live w - 1.
Proof using live_counts. apply live_counts. Qed.

Lemma live_get_derived product nm data_type unit_name num_dimensions dimension_type w :
  live (snd (harp_product_get_derived_variable product nm data_type unit_name
               num_dimensions dimension_type w)) = live w.
Proof using live_counts. apply live_counts. Qed.

Lemma live_get_bounds product v w :
  live (snd (harp_product_get_derived_bounds_for_grid product v w)) = live w.
Proof using live_counts. apply live_counts. Qed.

Lemma live_add_variable product v w :
  live (snd (harp_product_add_variable product v w)) = live w.
Proof using live_counts. apply live_counts. Qed.

Lemma live_variable_delete v w : live (harp_variable_delete v w) = live w.
Proof using live_counts. apply live_counts. Qed.

Lemma live_filter product nm n a w :
  live (snd (harp_product_filter_by_index product nm n a w)) = live w.
Proof using live_counts. apply live_counts. Qed.

Lemma live_regrid product grid bounds w :
  live (snd (harp_product_regrid_with_axis_variable product grid bounds w)) = live w.
Proof using live_counts. apply live_counts. Qed.

Lemma live_variable_new nm data_type num_dimensions dimension_type dimension w :
  live (snd (harp_variable_new nm data_type num_dimensions dimension_type dimension w))
  = live w.
Proof using live_counts. apply live_counts. Qed.

Lemma live_set_unit v unit_name w :
  live (snd (harp_variable_set_unit v unit_name w)) = live w.
Proof using live_counts. apply live_counts. Qed.

Lemma live_get_variable_by_name product nm w :
  live (snd (harp_product_get_variable_by_name product nm w)) = live w.
Proof using live_counts.
  unfold harp_product_get_variable_by_name.
  destruct (List.find _ _); cbn [snd]; [reflexivity|apply live_set_error].
Qed.

Lemma live_lookup_into old product nm w :
  live (snd (lookup_into old product nm w)) = live w.
Proof using live_counts.
  unfold lookup_into. pose proof (live_get_variable_by_name product nm w) as Hl.
  destruct (harp_product_get_variable_by_name product nm w) as [[v|] w']; exact Hl.
Qed.

Lemma live_smooth_vertical variable vertical_axis averaging_kernel apriori w :
  live (snd (harp_variable_smooth_vertical variable vertical_axis averaging_kernel
               apriori w)) = live w.
Proof using live_counts.
  unfold harp_variable_smooth_vertical.
  destruct (smooth_vertical_validate _ _ _ _) as [e|[v a]]; cbn [snd];
    [apply live_set_error|].
  destruct (negb _); cbn [snd]; [apply live_set_error|apply live_with_mem].
Qed.

Lemma live_smooth_variables_loop product merged_product smooth_variables vertical_grid
    js variable avk w :
  live (snd (smooth_variables_loop product merged_product smooth_variables vertical_grid
               js variable avk w)) = live w.
Proof using live_counts.
  revert variable avk w. induction js as [|i js IH]; intros variable avk w;
    cbn [smooth_variables_loop snd]; [reflexivity|].
  pose proof (live_lookup_into variable product
                (default EmptyString (smooth_variables !! i)) w) as L1.
  destruct (lookup_into variable product _ w) as [variable1 w1]. cbn [snd] in L1.
  pose proof (live_lookup_into avk merged_product
                (snprintf_name (default EmptyString (smooth_variables !! i)) "_avk") w1) as L2.
  destruct (lookup_into avk merged_product _ w1) as [avk1 w2]. cbn [snd] in L2.
  assert (L3 :
    live (snd (if harp_product_has_variable merged_product
                    (snprintf_name (default EmptyString (smooth_variables !! i)) "_apriori")
               then lookup_into None merged_product
                      (snprintf_name (default EmptyString (smooth_variables !! i)) "_apriori")
                      w2
               else (None, w2))) = live w2).
  { destruct (harp_product_has_variable _ _); [apply live_lookup_into|reflexivity]. }
  destruct (if harp_product_has_variable merged_product _ then _ else _) as [apriori w3].
  cbn [snd] in L3.
  pose proof (live_smooth_vertical variable1 vertical_grid avk1 apriori w3) as L4.
  destruct (harp_variable_smooth_vertical variable1 vertical_grid avk1 apriori w3)
    as [status w4]. cbn [snd] in L4.
  destruct (status =? 0); [rewrite IH|cbn [snd]]; lia.
Qed.

(** A derivation into the temporary product deletes it when it fails. *)
Lemma live_derive_into collocated_product temp_product nm data_type unit_name
    num_dimensions dimension_type w :
  live (snd (derive_into collocated_product temp_product nm data_type unit_name
               num_dimensions dimension_type w))
  = match fst (derive_into collocated_product temp_product nm data_type unit_name
                 num_dimensions dimension_type w) with
    | Some _ => live w
    | None => live w - 1
    end.
Proof using live_counts.
  unfold derive_into, attempt.
  pose proof (live_get_derived collocated_product nm data_type unit_name num_dimensions
                dimension_type w) as L1.
  destruct (harp_product_get_derived_variable _ _ _ _ _ _ w) as [[v|] w1]; cbn [snd] in L1.
  - pose proof (live_add_variable temp_product v w1) as L2.
    destruct (harp_product_add_variable temp_product v w1) as [[p|] w2];
      cbn [fst snd] in *; [lia|].
    rewrite live_delete, live_variable_delete. lia.
  - cbn [fst snd]. rewrite live_delete. lia.
Qed.

Lemma live_derive_into_if_possible collocated_product temp_product nm data_type unit_name
    num_dimensions dimension_type w :
  live (snd (derive_into_if_possible collocated_product temp_product nm data_type unit_name
               num_dimensions dimension_type w))
  = match fst (derive_into_if_possible collocated_product temp_product nm data_type
                 unit_name num_dimensions dimension_type w) with
    | Some _ => live w
    | None => live w - 1
    end.
Proof using live_counts.
  unfold derive_into_if_possible, attempt.
  pose proof (live_get_derived collocated_product nm data_type unit_name num_dimensions
                dimension_type w) as L1.
  destruct (harp_product_get_derived_variable _ _ _ _ _ _ w) as [[v|] w1]; cbn [snd] in L1.
  - pose proof (live_add_variable temp_product v w1) as L2.
    destruct (harp_product_add_variable temp_product v w1) as [[p|] w2];
      cbn [fst snd] in *; [lia|].
    rewrite live_delete, live_variable_delete. lia.
  - cbn [fst snd]. lia.
Qed.

Lemma live_derive_kernels_into product collocated_product smooth_variables js variable
    temp_product w :
  live (snd (derive_kernels_into product collocated_product smooth_variables js variable
               temp_product w))
  = match fst (derive_kernels_into product collocated_product smooth_variables js variable
                 temp_product w) with
    | Some _ => live w
    | None => live w - 1
    end.
Proof using live_counts.
  revert variable temp_product w. induction js as [|i js IH]; intros variable temp_product w;
    cbn [derive_kernels_into fst snd]; [reflexivity|].
  pose proof (live_lookup_into variable product
                (default EmptyString (smooth_variables !! i)) w) as L1.
  destruct (lookup_into variable product _ w) as [variable1 w1]. cbn [snd] in L1.
  unfold attempt.
  match goal with |- context [derive_into ?a ?b ?c ?d ?e ?f ?g w1] =>
    pose proof (live_derive_into a b c d e f g w1) as L2;
    destruct (derive_into a b c d e f g w1) as [[temp1|] w2]; cbn [fst snd] in L2 |- *;
      [|lia]
  end.
  match goal with |- context [derive_into_if_possible ?a ?b ?c ?d ?e ?f ?g w2] =>
    pose proof (live_derive_into_if_possible a b c d e f g w2) as L3;
    destruct (derive_into_if_possible a b c d e f g w2) as [[temp2|] w3];
      cbn [fst snd] in L3 |- *; [|lia]
  end.
  rewrite IH. destruct (fst _); lia.
Qed.

Lemma live_get_smoothed_column
    (product : harp_product) (nm unit_name : string)
    (vertical_grid vertical_bounds column_avk apriori : option harp_variable) (w : world) :
  live (snd (harp_product_get_smoothed_column product nm unit_name vertical_grid
               vertical_bounds column_avk apriori w)) = live w.
Proof using live_counts.
  unfold harp_product_get_smoothed_column.
  destruct (smoothed_column_validate _ _ _ _); cbn [snd]; [apply live_set_error|].
  unfold attempt.
  pose proof (live_new w) as L0.
  destruct (harp_product_new w) as [[regrid0|] w0]; cbn [fst snd] in L0 |- *; [|lia].
  match goal with |- context [harp_product_get_derived_variable ?a ?b ?c ?d ?e ?f w0] =>
    pose proof (live_get_derived a b c d e f w0) as L1;
    destruct (harp_product_get_derived_variable a b c d e f w0) as [[partcol|] w1];
      cbn [fst snd] in L1 |- *; [|rewrite live_delete; lia]
  end.
  pose proof (live_add_variable regrid0 partcol w1) as L2.
  destruct (harp_product_add_variable regrid0 partcol w1) as [[regrid1|] w2];
    cbn [fst snd] in L2 |- *; [|rewrite live_delete, live_variable_delete; lia].
  match goal with
  | |- context [harp_product_get_derived_variable ?a ?b ?c ?d 1 ?f w2] =>
      pose proof (live_get_derived a b c d 1 f w2) as L3;
      destruct (harp_product_get_derived_variable a b c d 1 f w2) as [[grid1|] w3];
        cbn [fst snd] in L3 |- *
  end.
  all: cycle 1.
  { match goal with
    | |- context [harp_product_get_derived_variable ?a ?b ?c ?d 2 ?f w3] =>
        pose proof (live_get_derived a b c d 2 f w3) as L4;
        destruct (harp_product_get_derived_variable a b c d 2 f w3) as [[grid2|] w4];
          cbn [fst snd] in L4 |- *; [|rewrite live_delete; lia]
    end.
    pose proof (live_add_variable regrid1 grid2 w4) as L5.
    destruct (harp_product_add_variable regrid1 grid2 w4) as [[regrid2|] w5];
      cbn [fst snd] in L5 |- *; [|rewrite live_delete, live_variable_delete; lia].
    pose proof (live_get_bounds product grid2 w5) as L6.
    destruct (harp_product_get_derived_bounds_for_grid product grid2 w5) as [[bounds|] w6];
      cbn [fst snd] in L6 |- *; [|rewrite live_delete; lia].
    pose proof (live_add_variable regrid2 bounds w6) as L7.
    destruct (harp_product_add_variable regrid2 bounds w6) as [[regrid3|] w7];
      cbn [fst snd] in L7 |- *; [|rewrite live_delete, live_variable_delete; lia].
    pose proof (live_regrid regrid3 vertical_grid vertical_bounds w7) as L8.
    destruct (harp_product_regrid_with_axis_variable regrid3 vertical_grid vertical_bounds w7)
      as [[regrid4|] w8]; cbn [fst snd] in L8 |- *; [|rewrite live_delete; lia].
    match goal with |- context [harp_variable_new ?a ?b ?c ?d ?e w8] =>
      pose proof (live_variable_new a b c d e w8) as L9;
      destruct (harp_variable_new a b c d e w8) as [[column0|] w9];
        cbn [fst snd] in L9 |- *; [|rewrite live_delete; lia]
    end.
    pose proof (live_set_unit column0 unit_name w9) as L10.
    destruct (harp_variable_set_unit column0 unit_name w9) as [[column1|] w10];
      cbn [fst snd] in L10 |- *; [|rewrite live_delete, live_variable_delete; lia].
    rewrite live_delete, live_with_mem. lia. }
  pose proof (live_add_variable regrid1 grid1 w3) as L5.
  destruct (harp_product_add_variable regrid1 grid1 w3) as [[regrid2|] w5];
    cbn [fst snd] in L5 |- *; [|rewrite live_delete, live_variable_delete; lia].
  pose proof (live_get_bounds product grid1 w5) as L6.
  destruct (harp_product_get_derived_bounds_for_grid product grid1 w5) as [[bounds|] w6];
    cbn [fst snd] in L6 |- *; [|rewrite live_delete; lia].
  pose proof (live_add_variable regrid2 bounds w6) as L7.
  destruct (harp_product_add_variable regrid2 bounds w6) as [[regrid3|] w7];
    cbn [fst snd] in L7 |- *; [|rewrite live_delete, live_variable_delete; lia].
  pose proof (live_regrid regrid3 vertical_grid vertical_bounds w7) as L8.
  destruct (harp_product_regrid_with_axis_variable regrid3 vertical_grid vertical_bounds w7)
    as [[regrid4|] w8]; cbn [fst snd] in L8 |- *; [|rewrite live_delete; lia].
  match goal with |- context [harp_variable_new ?a ?b ?c ?d ?e w8] =>
    pose proof (live_variable_new a b c d e w8) as L9;
    destruct (harp_variable_new a b c d e w8) as [[column0|] w9];
      cbn [fst snd] in L9 |- *; [|rewrite live_delete; lia]
  end.
  pose proof (live_set_unit column0 unit_name w9) as L10.
  destruct (harp_variable_set_unit column0 unit_name w9) as [[column1|] w10];
    cbn [fst snd] in L10 |- *; [|rewrite live_delete, live_variable_delete; lia].
  rewrite live_delete, live_with_mem. lia.
Qed.


Lemma has_variable_found (product : harp_product) (nm : string) (w : world) :
  harp_product_has_variable product nm = true ->
  exists v, harp_product_get_variable_by_name product nm w = (Some v, w).
Proof using Type.
  unfold harp_product_has_variable, harp_product_get_variable_by_name. intros Hhas.
  destruct (List.find _ _) as [v|] eqn:Efind; [now exists v|].
  apply existsb_exists in Hhas as (v & Hin & Hv).
  now rewrite (List.find_none _ _ Efind v Hin) in Hv.
Qed.

Lemma has_variable_not_found (product : harp_product) (nm : string) (w : world) :
  harp_product_has_variable product nm = false ->
  harp_product_get_variable_by_name product nm w
  = (None, harp_set_error w (HARP_ERROR_VARIABLE_NOT_FOUND nm)).
Proof using Type.
  unfold harp_product_has_variable, harp_product_get_variable_by_name. intros Hhas.
  destruct (List.find _ _) as [v|] eqn:Efind; [|reflexivity].
  apply List.find_some in Efind as [Hin Hv].
  assert (existsb (fun v => String.eqb (name v) nm) (product_variable product) = true)
    by (apply existsb_exists; now exists v).
  congruence.
Qed.

(** One step of the symbolic run of an orchestrator: the next call is taken
    apart, and what it does to the count is recorded. *)
Ltac account_derive :=
  match goal with
  | |- context [derive_into ?a ?b ?c ?d ?e ?f ?g ?w] =>
      let L := fresh "L" in
      pose proof (live_derive_into a b c d e f g w) as L;
      destruct (derive_into a b c d e f g w) as [[?temp|] ?w];
      cbn [fst snd] in L |- *; [|lia]
  end.

Ltac account_derive_if_possible :=
  match goal with
  | |- context [derive_into_if_possible ?a ?b ?c ?d ?e ?f ?g ?w] =>
      let L := fresh "L" in
      pose proof (live_derive_into_if_possible a b c d e f g w) as L;
      destruct (derive_into_if_possible a b c d e f g w) as [[?temp|] ?w];
      cbn [fst snd] in L |- *; [|lia]
  end.

Ltac account_lookup :=
  match goal with
  | |- context [lookup_into ?a ?b ?c ?w] =>
      let L := fresh "L" in
      pose proof (live_lookup_into a b c w) as L;
      destruct (lookup_into a b c w) as [? ?w]; cbn [fst snd] in L |- *
  end.

Lemma live_smooth_vertical_with_collocated_product
    (product : harp_product) (num_smooth_variables : Z) (smooth_variables : list string)
    (vertical_axis vertical_unit : string) (collocated_product : harp_product) (w : world) :
  harp_product_has_variable product "collocation_index" = true ->
  live (snd (harp_product_smooth_vertical_with_collocated_product product
               num_smooth_variables smooth_variables vertical_axis vertical_unit
               collocated_product w)) = live w.
Proof using live_counts.
  intros Hindex. unfold harp_product_smooth_vertical_with_collocated_product.
  destruct (_ =? 0); cbn [snd]; [apply live_set_error|].
  destruct (List.find _ _); cbn [snd]; [apply live_set_error|].
  unfold attempt.
  pose proof (live_new w) as Ln.
  destruct (harp_product_new w) as [[tempn|] wn]; cbn [fst snd] in Ln |- *; [|lia].
  do 3 account_derive.
  match goal with
  | |- context [derive_kernels_into ?a ?b ?c ?d ?e ?f ?w] =>
      pose proof (live_derive_kernels_into a b c d e f w) as Lk;
      destruct (derive_kernels_into a b c d e f w) as [[[tempk variable]|] wk];
      cbn [fst snd] in Lk |- *; [|lia]
  end.
  destruct (has_variable_found product "collocation_index" wk Hindex) as [index ->].
  match goal with
  | |- context [harp_product_filter_by_index ?a ?b ?c ?d ?w] =>
      pose proof (live_filter a b c d w) as Lf;
      destruct (harp_product_filter_by_index a b c d w) as [[tempf|] wf];
      cbn [fst snd] in Lf |- *; [|rewrite live_delete; lia]
  end.
  do 2 account_lookup.
  match goal with
  | |- context [harp_product_regrid_with_axis_variable ?a ?b ?c ?w] =>
      pose proof (live_regrid a b c w) as Lr;
      destruct (harp_product_regrid_with_axis_variable a b c w) as [[product'|] wr];
      cbn [fst snd] in Lr |- *; [|rewrite live_delete; lia]
  end.
  match goal with
  | |- context [smooth_variables_loop ?a ?b ?c ?d ?e ?f ?g ?w] =>
      pose proof (live_smooth_variables_loop a b c d e f g w) as Ls;
      destruct (smooth_variables_loop a b c d e f g w) as [[|] ws];
      cbn [fst snd] in Ls |- *; rewrite live_delete; lia
  end.
Qed.

Lemma live_get_smoothed_column_using_collocated_product
    (product : harp_product) (nm unit_name : string) (num_dimensions : Z)
    (dimension_type : list harp_dimension_type) (vertical_axis vertical_unit : string)
    (collocated_product : harp_product) (w : world) :
  harp_product_has_variable product "collocation_index" = true ->
  live (snd (harp_product_get_smoothed_column_using_collocated_product product nm unit_name
               num_dimensions dimension_type vertical_axis vertical_unit
               collocated_product w)) = live w.
Proof using live_counts.
  intros Hindex. unfold harp_product_get_smoothed_column_using_collocated_product.
  destruct (_ || _); cbn [snd]; [apply live_set_error|].
  destruct (_ <=? _); cbn [snd]; [apply live_set_error|].
  destruct (_ =? 0); cbn [snd]; [apply live_set_error|].
  unfold attempt.
  pose proof (live_new w) as Ln.
  destruct (harp_product_new w) as [[tempn|] wn]; cbn [fst snd] in Ln |- *; [|lia].
  do 4 account_derive. account_derive_if_possible.
  match goal with
  | |- context [harp_product_get_variable_by_name product "collocation_index" ?w] =>
      destruct (has_variable_found product "collocation_index" w Hindex) as [index ->]
  end.
  match goal with
  | |- context [harp_product_filter_by_index ?a ?b ?c ?d ?w] =>
      pose proof (live_filter a b c d w) as Lf;
      destruct (harp_product_filter_by_index a b c d w) as [[tempf|] wf];
      cbn [fst snd] in Lf |- *; [|rewrite live_delete; lia]
  end.
  do 3 account_lookup.
  match goal with
  | |- context [if ?c then lookup_into ?a ?b ?n ?w else _] =>
      assert (La : live (snd (if c then lookup_into a b n w else (None, w))) = live w)
        by (destruct c; [apply live_lookup_into|reflexivity]);
      destruct (if c then lookup_into a b n w else (None, w)) as [apriori wa];
      cbn [fst snd] in La |- *
  end.
  match goal with
  | |- context [harp_product_get_smoothed_column ?a ?b ?c ?d ?e ?f ?g ?w] =>
      pose proof (live_get_smoothed_column a b c d e f g w) as Lc;
      destruct (harp_product_get_smoothed_column a b c d e f g w) as [[column|] wc];
      cbn [fst snd] in Lc |- *; rewrite live_delete; lia
  end.
Qed.

End ProductAccounting.

Section ProductLeak.
Context `{Collaborators}.
Variable live : world -> Z.
Hypothesis live_counts : counts_products live.
Hypothesis no_failure : derivations_succeed.

Local Open Scope Z_scope.

Lemma derive_into_succeeds collocated_product temp_product nm data_type unit_name
    num_dimensions dimension_type w :
  exists temp_product' w',
    derive_into collocated_product temp_product nm data_type unit_name num_dimensions
      dimension_type w = (Some temp_product', w')
    /\ live w' = live w.
Proof using All.
  pose proof (live_derive_into live live_counts collocated_product temp_product nm data_type
                unit_name num_dimensions dimension_type w) as L.
  destruct no_failure as (_ & Hget & Hadd).
  unfold derive_into, attempt in *.
  pose proof (Hget collocated_product nm data_type unit_name num_dimensions dimension_type w)
    as Hv.
  destruct (harp_product_get_derived_variable _ _ _ _ _ _ w) as [[v|] w1];
    cbn [fst] in Hv; [|congruence].
  pose proof (Hadd temp_product v w1) as Hp.
  destruct (harp_product_add_variable temp_product v w1) as [[p|] w2];
    cbn [fst] in Hp; [|congruence].
  exists p, w2. split; [reflexivity|exact L].
Qed.

Lemma derive_into_if_possible_succeeds collocated_product temp_product nm data_type
    unit_name num_dimensions dimension_type w :
  exists temp_product' w',
    derive_into_if_possible collocated_product temp_product nm data_type unit_name
      num_dimensions dimension_type w = (Some temp_product', w')
    /\ live w' = live w.
Proof using All.
  pose proof (live_derive_into_if_possible live live_counts collocated_product temp_product
                nm data_type unit_name num_dimensions dimension_type w) as L.
  destruct no_failure as (_ & Hget & Hadd).
  unfold derive_into_if_possible, attempt in *.
  pose proof (Hget collocated_product nm data_type unit_name num_dimensions dimension_type w)
    as Hv.
  destruct (harp_product_get_derived_variable _ _ _ _ _ _ w) as [[v|] w1];
    cbn [fst] in Hv; [|congruence].
  pose proof (Hadd temp_product v w1) as Hp.
  destruct (harp_product_add_variable temp_product v w1) as [[p|] w2];
    cbn [fst] in Hp; [|congruence].
  exists p, w2. split; [reflexivity|exact L].
Qed.

Lemma derive_kernels_into_succeeds product collocated_product smooth_variables js variable
    temp_product w :
  exists temp_product' variable' w',
    derive_kernels_into product collocated_product smooth_variables js variable
      temp_product w = (Some (temp_product', variable'), w')
    /\ live w' = live w.
Proof using All.
  revert variable temp_product w. induction js as [|i js IH]; intros variable temp_product w;
    cbn [derive_kernels_into].
  - exists temp_product, variable, w. split; reflexivity.
  - pose proof (live_lookup_into live live_counts variable product
                  (default EmptyString (smooth_variables !! i)) w) as L1.
    destruct (lookup_into variable product _ w) as [variable1 w1]. cbn [snd] in L1.
    unfold attempt.
    match goal with |- context [derive_into ?a ?b ?c ?d ?e ?f ?g w1] =>
      destruct (derive_into_succeeds a b c d e f g w1) as (temp1 & w2 & -> & L2)
    end.
    match goal with |- context [derive_into_if_possible ?a ?b ?c ?d ?e ?f ?g w2] =>
      destruct (derive_into_if_possible_succeeds a b c d e f g w2) as (temp2 & w3 & -> & L3)
    end.
    destruct (IH variable1 temp2 w3) as (temp3 & variable3 & w4 & -> & L4).
    exists temp3, variable3, w4. split; [reflexivity|lia].
Qed.

Lemma find_missing_none (product : harp_product) (num_smooth_variables : Z)
    (smooth_variables : list string) :
  (forall i, (i < Z.to_nat num_smooth_variables)%nat ->
     harp_product_has_variable product (default EmptyString (smooth_variables !! i)) = true) ->
  List.find
    (fun i => negb (harp_product_has_variable product
                      (default EmptyString (smooth_variables !! i))))
    (seq 0 (Z.to_nat num_smooth_variables)) = None.
Proof using Type.
  intros Hall. destruct (List.find _ _) as [i|] eqn:Efind; [|reflexivity].
  apply List.find_some in Efind as [Hin Hi]. apply in_seq in Hin.
  rewrite Hall in Hi by lia. discriminate.
Qed.

Lemma smooth_vertical_with_collocated_product_leaks
    (product : harp_product) (num_smooth_variables : Z) (smooth_variables : list string)
    (vertical_axis vertical_unit : string) (collocated_product : harp_product) (w : world) :
  product_dimension product harp_dimension_vertical <> 0 ->
  (forall i, (i < Z.to_nat num_smooth_variables)%nat ->
     harp_product_has_variable product (default EmptyString (smooth_variables !! i)) = true) ->
  harp_product_has_variable product "collocation_index" = false ->
  exists w',
    harp_product_smooth_vertical_with_collocated_product product num_smooth_variables
      smooth_variables vertical_axis vertical_unit collocated_product w
    = (-1, product, w')
    /\ harp_errno w' = Some (HARP_ERROR_VARIABLE_NOT_FOUND "collocation_index")
    /\ live w' = live w + 1.
Proof using All.
  intros Hvertical Hall Hindex.
  unfold harp_product_smooth_vertical_with_collocated_product.
  rewrite (proj2 (Z.eqb_neq _ _) Hvertical).
  rewrite (find_missing_none product num_smooth_variables smooth_variables Hall).
  unfold attempt.
  pose proof (live_new live live_counts w) as Ln.
  pose proof (proj1 no_failure w) as Hnew.
  destruct (harp_product_new w) as [[tempn|] wn]; cbn [fst snd] in Ln, Hnew |- *;
    [|congruence].
  repeat match goal with
         | |- context [derive_into ?a ?b ?c ?d ?e ?f ?g ?w0] =>
             let L := fresh "L" in
             destruct (derive_into_succeeds a b c d e f g w0) as (?temp & ?w & -> & L)
         end.
  match goal with
  | |- context [derive_kernels_into ?a ?b ?c ?d ?e ?f ?w0] =>
      destruct (derive_kernels_into_succeeds a b c d e f w0)
        as (tempk & variable & wk & -> & Lk)
  end.
  rewrite (has_variable_not_found product "collocation_index" wk Hindex).
  eexists. split; [reflexivity|]. split; [reflexivity|].
  rewrite (live_set_error live live_counts). lia.
Qed.

Lemma get_smoothed_column_using_collocated_product_leaks
    (product : harp_product) (nm unit_name : string) (num_dimensions : Z)
    (dimension_type : list harp_dimension_type) (vertical_axis vertical_unit : string)
    (collocated_product : harp_product) (w : world) :
  product_dimension product harp_dimension_vertical <> 0 ->
  num_dimensions <> 0 -> num_dimensions < HARP_NUM_DIM_TYPES ->
  dimension_type !! 0%nat = Some harp_dimension_time ->
  harp_product_has_variable product "collocation_index" = false ->
  exists w',
    harp_product_get_smoothed_column_using_collocated_product product nm unit_name
      num_dimensions dimension_type vertical_axis vertical_unit collocated_product w
    = (-1, None, w')
    /\ harp_errno w' = Some (HARP_ERROR_VARIABLE_NOT_FOUND "collocation_index")
    /\ live w' = live w + 1.
Proof using All.
  intros Hvertical Hnd Hmax Htime Hindex.
  unfold harp_product_get_smoothed_column_using_collocated_product.
  rewrite (proj2 (Z.eqb_neq _ _) Hnd), (bool_decide_eq_true_2 _ Htime). cbn [orb negb].
  rewrite (proj2 (Z.leb_gt _ _) Hmax).
  rewrite (proj2 (Z.eqb_neq _ _) Hvertical).
  unfold attempt.
  pose proof (live_new live live_counts w) as Ln.
  pose proof (proj1 no_failure w) as Hnew.
  destruct (harp_product_new w) as [[tempn|] wn]; cbn [fst snd] in Ln, Hnew |- *;
    [|congruence].
  repeat match goal with
         | |- context [derive_into ?a ?b ?c ?d ?e ?f ?g ?w0] =>
             let L := fresh "L" in
             destruct (derive_into_succeeds a b c d e f g w0) as (?temp & ?w & -> & L)
         end.
  match goal with
  | |- context [derive_into_if_possible ?a ?b ?c ?d ?e ?f ?g ?w0] =>
      destruct (derive_into_if_possible_succeeds a b c d e f g w0)
        as (tempa & wa & -> & La)
  end.
  rewrite (has_variable_not_found product "collocation_index" wa Hindex).
  eexists. split; [reflexivity|]. split; [reflexivity|].
  rewrite (live_set_error live live_counts). lia.
Qed.

End ProductLeak.

Lemma counting_collaborators_count :
  counts_products (H := counting_collaborators) live_products.
Proof.
  assert (Hlive : forall w n, live_products (with_live_products w n) = n).
  { intros w n. unfold live_products, with_live_products. cbn [mem_int32].
    now rewrite lookup_insert_eq. }
  unfold counts_products. cbn.
  repeat split; intros; try reflexivity; apply Hlive.
Qed.

Lemma counting_collaborators_succeed : derivations_succeed (H := counting_collaborators).
Proof. unfold derivations_succeed. cbn. repeat split; intros; discriminate. Qed.

Section ProductAccountingClaims.
Context `{Collaborators}.
Local Open Scope Z_scope.

(** X24: for any count of the live products that [harp_product_new] raises by one and
    [harp_product_delete] lowers by one, [harp_product_get_smoothed_column] returns
    with the count it was called with, on every path: the temporary product it
    makes is always deleted. *)
Theorem get_smoothed_column_deletes_its_product
    (live : world -> Z) (product : harp_product) (nm unit_name : string)
    (vertical_grid vertical_bounds column_avk apriori : option harp_variable) (w : world) :
  counts_products live ->
  live (snd (harp_product_get_smoothed_column product nm unit_name vertical_grid
               vertical_bounds column_avk apriori w)) = live w.
Proof. intros Hlive. now apply live_get_smoothed_column. Qed.

(** X25: when the source product has a variable [collocation_index], both orchestrators
    over one collocated product return with the count of live products they were
    called with, on every path. *)
Theorem collocated_product_orchestrators_delete_their_product
    (live : world -> Z) (product : harp_product) (num_smooth_variables : Z)
    (smooth_variables : list string) (nm unit_name : string) (num_dimensions : Z)
    (dimension_type : list harp_dimension_type) (vertical_axis vertical_unit : string)
    (collocated_product : harp_product) (w : world) :
  counts_products live ->
  harp_product_has_variable product "collocation_index" = true ->
  live (snd (harp_product_smooth_vertical_with_collocated_product product
               num_smooth_variables smooth_variables vertical_axis vertical_unit
               collocated_product w)) = live w
  /\ live (snd (harp_product_get_smoothed_column_using_collocated_product product nm
                  unit_name num_dimensions dimension_type vertical_axis vertical_unit
                  collocated_product w)) = live w.
Proof.
  intros Hlive Hindex. split.
  - now apply live_smooth_vertical_with_collocated_product.
  - now apply live_get_smoothed_column_using_collocated_product.
Qed.

(** X26: when the source product has no variable [collocation_index] and making the
    temporary product and deriving its variables do not fail, both orchestrators
    over one collocated product return -1 with the error
    HARP_ERROR_VARIABLE_NOT_FOUND and with one more live product than before: the
    return after the failed look-up does not delete the temporary product. *)
Theorem collocated_product_orchestrators_leave_product_without_index
    (live : world -> Z) (product : harp_product) (num_smooth_variables : Z)
    (smooth_variables : list string) (nm unit_name : string) (num_dimensions : Z)
    (dimension_type : list harp_dimension_type) (vertical_axis vertical_unit : string)
    (collocated_product : harp_product) (w : world) :
  counts_products live ->
  derivations_succeed ->
  product_dimension product harp_dimension_vertical <> 0 ->
  (forall i, (i < Z.to_nat num_smooth_variables)%nat ->
     harp_product_has_variable product (default EmptyString (smooth_variables !! i)) = true) ->
  num_dimensions <> 0 -> num_dimensions < HARP_NUM_DIM_TYPES ->
  dimension_type !! 0%nat = Some harp_dimension_time ->
  harp_product_has_variable product "collocation_index" = false ->
  (exists w',
     harp_product_smooth_vertical_with_collocated_product product num_smooth_variables
       smooth_variables vertical_axis vertical_unit collocated_product w
     = (-1, product, w')
     /\ harp_errno w' = Some (HARP_ERROR_VARIABLE_NOT_FOUND "collocation_index")
     /\ live w' = live w + 1)
  /\ (exists w',
        harp_product_get_smoothed_column_using_collocated_product product nm unit_name
          num_dimensions dimension_type vertical_axis vertical_unit collocated_product w
        = (-1, None, w')
        /\ harp_errno w' = Some (HARP_ERROR_VARIABLE_NOT_FOUND "collocation_index")
        /\ live w' = live w + 1).
Proof.
  intros Hlive Hok Hvertical Hall Hnd Hmax Htime Hindex. split.
  - now apply smooth_vertical_with_collocated_product_leaks.
  - now apply get_smoothed_column_using_collocated_product_leaks.
Qed.

End ProductAccountingClaims.

Lemma get_smoothed_column_deletes_its_product_witness :
  let w := example_world [1; 2]%float [] in
  live_products
    (snd (harp_product_get_smoothed_column (H := counting_collaborators) example_product
            "O3_column" "molec/m2" (Some example_axis) None (Some example_avk) None w))
  = live_products w.
Proof.
  cbv zeta.
  apply (get_smoothed_column_deletes_its_product (H := counting_collaborators) live_products).
  exact counting_collaborators_count.
Defined.

Lemma collocated_product_orchestrators_delete_their_product_witness :
  let w := example_world [1; 2]%float [] in
  live_products
    (snd (harp_product_smooth_vertical_with_collocated_product (H := counting_collaborators)
            example_product 1 ["O3"%string] "altitude" "m" example_product w))
  = live_products w.
Proof.
  cbv zeta.
  refine (proj1 (collocated_product_orchestrators_delete_their_product
                   (H := counting_collaborators) live_products example_product 1
                   ["O3"%string] "O3_column" "molec/m2" 1 [harp_dimension_time]
                   "altitude" "m" example_product (example_world [1; 2]%float [])
                   counting_collaborators_count eq_refl)).
Defined.

Lemma collocated_product_orchestrators_leave_product_without_index_witness :
  let w := example_world [1; 2]%float [] in
  exists w',
    harp_product_smooth_vertical_with_collocated_product (H := counting_collaborators)
      example_product_without_index 1 ["O3"%string] "altitude" "m" example_product w
    = ((-1)%Z, example_product_without_index, w')
    /\ harp_errno w' = Some (HARP_ERROR_VARIABLE_NOT_FOUND "collocation_index")
    /\ live_products w' = (live_products w + 1)%Z.
Proof.
  cbv zeta.
  refine (proj1 (collocated_product_orchestrators_leave_product_without_index
                   (H := counting_collaborators) live_products
                   example_product_without_index 1 ["O3"%string] "O3_column" "molec/m2" 1
                   [harp_dimension_time] "altitude" "m" example_product
                   (example_world [1; 2]%float [])
                   counting_collaborators_count counting_collaborators_succeed
                   _ _ _ _ eq_refl eq_refl)).
  - discriminate.
  - intros [|i] Hi; [reflexivity|cbn in Hi; lia].
  - discriminate.
  - reflexivity.
Defined.

(** ** Conversions of averaging kernels *)

Section KernelPasses.
Local Open Scope float_scope.

(** A pass that updates in place the cell [idx a b] for every [a] of the
    outer loop and every [b] of the inner loop, each cell once. *)
Lemma matrix_pass (n : nat) (idx : nat -> nat -> nat) (update : nat -> nat -> float -> float)
    (out : list float) :
  (forall a b, (a < n)%nat -> (b < n)%nat -> (idx a b < length out)%nat) ->
  (forall a b a' b', (a < n)%nat -> (b < n)%nat -> (a' < n)%nat -> (b' < n)%nat ->
     idx a b = idx a' b' -> a = a' /\ b = b') ->
  let out' :=
    fold_left
      (fun out a =>
         fold_left (fun out b => <[idx a b := update a b out.[idx a b]]> out) (seq 0 n) out)
      (seq 0 n) out in
  length out' = length out
  /\ forall a b, (a < n)%nat -> (b < n)%nat -> out'.[idx a b] = update a b out.[idx a b].
Proof.
  intros Hfit Hinj out'.
  assert (Hpass :
    length out' = length out
    /\ forall a b, (a < n)%nat -> (b < n)%nat ->
         out'.[idx a b]
         = if (a <? 0 + n)%nat then update a b out.[idx a b] else out.[idx a b]).
  { subst out'.
    apply (fold_seq_invariant
             (fun out a =>
                fold_left (fun out b => <[idx a b := update a b out.[idx a b]]> out)
                  (seq 0 n) out)
             (fun a_now s =>
                length s = length out
                /\ forall a b, (a < n)%nat -> (b < n)%nat ->
                     s.[idx a b]
                     = if (a <? a_now)%nat then update a b out.[idx a b] else out.[idx a b])).
    - split; [reflexivity|]. intros a b _ _. reflexivity.
    - intros a_now s Ha [Hlen Hcells].
      assert (Hrow :
        length (fold_left (fun out b => <[idx a_now b := update a_now b out.[idx a_now b]]> out)
                  (seq 0 n) s) = length out
        /\ forall a b, (a < n)%nat -> (b < n)%nat ->
             (fold_left (fun out b => <[idx a_now b := update a_now b out.[idx a_now b]]> out)
                (seq 0 n) s).[idx a b]
             = if (a <? a_now)%nat || ((a =? a_now)%nat && (b <? 0 + n)%nat)
               then update a b out.[idx a b] else out.[idx a b]).
      { apply (fold_seq_invariant
                 (fun out b => <[idx a_now b := update a_now b out.[idx a_now b]]> out)
                 (fun b_now s' =>
                    length s' = length out
                    /\ forall a b, (a < n)%nat -> (b < n)%nat ->
                         s'.[idx a b]
                         = if (a <? a_now)%nat || ((a =? a_now)%nat && (b <? b_now)%nat)
                           then update a b out.[idx a b] else out.[idx a b])).
        - split; [exact Hlen|]. intros a b Ha' Hb'. rewrite (Hcells a b Ha' Hb').
          now rewrite andb_false_r, orb_false_r.
        - intros b_now s' Hb [Hlen' Hcells'].
          split; [now rewrite length_insert|]. intros a b Ha' Hb'.
          destruct (decide (idx a b = idx a_now b_now)) as [Heq|Hne].
          + destruct (Hinj a b a_now b_now Ha' Hb' ltac:(lia) ltac:(lia) Heq) as [-> ->].
            rewrite fget_insert_eq by (rewrite Hlen'; apply Hfit; lia).
            rewrite (Hcells' a_now b_now) by lia.
            rewrite Nat.ltb_irrefl, Nat.eqb_refl, Nat.ltb_irrefl. cbn [orb andb].
            now rewrite (proj2 (Nat.ltb_lt b_now (S b_now))) by lia.
          + rewrite fget_insert_ne by (intros E; apply Hne; now symmetry).
            rewrite (Hcells' a b Ha' Hb').
            destruct (Nat.ltb_spec a a_now); cbn [orb]; [reflexivity|].
            destruct (Nat.eqb_spec a a_now) as [->|]; cbn [andb]; [|reflexivity].
            destruct (Nat.ltb_spec b b_now), (Nat.ltb_spec b (S b_now)); try lia;
              try reflexivity.
            exfalso. apply Hne. f_equal. lia. }
      destruct Hrow as [Hlen' Hcells']. split; [exact Hlen'|].
      intros a b Ha' Hb'. rewrite (Hcells' a b Ha' Hb').
      rewrite (proj2 (Nat.ltb_lt b (0 + n))) by lia. rewrite andb_true_r.
      destruct (Nat.ltb_spec a a_now), (Nat.eqb_spec a a_now), (Nat.ltb_spec a (S a_now));
        try lia; reflexivity. }
  destruct Hpass as [Hlen Hcells]. split; [exact Hlen|].
  intros a b Ha Hb. rewrite (Hcells a b Ha Hb).
  now rewrite (proj2 (Nat.ltb_lt a (0 + n))) by lia.
Qed.

(** The two ways the passes number the cells. *)
Lemma row_major_fits (n i j : nat) : (i < n)%nat -> (j < n)%nat -> (i * n + j < n * n)%nat.
Proof. intros Hi Hj. nia. Qed.

Lemma row_major_unique (n i j i' j' : nat) :
  (j < n)%nat -> (j' < n)%nat -> (i * n + j = i' * n + j')%nat -> i = i' /\ j = j'.
Proof. intros Hj Hj' H. exact (digit_unique _ _ _ _ _ H Hj Hj'). Qed.

(** A pass by rows that stores [first i j] and a pass by columns that maps
    [second i j] over what is there, one after the other. *)
Lemma rows_then_columns (n : nat) (first : nat -> nat -> float)
    (second : nat -> nat -> float -> float) (out : list float) (i j : nat) :
  length out = (n * n)%nat -> (i < n)%nat -> (j < n)%nat ->
  (fold_left
     (fun out j =>
        fold_left (fun out i => <[(i * n + j)%nat := second i j out.[i * n + j]]> out)
          (seq 0 n) out)
     (seq 0 n)
     (fold_left
        (fun out i => fold_left (fun out j => <[(i * n + j)%nat := first i j]> out) (seq 0 n) out)
        (seq 0 n) out)).[i * n + j]
  = second i j (first i j).
Proof.
  intros Hlen Hi Hj.
  destruct (matrix_pass n (fun i j => (i * n + j)%nat) (fun i j _ => first i j) out)
    as [Hlen1 Hcells1].
  { intros a b Ha Hb. rewrite Hlen. now apply row_major_fits. }
  { intros a b a' b' _ Hb _ Hb'. now apply row_major_unique. }
  cbv zeta in Hlen1, Hcells1.
  set (out1 := fold_left _ (seq 0 n) out) in *.
  destruct (matrix_pass n (fun j i => (i * n + j)%nat) (fun j i x => second i j x) out1)
    as [_ Hcells2].
  { intros a b Ha Hb. rewrite Hlen1, Hlen. now apply row_major_fits. }
  { intros a b a' b' Ha _ Ha' _ H. destruct (row_major_unique n b a b' a' Ha Ha' H). auto. }
  cbv zeta in Hcells2. rewrite (Hcells2 j i Hj Hi). now rewrite (Hcells1 i j Hi Hj).
Qed.

Lemma fold_if {A B : Type} (c : bool) (f g : A -> B -> A) (l : list B) (a : A) :
  (if c then fold_left f l a else fold_left g l a)
  = fold_left (fun s x => if c then f s x else g s x) l a.
Proof. destruct c; reflexivity. Qed.

(** [0 * y] is NaN when [y] is NaN or an infinity. *)
Lemma mul_zero_l_not_finite (y : float) :
  is_finite_double y = false -> is_nan (0 * y) = true.
Proof.
  intros Hy. apply Binary64.is_nan_spec. rewrite mul_spec.
  change (Prim2SF 0) with (S754_zero false).
  destruct (Prim2SF y) as [s|s| |s m e] eqn:Ey; try reflexivity; exfalso.
  - assert (is_finite_double y = true); [|congruence].
    apply Binary64.is_finite_double_spec. rewrite Ey. exact I.
  - assert (is_finite_double y = true); [|congruence].
    apply Binary64.is_finite_double_spec. rewrite Ey. exact I.
Qed.

Lemma mul_zero_l_finite (y : float) :
  is_finite_double y = true -> is_zero_double (0 * y) = true.
Proof.
  unfold is_finite_double. intros [Hn Hi]%andb_prop.
  apply Binary64.mul_zero_l; now apply negb_true_iff.
Qed.

End KernelPasses.
Section KernelConversionFacts.
Local Open Scope float_scope.

Variable EPSILON : float.
Variable num_levels : Z.
Variables avk weights buffer : list float.

Local Abbreviation n := (Z.to_nat num_levels).

Hypothesis buffer_length : length buffer = (n * n)%nat.

Lemma density_avk_cells (i j : nat) :
  (i < n)%nat -> (j < n)%nat ->
  let height k := abs (weights.[k * 2 + 1] - weights.[k * 2]) in
  (harp_density_avk_from_partial_column_avk_and_altitude_bounds EPSILON num_levels avk
     weights buffer).[i * n + j]
  = (if height i <? EPSILON then 0 else avk.[i * n + j] / height i) * height j.
Proof using buffer_length.
  intros Hi Hj height.
  unfold harp_density_avk_from_partial_column_avk_and_altitude_bounds. cbv zeta.
  rewrite (fold_left_ext_in _
             (fun out i =>
                fold_left
                  (fun out j =>
                     <[(i * n + j)%nat :=
                         if height i <? EPSILON then 0 else avk.[i * n + j] / height i]> out)
                  (seq 0 n) out)
             (seq 0 n) buffer).
  - exact (rows_then_columns n
             (fun i j => if height i <? EPSILON then 0 else avk.[i * n + j] / height i)
             (fun i j x => x * height j) buffer i j buffer_length Hi Hj).
  - intros s a _. rewrite fold_if. apply fold_left_ext_in. intros s' b _.
    subst height. cbv beta. now destruct (_ <? _).
Qed.

Lemma partial_column_avk_cells (i j : nat) :
  (i < n)%nat -> (j < n)%nat ->
  let height k := abs (weights.[k * 2 + 1] - weights.[k * 2]) in
  (harp_partial_column_avk_from_density_avk_and_altitude_bounds EPSILON num_levels avk
     weights buffer).[i * n + j]
  = if height j <? EPSILON then 0 else avk.[i * n + j] * height i / height j.
Proof using buffer_length.
  intros Hi Hj height.
  unfold harp_partial_column_avk_from_density_avk_and_altitude_bounds. cbv zeta.
  rewrite (fold_left_ext_in _
             (fun out j =>
                fold_left
                  (fun out i =>
                     <[(i * n + j)%nat :=
                         (fun i j x => if height j <? EPSILON then 0 else x / height j)
                           i j out.[i * n + j]]> out)
                  (seq 0 n) out)
             (seq 0 n)).
  - exact (rows_then_columns n (fun i j => avk.[i * n + j] * height i)
             (fun i j x => if height j <? EPSILON then 0 else x / height j)
             buffer i j buffer_length Hi Hj).
  - intros s b _. rewrite fold_if. apply fold_left_ext_in. intros s' a _.
    subst height. cbv beta. now destruct (_ <? _).
Qed.

Lemma number_density_avk_cells (i j : nat) :
  (i < n)%nat -> (j < n)%nat ->
  (harp_number_density_avk_from_volume_mixing_ratio_avk EPSILON num_levels avk
     weights buffer).[i * n + j]
  = if abs weights.[j] <? EPSILON then 0 else avk.[i * n + j] * weights.[i] / weights.[j].
Proof using buffer_length.
  intros Hi Hj.
  unfold harp_number_density_avk_from_volume_mixing_ratio_avk. cbv zeta.
  rewrite (fold_left_ext_in _
             (fun out j =>
                fold_left
                  (fun out i =>
                     <[(i * n + j)%nat :=
                         (fun i j x => if abs weights.[j] <? EPSILON then 0 else x / weights.[j])
                           i j out.[i * n + j]]> out)
                  (seq 0 n) out)
             (seq 0 n)).
  - exact (rows_then_columns n (fun i j => avk.[i * n + j] * weights.[i])
             (fun i j x => if abs weights.[j] <? EPSILON then 0 else x / weights.[j])
             buffer i j buffer_length Hi Hj).
  - intros s b _. rewrite fold_if. apply fold_left_ext_in. intros s' a _.
    cbv beta. now destruct (_ <? _).
Qed.

Lemma volume_mixing_ratio_avk_cells (i j : nat) :
  (i < n)%nat -> (j < n)%nat ->
  (harp_volume_mixing_ratio_avk_from_number_density_avk EPSILON num_levels avk
     weights buffer).[i * n + j]
  = (if abs weights.[i] <? EPSILON then 0 else avk.[i * n + j] / weights.[i]) * weights.[j].
Proof using buffer_length.
  intros Hi Hj.
  unfold harp_volume_mixing_ratio_avk_from_number_density_avk. cbv zeta.
  rewrite (fold_left_ext_in _
             (fun out i =>
                fold_left
                  (fun out j =>
                     <[(i * n + j)%nat :=
                         if abs weights.[i] <? EPSILON then 0 else avk.[i * n + j] / weights.[i]]>
                       out)
                  (seq 0 n) out)
             (seq 0 n) buffer).
  - exact (rows_then_columns n
             (fun i j => if abs weights.[i] <? EPSILON then 0 else avk.[i * n + j] / weights.[i])
             (fun i j x => x * weights.[j]) buffer i j buffer_length Hi Hj).
  - intros s a _. rewrite fold_if. apply fold_left_ext_in. intros s' b _.
    cbv beta. now destruct (_ <? _).
Qed.

End KernelConversionFacts.
Section KernelConversionClaims.
Local Open Scope float_scope.

(** X14: in binary64, with an output array of [num_levels * num_levels] elements,
    entry [(i, j)] of the density kernel is the entry of the partial column kernel
    divided by the height of layer [i], or 0 when that layer is thinner than
    [EPSILON], and then multiplied by the height of layer [j]; so in the row of a
    thin layer an entry is a zero where the height of layer [j] is finite and NaN
    where it is NaN or an infinity.  Entry [(i, j)] of the partial column kernel is
    the entry of the density kernel multiplied by the height of layer [i] and
    divided by the height of layer [j], and exactly 0 in the column of a layer
    thinner than [EPSILON]. *)
Theorem altitude_kernel_conversions_scale_by_layer_heights
    (EPSILON : float) (num_levels : Z) (avk altitude_bounds buffer : list float) (i j : nat) :
  let n := Z.to_nat num_levels in
  let height k := abs (altitude_bounds.[k * 2 + 1] - altitude_bounds.[k * 2]) in
  let density :=
    (harp_density_avk_from_partial_column_avk_and_altitude_bounds EPSILON num_levels avk
       altitude_bounds buffer).[i * n + j] in
  let partial_column :=
    (harp_partial_column_avk_from_density_avk_and_altitude_bounds EPSILON num_levels avk
       altitude_bounds buffer).[i * n + j] in
  length buffer = (n * n)%nat -> (i < n)%nat -> (j < n)%nat ->
  density = (if height i <? EPSILON then 0 else avk.[i * n + j] / height i) * height j
  /\ partial_column
     = (if height j <? EPSILON then 0 else avk.[i * n + j] * height i / height j)
  /\ ((height i <? EPSILON) = true ->
      if is_finite_double (height j) then is_zero_double density = true
      else is_nan density = true)
  /\ ((height j <? EPSILON) = true -> partial_column = 0).
Proof.
  intros n height density partial_column Hlen Hi Hj.
  assert (Hd : density
               = (if height i <? EPSILON then 0 else avk.[i * n + j] / height i) * height j)
    by exact (density_avk_cells EPSILON num_levels avk altitude_bounds buffer Hlen i j Hi Hj).
  assert (Hp : partial_column
               = (if height j <? EPSILON then 0 else avk.[i * n + j] * height i / height j))
    by exact (partial_column_avk_cells EPSILON num_levels avk altitude_bounds buffer Hlen
                i j Hi Hj).
  split; [exact Hd|]. split; [exact Hp|]. split.
  - intros Hthin. rewrite Hd, Hthin.
    destruct (is_finite_double (height j)) eqn:Ef.
    + now apply mul_zero_l_finite.
    + now apply mul_zero_l_not_finite.
  - intros Hthin. now rewrite Hp, Hthin.
Qed.

(** Two layers, 10 m and 1e-12 m high: the row and the column of the second
    layer are zero. *)
Lemma altitude_kernel_conversions_scale_by_layer_heights_witness :
  let bounds := [0; 10; 10; 10.000000000001] in
  (harp_density_avk_from_partial_column_avk_and_altitude_bounds 1e-10 2 [1; 2; 3; 4]
     bounds [0; 0; 0; 0]).[0 * 2 + 1]
  = 2 / 10 * abs (bounds.[3] - bounds.[2])
  /\ is_zero_double
       (harp_density_avk_from_partial_column_avk_and_altitude_bounds 1e-10 2 [1; 2; 3; 4]
          bounds [0; 0; 0; 0]).[1 * 2 + 0] = true
  /\ (harp_partial_column_avk_from_density_avk_and_altitude_bounds 1e-10 2 [1; 2; 3; 4]
        bounds [0; 0; 0; 0]).[0 * 2 + 1] = 0.
Proof.
  intros bounds.
  destruct (altitude_kernel_conversions_scale_by_layer_heights 1e-10 2 [1; 2; 3; 4] bounds
              [0; 0; 0; 0] 0 1 eq_refl ltac:(vm_compute; lia) ltac:(vm_compute; lia))
    as (Hd & _ & _ & Hp).
  destruct (altitude_kernel_conversions_scale_by_layer_heights 1e-10 2 [1; 2; 3; 4] bounds
              [0; 0; 0; 0] 1 0 eq_refl ltac:(vm_compute; lia) ltac:(vm_compute; lia))
    as (_ & _ & Hz & _).
  split; [exact Hd|]. split; [exact (Hz eq_refl)|exact (Hp eq_refl)].
Defined.

(** X16: in binary64, with an output array of [num_levels * num_levels] elements,
    entry [(i, j)] of the number density kernel is the entry of the volume mixing
    ratio kernel multiplied by the air density of level [i] and divided by that of
    level [j], and exactly 0 in the column of a level whose air density is below
    [EPSILON] in absolute value.  Entry [(i, j)] of the volume mixing ratio kernel
    is the entry of the number density kernel divided by the air density of level
    [i], or 0 when that density is below [EPSILON] in absolute value, and then
    multiplied by the air density of level [j]; so in the row of such a level an
    entry is a zero where the air density of level [j] is finite and NaN where it
    is NaN or an infinity. *)
Theorem number_density_kernel_conversions_scale_by_air_density
    (EPSILON : float) (num_levels : Z) (avk number_density_air buffer : list float)
    (i j : nat) :
  let n := Z.to_nat num_levels in
  let number_density :=
    (harp_number_density_avk_from_volume_mixing_ratio_avk EPSILON num_levels avk
       number_density_air buffer).[i * n + j] in
  let volume_mixing_ratio :=
    (harp_volume_mixing_ratio_avk_from_number_density_avk EPSILON num_levels avk
       number_density_air buffer).[i * n + j] in
  length buffer = (n * n)%nat -> (i < n)%nat -> (j < n)%nat ->
  number_density
  = (if abs number_density_air.[j] <? EPSILON then 0
     else avk.[i * n + j] * number_density_air.[i] / number_density_air.[j])
  /\ volume_mixing_ratio
     = (if abs number_density_air.[i] <? EPSILON then 0
        else avk.[i * n + j] / number_density_air.[i]) * number_density_air.[j]
  /\ ((abs number_density_air.[j] <? EPSILON) = true -> number_density = 0)
  /\ ((abs number_density_air.[i] <? EPSILON) = true ->
      if is_finite_double number_density_air.[j]
      then is_zero_double volume_mixing_ratio = true
      else is_nan volume_mixing_ratio = true).
Proof.
  intros n number_density volume_mixing_ratio Hlen Hi Hj.
  assert (Hn : number_density
               = (if abs number_density_air.[j] <? EPSILON then 0
                  else avk.[i * n + j] * number_density_air.[i] / number_density_air.[j]))
    by exact (number_density_avk_cells EPSILON num_levels avk number_density_air buffer Hlen
                i j Hi Hj).
  assert (Hv : volume_mixing_ratio
               = (if abs number_density_air.[i] <? EPSILON then 0
                  else avk.[i * n + j] / number_density_air.[i]) * number_density_air.[j])
    by exact (volume_mixing_ratio_avk_cells EPSILON num_levels avk number_density_air buffer
                Hlen i j Hi Hj).
  split; [exact Hn|]. split; [exact Hv|]. split.
  - intros Hsmall. now rewrite Hn, Hsmall.
  - intros Hsmall. rewrite Hv, Hsmall.
    destruct (is_finite_double number_density_air.[j]) eqn:Ef.
    + now apply mul_zero_l_finite.
    + now apply mul_zero_l_not_finite.
Qed.

(** Two levels of which the second has no air, and then a NaN density at the
    first: the entry [(1, 0)] of the volume mixing ratio kernel is NaN. *)
Lemma number_density_kernel_conversions_scale_by_air_density_witness :
  (harp_number_density_avk_from_volume_mixing_ratio_avk 1e-10 2 [1; 2; 3; 4] [5; 0]
     [0; 0; 0; 0]).[0 * 2 + 1] = 0
  /\ is_nan (harp_volume_mixing_ratio_avk_from_number_density_avk 1e-10 2 [1; 2; 3; 4]
               [nan; 0] [0; 0; 0; 0]).[1 * 2 + 0] = true.
Proof.
  destruct (number_density_kernel_conversions_scale_by_air_density 1e-10 2 [1; 2; 3; 4] [5; 0]
              [0; 0; 0; 0] 0 1 eq_refl ltac:(vm_compute; lia) ltac:(vm_compute; lia))
    as (_ & _ & Hn & _).
  destruct (number_density_kernel_conversions_scale_by_air_density 1e-10 2 [1; 2; 3; 4]
              [nan; 0] [0; 0; 0; 0] 1 0 eq_refl ltac:(vm_compute; lia) ltac:(vm_compute; lia))
    as (_ & _ & _ & Hv).
  split; [exact (Hn eq_refl)|exact (Hv eq_refl)].
Defined.

End KernelConversionClaims.
